(** * Conceal faucet API: session lifecycle and claim orchestration

    A shallow embedding of the session middleware (middleware/sessionToken.js),
    the origin guard (middleware/originValidation.js) and the two routes
    [GET /start-game] and [POST /claim] of routes/faucet.js, together with
    the properties the design document states about them.

    Conventions
    - A JavaScript string is a [string]; every character stands for one
      UTF-16 code unit, so [String.length] is [.length].
    - A JavaScript number that the program only uses as an integer is a [Z];
      a number that may be [NaN] is an [option Z] with [None] for [NaN].
    - [undefined], [null] and a missing property of type string are [None].
    - A value the client chooses the type of is given with its type: the
      address of the query is a [QueryValue], the score of the JSON body a
      [JsonValue], converted as JavaScript converts it.
    - A route handler sends a response or throws outside every [try]: its
      result is an [Outcome].
    - Redis is a finite map from keys to values with an absolute expiry
      time; every command gets the current time in milliseconds.
    - [Date.now()] and [crypto.randomBytes] are inputs of the functions that
      call them. One request is handled at one instant. *)

From Stdlib Require Import ZArith String Ascii List Bool Lia QArith_base DecimalString.
From stdpp Require Import base option gmap strings list.

Local Open Scope string_scope.
Local Open Scope Z_scope.

(** ** JavaScript primitives used by the sources *)

Module Js.

(** Truthiness of a value that is a string, [undefined] or [null]. *)
Definition truthy (v : option string) : bool :=
  match v with
  | Some s => negb (String.eqb s "")
  | None => false
  end.

(** [a || b] on such values. *)
Definition or_else (a b : option string) : option string :=
  if truthy a then a else b.

(** [a || "literal"]. *)
Definition or_default (a : option string) (d : string) : string :=
  match a with
  | Some s => if String.eqb s "" then d else s
  | None => d
  end.

(** [a === b] where [b] is a string and [a] may be undefined. *)
Definition strict_eq (a : option string) (b : string) : bool :=
  match a with
  | Some s => String.eqb s b
  | None => false
  end.

(** White space as [String.prototype.trim] and [parseInt] see it, for the
    code units below 256: TAB, LF, VT, FF, CR, SPACE and NBSP. *)
Definition is_space (c : ascii) : bool :=
  let n := nat_of_ascii c in
  ((9 <=? n) && (n <=? 13) || (n =? 32) || (n =? 160))%nat.

Fixpoint trimStart (s : string) : string :=
  match s with
  | String c r => if is_space c then trimStart r else s
  | EmptyString => EmptyString
  end.

Fixpoint trimEnd (s : string) : string :=
  match s with
  | String c r =>
      let r' := trimEnd r in
      if is_space c && String.eqb r' "" then EmptyString else String c r'
  | EmptyString => EmptyString
  end.

Definition trim (s : string) : string := trimEnd (trimStart s).

(** [s.split(sep)] for a one-character separator: always at least one
    piece, and the empty string splits into one empty piece. *)
Fixpoint split (sep : ascii) (s : string) : list string :=
  match s with
  | EmptyString => [EmptyString]
  | String c r =>
      if Ascii.eqb c sep then EmptyString :: split sep r
      else match split sep r with
           | h :: t => String c h :: t
           | [] => [String c EmptyString]
           end
  end.

Definition startsWith (s p : string) : bool := String.prefix p s.

Definition includes (l : list string) (x : string) : bool :=
  existsb (String.eqb x) l.

Definition digit (c : ascii) : option Z :=
  let n := nat_of_ascii c in
  if ((48 <=? n) && (n <=? 57))%nat then Some (Z.of_nat n - 48) else None.

(** The longest prefix of decimal digits, read left to right;
    [None] when there is no digit at all. *)
Fixpoint digits (acc : option Z) (s : string) : option Z :=
  match s with
  | String c r =>
      match digit c with
      | Some d => digits (Some (10 * default 0 acc + d)) r
      | None => acc
      end
  | EmptyString => acc
  end.

(** [parseInt(s, 10)]: leading white space, an optional sign, then
    digits; [None] is [NaN]. (The result is exact here; JavaScript rounds
    beyond 2^53.) *)
Definition parseInt (s : string) : option Z :=
  match trimStart s with
  | String "-" r => Z.opp <$> digits None r
  | String "+" r => digits None r
  | r => digits None r
  end.

(** [a < b] on numbers: false as soon as one side is [NaN]. *)
Definition lt (a b : option Z) : bool :=
  match a, b with
  | Some x, Some y => x <? y
  | _, _ => false
  end.

(** [Math.floor(a / k)] for a positive integer constant [k]. *)
Definition floorDiv (a : option Z) (k : Z) : option Z := (fun x => x / k) <$> a.

(** [a / 1000000] as an exact fraction. *)
Definition perMillion (a : option Z) : option Q := (fun x => Qmake x 1000000) <$> a.

(** The decimal text of an integer, as [String(n)] prints it. *)
Definition toString (n : Z) : string := NilZero.string_of_int (Z.to_int n).

End Js.

(** ** Values of a query string and of a JSON body

    [req.query.address] is what the query parser makes of the URL: it is
    absent, a string, an array (for [?address=a&address=b]) or an object
    (for [?address[k]=v]). [req.body.score] is absent or any value
    [JSON.parse] returns. *)

#[warnings="-register-all"] Inductive QueryValue :=
| QString (s : string)
| QArray (items : list QueryValue)
| QObject (fields : list (string * QueryValue)).

(** A JavaScript number that is not [NaN]: a finite double, given by its
    exact value, or an infinity (the JSON text 1e999 reads as one). *)
Inductive Number :=
| Finite (q : Q)
| Infinity (negative : bool).

#[warnings="-register-all"] Inductive JsonValue :=
| JsonNull
| JsonBool (b : bool)
| JsonNumber (n : Number)
| JsonString (s : string)
| JsonArray (items : list JsonValue)
| JsonObject (fields : list (string * JsonValue)).

(** The JSON number of an integer. *)
Definition JsonInt (n : Z) : JsonValue := JsonNumber (Finite (inject_Z n)).

(** [!!v] for a value of the query, and for one of a JSON body: arrays and
    objects are truthy, also the empty ones. *)
Definition queryTruthy (v : option QueryValue) : bool :=
  match v with
  | None => false
  | Some (QString s) => negb (String.eqb s "")
  | Some (QArray _) | Some (QObject _) => true
  end.

Definition ToBoolean (v : option JsonValue) : bool :=
  match v with
  | None | Some JsonNull => false
  | Some (JsonBool b) => b
  | Some (JsonNumber (Finite q)) => negb (Qnum q =? 0)
  | Some (JsonNumber (Infinity _)) => true
  | Some (JsonString s) => negb (String.eqb s "")
  | Some (JsonArray _) | Some (JsonObject _) => true
  end.

(** *** Rounding to a double *)

(** The integer nearest to [num / den] for a positive [den], ties to the
    even one. *)
Definition nearestEven (num den : Z) : Z :=
  let q := num / den in
  let r := num mod den in
  if 2 * r <? den then q
  else if den <? 2 * r then q + 1
  else if Z.even q then q else q + 1.

(** The double nearest to [n / d] for positive [n] and [d]: 53 significant
    bits, exponents from -1022 (below which the spacing stays 2^-1074) to
    1023 (above which the result is an infinity). *)
Definition roundPositive (n d : Z) : Number :=
  let e0 := Z.log2 n - Z.log2 d in
  let reaches := if 0 <=? e0 then d * 2 ^ e0 <=? n else d <=? n * 2 ^ (- e0) in
  let e := if reaches then e0 else e0 - 1 in
  let p := Z.max e (-1022) - 52 in
  if 0 <=? p
  then let m := nearestEven n (d * 2 ^ p) in
       if 2 ^ 1024 <=? m * 2 ^ p then Infinity false
       else Finite (inject_Z (m * 2 ^ p))
  else let m := nearestEven (n * 2 ^ (- p)) d in
       Finite (Qmake m (Z.to_pos (2 ^ (- p)))).

Definition negate (x : Number) : Number :=
  match x with
  | Finite q => Finite (Qmake (- Qnum q) (Qden q))
  | Infinity negative => Infinity (negb negative)
  end.

(** The double nearest to [n / d] for [n >= 0] and [d > 0]. *)
Definition roundToDouble (n d : Z) : Number :=
  if n =? 0 then Finite (inject_Z 0) else roundPositive n d.

(** *** [StringToNumber]: the number a string reads as *)

(** The longest prefix of decimal digits, and what follows it. *)
Fixpoint spanDigits (s : string) : list Z * string :=
  match s with
  | String c r =>
      match Js.digit c with
      | Some d => let '(ds, rest) := spanDigits r in (d :: ds, rest)
      | None => ([], s)
      end
  | EmptyString => ([], EmptyString)
  end.

Definition digitsValue (base : Z) (ds : list Z) : Z :=
  fold_left (fun acc d => base * acc + d) ds 0.

(** An exponent part, which may be absent: [e] or [E], an optional sign,
    and at least one digit, up to the end of the string. *)
Definition exponentPart (s : string) : option Z :=
  match s with
  | EmptyString => Some 0
  | String c r =>
      if Ascii.eqb c "e" || Ascii.eqb c "E" then
        let '(negative, r) :=
          match r with
          | String "-" r' => (true, r')
          | String "+" r' => (false, r')
          | _ => (false, r)
          end in
        match spanDigits r with
        | ((_ :: _) as ds, EmptyString) =>
            Some (if negative then - digitsValue 10 ds else digitsValue 10 ds)
        | _ => None
        end
      else None
  end.

(** An unsigned decimal literal: digits with an optional point among or
    around them, at least one digit, and an optional exponent part. *)
Definition unsignedDecimal (s : string) : option Number :=
  let '(int, r1) := spanDigits s in
  let '(frac, r2) :=
    match r1 with
    | String "." r => spanDigits r
    | _ => ([], r1)
    end in
  match (int ++ frac)%list, exponentPart r2 with
  | (_ :: _) as ds, Some e =>
      let k := e - Z.of_nat (length frac) in
      Some (if 0 <=? k then roundToDouble (digitsValue 10 ds * 10 ^ k) 1
            else roundToDouble (digitsValue 10 ds) (10 ^ (- k)))
  | _, _ => None
  end.

(** The digits of a literal in base 2, 8 or 16, to the end of the string. *)
Definition digitIn (base : Z) (c : ascii) : option Z :=
  let n := Z.of_nat (nat_of_ascii c) in
  let d := if (48 <=? n) && (n <=? 57) then Some (n - 48)
           else if (97 <=? n) && (n <=? 102) then Some (n - 87)
           else if (65 <=? n) && (n <=? 70) then Some (n - 55)
           else None in
  match d with
  | Some d => if d <? base then Some d else None
  | None => None
  end.

Fixpoint digitsIn (base : Z) (s : string) : option (list Z) :=
  match s with
  | EmptyString => Some []
  | String c r =>
      match digitIn base c, digitsIn base r with
      | Some d, Some ds => Some (d :: ds)
      | _, _ => None
      end
  end.

Definition nonDecimal (base : Z) (s : string) : option Number :=
  match digitsIn base s with
  | Some ((_ :: _) as ds) => Some (roundToDouble (digitsValue base ds) 1)
  | _ => None
  end.

(** [Number(s)] for a string: white space at both ends is dropped; the
    empty text reads as 0; a literal in base 16, 8 or 2 has no sign; a
    decimal literal or [Infinity] may have one. [None] is [NaN]. *)
Definition StringToNumber (s : string) : option Number :=
  match Js.trim s with
  | EmptyString => Some (Finite (inject_Z 0))
  | String "0" (String "x" r) | String "0" (String "X" r) => nonDecimal 16 r
  | String "0" (String "o" r) | String "0" (String "O" r) => nonDecimal 8 r
  | String "0" (String "b" r) | String "0" (String "B" r) => nonDecimal 2 r
  | String "-" r =>
      if String.eqb r "Infinity" then Some (Infinity true)
      else negate <$> unsignedDecimal r
  | String "+" r =>
      if String.eqb r "Infinity" then Some (Infinity false) else unsignedDecimal r
  | r => if String.eqb r "Infinity" then Some (Infinity false) else unsignedDecimal r
  end.

(** *** [ToNumber] of a JSON value *)

(** What converting a value to a number comes to: a TypeError, [NaN], or a
    number. *)
Inductive Converted :=
| Throws
| NaN
| Num (n : Number).

Definition hasOwn (key : string) (fields : list (string * JsonValue)) : bool :=
  existsb (fun field => String.eqb (fst field) key) fields.

(** Whether [String(v)] throws. An object whose own [toString] is a JSON
    value, which is no function, has no primitive value; an array joins the
    texts of its items. *)
Fixpoint stringThrows (v : JsonValue) : bool :=
  match v with
  | JsonObject fields => hasOwn "toString" fields
  | JsonArray items => existsb stringThrows items
  | _ => false
  end.

(** [Number(v)]. An object reads as the text [[object Object]], which is
    no number. An array reads as its items joined by commas: the empty
    array as the empty text, an array of one item as the text of that item
    (the empty text for [null]; the text of a number reads back as that
    number), and a longer one as a text with a comma, which is no number. *)
Fixpoint ToNumber (v : JsonValue) : Converted :=
  match v with
  | JsonNull => Num (Finite (inject_Z 0))
  | JsonBool b => Num (Finite (inject_Z (if b then 1 else 0)))
  | JsonNumber n => Num n
  | JsonString s =>
      match StringToNumber s with
      | Some n => Num n
      | None => NaN
      end
  | JsonObject fields => if hasOwn "toString" fields then Throws else NaN
  | JsonArray [] => Num (Finite (inject_Z 0))
  | JsonArray [JsonBool _] => NaN
  | JsonArray [item] => ToNumber item
  | JsonArray items => if existsb stringThrows items then Throws else NaN
  end.

(** [x < m] for a number and an integer. *)
Definition numberLt (x : Number) (m : Z) : bool :=
  match x with
  | Finite q => Qnum q <? m * Z.pos (Qden q)
  | Infinity negative => negative
  end.

(** [v < n] where [n] is a number or [NaN]: [None] when converting [v]
    throws, and false as soon as one side is [NaN]. *)
Definition lessThan (v : JsonValue) (n : option Z) : option bool :=
  match ToNumber v with
  | Throws => None
  | NaN => Some false
  | Num x =>
      Some match n with
           | Some m => numberLt x m
           | None => false
           end
  end.

(** ** Configuration: the environment variables the sources read *)

Record Env := {
  NODE_ENV : option string;
  FRONTEND_DOMAIN : option string;
  SESSION_TTL_MS : option string;
  MIN_SESSION_TIME_MS : option string;
  MIN_SCORE : option string;
  FAUCET_AMOUNT : option string;
  FAUCET_ADDRESS : option string;
  FAUCET_MIN_BALANCE : option string;
  COOLDOWN_SECONDS : option string
}.

(** [process.env.NODE_ENV === "production"] *)
Definition isProduction (env : Env) : bool := Js.strict_eq (NODE_ENV env) "production".

(** [parseInt(process.env.X || "default", 10)] *)
Definition envInt (v : option string) (d : string) : option Z :=
  Js.parseInt (Js.or_default v d).

(** ** Data model *)

(** The object [createSession] serialises under [session:<token>]. *)
Record Session := {
  ip : string;
  address : string;
  origin : option string;
  startedAt : Z;
  csrfToken : string
}.

(** [JSON.stringify] of a string: quotes, with the quote, the backslash
    and the control characters escaped. *)
Module Json.

Definition chr (n : nat) : string := String (ascii_of_nat n) EmptyString.

Definition hexDigit (n : nat) : string :=
  chr (if (n <? 10)%nat then 48 + n else 87 + n)%nat.

Definition escape1 (c : ascii) : string :=
  let n := nat_of_ascii c in
  if (n =? 34)%nat then chr 92 +:+ chr 34
  else if (n =? 92)%nat then chr 92 +:+ chr 92
  else if (n =? 8)%nat then chr 92 +:+ "b"
  else if (n =? 9)%nat then chr 92 +:+ "t"
  else if (n =? 10)%nat then chr 92 +:+ "n"
  else if (n =? 12)%nat then chr 92 +:+ "f"
  else if (n =? 13)%nat then chr 92 +:+ "r"
  else if (n <? 32)%nat then chr 92 +:+ "u00" +:+ hexDigit (n / 16) +:+ hexDigit (n mod 16)
  else String c EmptyString.

Fixpoint escape (s : string) : string :=
  match s with
  | String c r => escape1 c +:+ escape r
  | EmptyString => EmptyString
  end.

Definition str (s : string) : string := chr 34 +:+ escape s +:+ chr 34.

Definition nullable (s : option string) : string :=
  match s with
  | Some s => str s
  | None => "null"
  end.

Definition field (name value : string) : string := str name +:+ ":" +:+ value.

(** [JSON.stringify({ ip, address, origin, startedAt, csrfToken })] *)
Definition stringify (s : Session) : string :=
  "{" +:+ field "ip" (str (ip s))
  +:+ "," +:+ field "address" (str (address s))
  +:+ "," +:+ field "origin" (nullable (origin s))
  +:+ "," +:+ field "startedAt" (Js.toString (startedAt s))
  +:+ "," +:+ field "csrfToken" (str (csrfToken s))
  +:+ "}".

End Json.

(** A Redis value is a string. The program stores two kinds: the JSON text
    of a session object, kept here as the object it parses back to, and
    plain strings (a token of the address index, a time stamp). *)
Inductive RedisVal :=
| VSession (s : Session)
| VStr (s : string).

(** The string itself, as a template literal interpolates it. *)
Definition text (raw : RedisVal) : string :=
  match raw with
  | VSession s => Json.stringify s
  | VStr s => s
  end.

(** [JSON.parse(raw)] followed by the use of the result as a session. A
    plain string stored by this program under a [session:] key is a token
    of 64 hexadecimal digits, which is no JSON text: [JSON.parse] throws,
    which is [None] here. *)
Definition JSON_parse (raw : RedisVal) : option Session :=
  match raw with
  | VSession s => Some s
  | VStr _ => None
  end.

(** [if (raw)] on a value read from Redis: any string but the empty one. *)
Definition val_truthy (raw : RedisVal) : bool := negb (String.eqb (text raw) "").

Record Entry := { val : RedisVal; expiresAt : Z }.

(** What a request sends to the abuse log, the wallet and Redis; the
    [trace] of a world lists them oldest first. *)
Inductive Effect :=
| ESetEx (key : string) (ttlSeconds : Z) (v : RedisVal)
| EDel (key : string)
| ESend (to : string) (amount : option Z)
| ELog (kind : string) (fields : list (string * option string)).

Record World := {
  kv : gmap string Entry;
  connected : bool;
  trace : list Effect
}.

Definition emit (e : Effect) (w : World) : World :=
  {| kv := kv w; connected := connected w; trace := trace w ++ [e] |}.

Definition with_kv (m : gmap string Entry) (w : World) : World :=
  {| kv := m; connected := connected w; trace := trace w |}.

(** Modelled from the spec: [logSecurityEvent(kind, fields)] of utils/logger
    is not among the sources. The log sink "accepts structured events" and is
    "append-only": one event appended to the trace. *)
Definition logSecurityEvent (kind : string) (fields : list (string * option string))
  (w : World) : World := emit (ELog kind fields) w.

(** ** Redis commands, in a state and exception monad *)

Inductive Exn :=
| RedisError
| SyntaxError
| TypeError
| WalletError (message : option string).

Inductive Result (A : Type) :=
| Ok (a : A) (w : World)
| Throw (e : Exn) (w : World).
Arguments Ok {A} a w.
Arguments Throw {A} e w.

Definition M (A : Type) : Type := World -> Result A.

Definition ret {A} (a : A) : M A := fun w => Ok a w.

Definition bind {A B} (m : M A) (f : A -> M B) : M B :=
  fun w => match m w with
           | Ok a w' => f a w'
           | Throw e w' => Throw e w'
           end.

Definition throw {A} (e : Exn) : M A := fun w => Throw e w.

(** [try { m } catch (e) { h e }] *)
Definition try_catch {A} (m : M A) (h : Exn -> M A) : M A :=
  fun w => match m w with
           | Ok a w' => Ok a w'
           | Throw e w' => h e w'
           end.

Declare Scope js_scope.
Delimit Scope js_scope with js.
Notation "x <- m ;; k" := (bind m (fun x => k))
  (at level 100, m at next level, right associativity) : js_scope.
Notation "m ;; k" := (bind m (fun _ => k))
  (at level 100, right associativity) : js_scope.
Local Open Scope js_scope.

(** The value under a key, unless the key is absent or has expired. *)
Definition live (now : Z) (e : option Entry) : option RedisVal :=
  match e with
  | Some e => if now <? expiresAt e then Some (val e) else None
  | None => None
  end.

(** [redisClient.get(key)] *)
Definition redis_get (now : Z) (key : string) : M (option RedisVal) :=
  fun w => if connected w then Ok (live now (kv w !! key)) w else Throw RedisError w.

(** The world after [DEL key]. *)
Definition deleted (key : string) (w : World) : World :=
  emit (EDel key) (with_kv (delete key (kv w)) w).

(** The world after [SETEX key ttl v] at time [now]. *)
Definition stored (now : Z) (key : string) (ttl : Z) (v : RedisVal) (w : World) : World :=
  emit (ESetEx key ttl v)
    (with_kv (<[key := {| val := v; expiresAt := now + 1000 * ttl |}]> (kv w)) w).

(** [redisClient.del(key)] *)
Definition redis_del (key : string) : M unit :=
  fun w => if connected w then Ok tt (deleted key w) else Throw RedisError w.

(** [redisClient.setEx(key, ttlSeconds, value)]. Redis refuses an expiry
    that is not a positive integer. *)
Definition redis_setEx (now : Z) (key : string) (ttlSeconds : option Z) (v : RedisVal) : M unit :=
  fun w => match ttlSeconds with
           | Some ttl =>
               if connected w && (0 <? ttl)
               then Ok tt (stored now key ttl v w)
               else Throw RedisError w
           | None => Throw RedisError w
           end.

(** [Promise.all([a, b])] of two commands: both are issued, in the order of
    the array. A command fails here for a reason that holds for both (the
    connection, the TTL), so the first failure is the failure of the pair. *)
Definition Promise_all2 (a b : M unit) : M unit := a ;; b.

Definition sessionKey (token : string) : string := "session:" +:+ token.
Definition addressKey (address : string) : string := "session:addr:" +:+ address.

(** ** middleware/sessionToken.js *)

Definition deleteSessionsForAddress (now : Z) (address : string) : M unit :=
  let addressKey := addressKey address in
  oldToken <- redis_get now addressKey ;;
  match oldToken with
  | Some oldToken =>
      if val_truthy oldToken
      then Promise_all2 (redis_del (sessionKey (text oldToken))) (redis_del addressKey)
      else ret tt
  | None => ret tt
  end.

(** [token] and [csrfToken] are the two results of
    [crypto.randomBytes(32).toString("hex")], [now] that of [Date.now()]. *)
Definition createSession (env : Env) (now : Z) (token csrfToken : string)
  (ip address : string) (origin : option string) : M (string * string) :=
  deleteSessionsForAddress now address ;;
  let key := sessionKey token in
  let addressKey := addressKey address in
  let data := VSession {| ip := ip; address := address; origin := origin;
                          startedAt := now; csrfToken := csrfToken |} in
  let sessionTtlMs := envInt (SESSION_TTL_MS env) "600000" in
  let ttlSeconds := Js.floorDiv sessionTtlMs 1000 in
  Promise_all2 (redis_setEx now key ttlSeconds data)
               (redis_setEx now addressKey ttlSeconds (VStr token)) ;;
  ret (token, csrfToken).

Definition deleteSession (now : Z) (token : string) : M unit :=
  let key := sessionKey token in
  raw <- redis_get now key ;;
  match raw with
  | Some raw =>
      if val_truthy raw
      then try_catch
             (match JSON_parse raw with
              | Some session =>
                  let addressKey := addressKey (address session) in
                  Promise_all2 (redis_del key) (redis_del addressKey)
              | None => throw SyntaxError
              end)
             (fun _ => redis_del key)
      else ret tt
  | None => ret tt
  end.

(** ** Requests and responses *)

Record Request := {
  method : string;
  originalUrl : string;
  (** [req.cookies["faucet-token"]] *)
  cookie_token : option string;
  (** [req.headers.origin]; Node lower-cases header names, so
      [req.headers.Origin] is never set *)
  header_origin : option string;
  (** [req.get("x-faucet-csrf")], which ignores case *)
  header_csrf : option string;
  (** [req.query.address] *)
  query_address : option QueryValue;
  (** [req.body.address] and [req.body.score] *)
  body_address : option string;
  body_score : option JsonValue;
  (** the result of [getClientIP(req)] of utils/getClientIP *)
  clientIP : string
}.

Inductive Body :=
| JError (error : string)
| JErrorOf (e : Exn) (fallback : string)
| JSessionStarted (csrfToken : string)
| JClaimed (txHash : string) (amount : option Q).

Inductive CookieOp :=
| SetCookie (name value : string) (maxAge : option Z)
| ClearCookie (name : string).

Record Response := {
  status : Z;
  body : Body;
  cookies : list CookieOp
}.

(** [res.status(code).json({ error })] *)
Definition reject (code : Z) (error : string) : Response :=
  {| status := code; body := JError error; cookies := [] |}.

(** What a route handler comes to: it sends a response, or it throws
    outside every [try] and sends none (the promise of the [async] handler
    rejects; what the client then gets is up to Express). *)
Inductive Outcome :=
| Answered (r : Response)
| Uncaught (e : Exn).
Coercion Answered : Response >-> Outcome.

(** What a middleware does with a request: it answers, or it calls
    [next()] after it attached [A] to the request. *)
Inductive Step (A : Type) :=
| Respond (r : Response)
| Next (a : A).
Arguments Respond {A} r.
Arguments Next {A} a.

Definition Middleware (A : Type) : Type := World -> Step A * World.

(** [req.sessionToken] and [req.sessionData] *)
Record SessionCtx := {
  sessionToken : string;
  sessionData : Session
}.

Definition opt_eqb (a b : option string) : bool :=
  match a, b with
  | Some x, Some y => String.eqb x y
  | None, None => true
  | _, _ => false
  end.

(** The body of the [try] block of [verifySessionToken]. *)
Definition verifySessionToken_body (env : Env) (now : Z) (req : Request)
  : M (Step SessionCtx) :=
  let token := cookie_token req in
  if negb (Js.truthy token) then ret (Respond (reject 401 "Missing session token")) else
  let token := default "" token in
  let key := sessionKey token in
  raw <- redis_get now key ;;
  if negb (from_option val_truthy false raw)
  then ret (Respond (reject 403 "Invalid or expired session token")) else
  match raw ≫= JSON_parse with
  | None => ret (Respond (reject 500 "Invalid session data"))
  | Some session =>
    let csrfHeader := header_csrf req in
    if isProduction env &&
       (negb (Js.truthy csrfHeader) || negb (Js.truthy (Some (csrfToken session)))
        || negb (Js.strict_eq csrfHeader (csrfToken session)))
    then fun w =>
      Ok (Respond (reject 403 "Invalid request"))
         (logSecurityEvent "ABUSE"
            [("IP", Some (clientIP req)); ("PATH", Some (originalUrl req));
             ("REASON", Some "CSRF")] w)
    else
    let minGameTimeMs := envInt (MIN_SESSION_TIME_MS env) "5000" in
    let elapsed := now - startedAt session in
    if Js.lt (Some elapsed) minGameTimeMs
    then ret (Respond (reject 400 "Session completed too quickly")) else
    let clientIP := clientIP req in
    if negb (String.eqb (ip session) clientIP)
    then ret (Respond (reject 403 "IP mismatch")) else
    let requestOrigin := header_origin req in
    if isProduction env then
      if negb (Js.truthy (origin session)) || negb (Js.truthy requestOrigin)
         || negb (opt_eqb requestOrigin (origin session))
      then fun w =>
        Ok (Respond (reject 403 "Invalid request"))
           (logSecurityEvent "ABUSE"
              [("IP", Some clientIP); ("PATH", Some (originalUrl req));
               ("REASON", Some "Origin Mismatch");
               ("SESSION_ORIGIN", Some (Js.or_default (origin session) "missing"));
               ("REQUEST_ORIGIN", Some (Js.or_default requestOrigin "missing"))] w)
      else ret (Next {| sessionToken := token; sessionData := session |})
    else
      if Js.truthy (origin session) && Js.truthy requestOrigin
         && negb (opt_eqb requestOrigin (origin session))
      then fun w =>
        Ok (Respond (reject 403 "Invalid request"))
           (logSecurityEvent "ABUSE"
              [("IP", Some clientIP); ("PATH", Some (originalUrl req));
               ("REASON", Some "Origin Mismatch");
               ("SESSION_ORIGIN", origin session);
               ("REQUEST_ORIGIN", requestOrigin)] w)
      else ret (Next {| sessionToken := token; sessionData := session |})
  end.

(** Runs a computation whose exceptions are all caught. *)
Definition run {A} (m : M A) (onThrow : Exn -> A) (w : World) : A * World :=
  match m w with
  | Ok a w' => (a, w')
  | Throw e w' => (onThrow e, w')
  end.

Definition verifySessionToken (env : Env) (now : Z) (req : Request)
  : Middleware SessionCtx :=
  run (verifySessionToken_body env now req)
      (fun _ => Respond (reject 503 "Service temporarily unavailable")).

(** ** middleware/originValidation.js *)

Definition getAllowedOrigins (env : Env) : list string :=
  match FRONTEND_DOMAIN env with
  | None => []
  | Some frontendDomain =>
      if String.eqb frontendDomain "" then []
      else filter (fun domain => (0 < Z.of_nat (String.length domain))%Z)
             (map Js.trim (Js.split "," frontendDomain))
  end.

(** Computed once, when the module is loaded. *)
Definition allowedOrigins (env : Env) : list string := getAllowedOrigins env.

Definition requireTrustedOrigin (env : Env) (req : Request) : Middleware unit :=
  fun w =>
  let isProduction := isProduction env in
  let isStateChanging := negb (Js.includes ["GET"; "HEAD"; "OPTIONS"] (method req)) in
  if negb isProduction && negb isStateChanging then (Next tt, w) else
  if (Z.of_nat (length (allowedOrigins env)) =? 0)%Z
  then (Respond (reject 500 "Service temporarily unavailable"), w) else
  let origin := header_origin req in
  if negb (Js.truthy origin)
  then (Respond (reject 400 "Invalid request"),
        logSecurityEvent "ABUSE"
          [("IP", Some (clientIP req)); ("PATH", Some (originalUrl req));
           ("REASON", Some "Missing Origin")] w)
  else
  if negb (Js.includes (allowedOrigins env) (default "" origin))
  then (Respond (reject 403 "Invalid request"),
        logSecurityEvent "ABUSE"
          [("IP", Some (clientIP req)); ("ORIGIN", origin);
           ("PATH", Some (originalUrl req)); ("REASON", Some "Bad Origin")] w)
  else (Next tt, w).

(** ** The wallet service (conceal-api), an external collaborator *)

Record TransferOpts := {
  transfers : list (string * option Z);
  addresses : list (option string);
  changeAddress : option string;
  anonymity : Z;
  fee : Z
}.

(** A call either throws an error with some [message] ([inl]) or
    resolves ([inr]): [getBalance] to the [availableBalance], and
    [sendTransaction] to the [transactionHash]. *)
Record Wallet := {
  getBalance : option string -> option string + Z;
  sendTransaction : TransferOpts -> option string + string
}.

Definition ccx_getBalance (ccx : Wallet) (address : option string) : M Z :=
  fun w => match getBalance ccx address with
           | inr availableBalance => Ok availableBalance w
           | inl message => Throw (WalletError message) w
           end.

(** The call itself is an effect, whether or not the wallet then fails. *)
Definition ccx_sendTransaction (ccx : Wallet) (opts : TransferOpts) : M string :=
  fun w =>
    let w' := fold_left (fun w t => emit (ESend (fst t) (snd t)) w) (transfers opts) w in
    match sendTransaction ccx opts with
    | inr transactionHash => Ok transactionHash w'
    | inl message => Throw (WalletError message) w'
    end.

(** ** middleware/antiAbuse.js *)

(** Modelled from the spec: a CooldownRecord is "keyed by ip or by
    address"; the key names of middleware/antiAbuse.js are not among the
    sources, and these stand for them. *)
Definition cooldownIpKey (ip : string) : string := "cooldown:ip:" +:+ ip.
Definition cooldownAddrKey (address : string) : string := "cooldown:addr:" +:+ address.

(** A value that may be undefined, inside a template literal. *)
Definition interpolate (v : option string) : string := default "undefined" v.

(** Modelled from the spec: [checkCooldown] of middleware/antiAbuse.js is
    not among the sources. It "looks up a CooldownRecord for both the
    request IP and the claimed address; either being present and unexpired
    rejects with CooldownActive", "with a generic not available at this time
    message; logged for external banning"; a store that cannot be read is a
    transient-unavailability response. *)
Definition checkCooldown (now : Z) (req : Request) : Middleware unit :=
  run (ipRecord <- redis_get now (cooldownIpKey (clientIP req)) ;;
       addrRecord <- redis_get now (cooldownAddrKey (interpolate (body_address req))) ;;
       if bool_decide (is_Some ipRecord) || bool_decide (is_Some addrRecord)
       then fun w =>
         Ok (Respond (reject 429 "Request not available at this time"))
            (logSecurityEvent "ABUSE"
               [("IP", Some (clientIP req)); ("ADDR", body_address req);
                ("REASON", Some "Cooldown")] w)
       else ret (Next tt))
      (fun _ => Respond (reject 503 "Service temporarily unavailable")).

(** Modelled from the spec: the cooldown commit "writes both the IP-keyed
    and address-keyed CooldownRecord with a fixed expiry"; the value "is a
    claim timestamp". *)
Definition commitCooldown (env : Env) (now : Z) (req : Request) : M unit :=
  let ttlSeconds := envInt (COOLDOWN_SECONDS env) "86400" in
  let stamp := VStr (Js.toString now) in
  Promise_all2
    (redis_setEx now (cooldownIpKey (clientIP req)) ttlSeconds stamp)
    (redis_setEx now (cooldownAddrKey (interpolate (body_address req))) ttlSeconds stamp).

(** [{ success: true, ... }] *)
Definition isSuccess (o : Outcome) : bool :=
  match o with
  | Answered r =>
      match body r with
      | JClaimed _ _ | JSessionStarted _ => true
      | JError _ | JErrorOf _ _ => false
      end
  | Uncaught _ => false
  end.

(** Modelled from the spec: [setCooldownOnSuccess] of
    middleware/antiAbuse.js is not among the sources. The route installs it
    in front of the claim handler, and the commit is "performed only after a
    successful disbursement": the middleware calls [next()] and commits
    when the handler answers with a success. A commit that fails leaves the
    answer as it is. *)
Definition setCooldownOnSuccess (env : Env) (now : Z) (req : Request)
  (next : World -> Outcome * World) : World -> Outcome * World :=
  fun w =>
    let '(r, w') := next w in
    if isSuccess r
    then (r, snd (run (commitCooldown env now req) (fun _ => tt) w'))
    else (r, w').

(** ** routes/faucet.js *)

(** The largest time value of a [Date], in milliseconds. *)
Definition maxTime : Z := 8640000000000000.

(** [res.cookie(name, value, { maxAge })] of Express: the cookie expires
    at [new Date(Date.now() + maxAge)], and the cookie serializer throws a
    TypeError for a [maxAge] that is no number and for an expiry that is no
    valid date, which a time value beyond [maxTime] is not. *)
Definition res_cookie (now : Z) (name value : string) (maxAge : option Z) : M CookieOp :=
  match maxAge with
  | Some ms =>
      if Z.abs (now + ms) <=? maxTime then ret (SetCookie name value (Some ms))
      else throw TypeError
  | None => throw TypeError
  end.

(** The handler of [GET /start-game]. The three tests of the address come
    before the [try]: [address.startsWith] is a function of a string alone,
    and calling it on an array or on an object throws a TypeError that
    nothing catches. *)
Definition startGameHandler (env : Env) (now : Z) (token csrfToken : string)
  (req : Request) : World -> Outcome * World :=
  let address := query_address req in
  if negb (queryTruthy address)
  then fun w => (Answered (reject 400 "Invalid CCX address"), w) else
  match address with
  | Some (QString address) =>
      if negb (Js.startsWith address "ccx7")
      then fun w => (Answered (reject 400 "Invalid CCX address"), w) else
      if negb (Z.of_nat (String.length address) =? 98)
      then fun w => (Answered (reject 400 "Invalid CCX address"), w) else
      run (let clientIP := clientIP req in
           let origin := Js.or_else (header_origin req) None in
           session <- createSession env now token csrfToken clientIP address origin ;;
           cookie <- res_cookie now "faucet-token" (fst session)
                       (envInt (SESSION_TTL_MS env) "600000") ;;
           ret (Answered {| status := 200;
                            body := JSessionStarted (snd session);
                            cookies := [cookie] |}))
          (fun _ => Answered (reject 500 "Failed to create session"))
  | _ => fun w => (Uncaught TypeError, w)
  end.

Definition startGameRoute (env : Env) (now : Z) (token csrfToken : string)
  (req : Request) : World -> Outcome * World :=
  fun w =>
    match requireTrustedOrigin env req w with
    | (Respond r, w1) => (Answered r, w1)
    | (Next _, w1) => startGameHandler env now token csrfToken req w1
    end.

(** The [opts] of the claim handler: one transfer of the configured amount
    from the faucet address to the claimed address. *)
Definition claimOpts (env : Env) (address : string) : TransferOpts :=
  let amount := envInt (FAUCET_AMOUNT env) "1123456" in
  let sourceAddress := FAUCET_ADDRESS env in
  {| transfers := [(address, amount)];
     addresses := [sourceAddress];
     changeAddress := sourceAddress;
     anonymity := 5;
     fee := 10 |}.

(** The answers of the claim handler after the wallet was asked to pay. *)
Definition claimedResponse (env : Env) (txHash : string) : Response :=
  {| status := 200;
     body := JClaimed txHash (Js.perMillion (envInt (FAUCET_AMOUNT env) "1123456"));
     cookies := [ClearCookie "faucet-token"] |}.

Definition paymentFailed (e : Exn) : Response :=
  {| status := 500; body := JErrorOf e "Payment failed"; cookies := [] |}.

(** [!score || score < minScore]: [None] when the comparison throws. *)
Definition scoreRejected (score : option JsonValue) (minScore : option Z) : option bool :=
  if negb (ToBoolean score) then Some true
  else lessThan (default JsonNull score) minScore.

(** The handler of [POST /claim]. The two validations come before the
    [try]: a TypeError of the comparison with [minScore] is caught by
    nothing. *)
Definition claimHandler (env : Env) (ccx : Wallet) (now : Z) (req : Request)
  (ctx : SessionCtx) : World -> Outcome * World :=
  let sessionAddr := address (sessionData ctx) in
  let address := body_address req in
  let score := body_score req in
  let token := sessionToken ctx in
  if negb (Js.truthy address) || negb (Js.strict_eq address sessionAddr)
  then fun w =>
    (Answered (reject 400 "Invalid request"),
     logSecurityEvent "ABUSE"
       [("IP", Some (clientIP req)); ("ADDR", address); ("REASON", Some "Validation")] w)
  else
  let minScore := envInt (MIN_SCORE env) "1000" in
  match scoreRejected score minScore with
  | None => fun w => (Uncaught TypeError, w)
  | Some true => fun w =>
    (Answered (reject 400 "Invalid request"),
     logSecurityEvent "ABUSE"
       [("IP", Some (clientIP req)); ("ADDR", address); ("REASON", Some "Validation")] w)
  | Some false =>
  let amount := envInt (FAUCET_AMOUNT env) "1123456" in
  let sourceAddress := FAUCET_ADDRESS env in
  let minBalance := envInt (FAUCET_MIN_BALANCE env) "0" in
  run (balance <- ccx_getBalance ccx sourceAddress ;;
       if Js.lt (Some balance) minBalance
       then ret (Answered (reject 503 "Not enough funds in Faucet")) else
       let opts := claimOpts env (default "" address) in
       result <- ccx_sendTransaction ccx opts ;;
       deleteSession now token ;;
       ret (Answered (claimedResponse env result)))
      (fun e => Answered (paymentFailed e))
  end.

Section ClaimRoute.

(** [claimLimiter] of middleware/rateLimit.js is not among the sources;
    the route is given for any middleware in its place. *)
Variable claimLimiter : Request -> Middleware unit.

(** [router.post("/claim", requireTrustedOrigin, claimLimiter,
    verifySessionToken, checkCooldown, setCooldownOnSuccess, handler)] *)
Definition claimRoute (env : Env) (ccx : Wallet) (now : Z) (req : Request)
  : World -> Outcome * World :=
  fun w =>
    match requireTrustedOrigin env req w with
    | (Respond r, w1) => (Answered r, w1)
    | (Next _, w1) =>
    match claimLimiter req w1 with
    | (Respond r, w2) => (Answered r, w2)
    | (Next _, w2) =>
    match verifySessionToken env now req w2 with
    | (Respond r, w3) => (Answered r, w3)
    | (Next ctx, w3) =>
    match checkCooldown now req w3 with
    | (Respond r, w4) => (Answered r, w4)
    | (Next _, w4) =>
        setCooldownOnSuccess env now req (claimHandler env ccx now req ctx) w4
    end end end end.

End ClaimRoute.

(** ** Observations on a world *)

(** What [GET key] would return at time [now]. *)
Definition peek (now : Z) (w : World) (key : string) : option RedisVal :=
  live now (kv w !! key).

(** The session a token resolves to, if any. *)
Definition getSession (now : Z) (w : World) (token : string) : option Session :=
  peek now w (sessionKey token) ≫= JSON_parse.

(** The world after [deleteSessionsForAddress]: the token the address index
    holds, if any, loses its session record, and the index entry goes. *)
Definition superseded (now : Z) (address : string) (w : World) : World :=
  match peek now w (addressKey address) with
  | Some old =>
      if val_truthy old
      then deleted (addressKey address) (deleted (sessionKey (text old)) w)
      else w
  | None => w
  end.

(** ** A concrete run, from the end-to-end scenario of the design *)

Module Scenario.

Definition addr : string :=
  "ccx7Zbm7PjafXKvb3naqpGXzhLtAXesKiR5UXUbfwD9MCf77XdvXf1TX64KdDjcTDb3E7dS6MGE2GKT3w4DuCb8H9dwvWWGuof".

Definition faucet : string :=
  "ccx7V4LeUXy2eZ9waDXgsLS7Uc11e2CpNSCWVdxEqSRFAm6P6NQhSb7XMG1D6VAZKmJeaJP37WYQg84zbNrPduTX2whZ5pacfj".

Definition env (mode : string) (frontend : option string) : Env :=
  {| NODE_ENV := Some mode; FRONTEND_DOMAIN := frontend;
     SESSION_TTL_MS := None; MIN_SESSION_TIME_MS := None; MIN_SCORE := None;
     FAUCET_AMOUNT := None; FAUCET_ADDRESS := Some faucet;
     FAUCET_MIN_BALANCE := None; COOLDOWN_SECONDS := None |}.

Definition production : Env := env "production" (Some "https://f.example").
Definition development : Env := env "development" None.

Definition empty : World := {| kv := ∅; connected := true; trace := [] |}.

Definition startReq (a : option string) : Request :=
  {| method := "GET"; originalUrl := "/api/start-game?address=";
     cookie_token := None; header_origin := Some "https://f.example";
     header_csrf := None; query_address := QString <$> a;
     body_address := None; body_score := None; clientIP := "1.2.3.4" |}.

Definition claimReq (token : string) (from : string) : Request :=
  {| method := "POST"; originalUrl := "/api/claim";
     cookie_token := Some token; header_origin := Some "https://f.example";
     header_csrf := Some "c5f"; query_address := None;
     body_address := Some addr; body_score := Some (JsonInt 1500); clientIP := from |}.

(** The same claim with a CSRF value that is not the session's, and from
    a page of another origin. *)
Definition forgedReq : Request :=
  {| method := "POST"; originalUrl := "/api/claim";
     cookie_token := Some "a1"; header_origin := Some "https://f.example";
     header_csrf := Some "0000"; query_address := None;
     body_address := Some addr; body_score := Some (JsonInt 1500); clientIP := "1.2.3.4" |}.

Definition crossSiteReq : Request :=
  {| method := "POST"; originalUrl := "/api/claim";
     cookie_token := Some "a1"; header_origin := Some "https://evil.example";
     header_csrf := Some "c5f"; query_address := None;
     body_address := Some addr; body_score := Some (JsonInt 1500); clientIP := "1.2.3.4" |}.

(** What the verifier attaches to the claim of the session [a1]. *)
Definition verified : SessionCtx :=
  {| sessionToken := "a1";
     sessionData := {| ip := "1.2.3.4"; address := addr;
                       origin := Some "https://f.example";
                       startedAt := 1000; csrfToken := "c5f" |} |}.

(** A wallet with funds that sends, and one whose transfer fails. *)
Definition wallet : Wallet :=
  {| getBalance := fun _ => inr 5000000;
     sendTransaction := fun _ => inr "9f2c" |}.

Definition brokenWallet : Wallet :=
  {| getBalance := fun _ => inr 5000000;
     sendTransaction := fun _ => inl (Some "Wallet RPC timeout") |}.

(** A rate limiter that lets every request through. *)
Definition noLimit : Request -> Middleware unit := fun _ w => (Next tt, w).

(** The world once the session [a1] was started at time 1000. *)
Definition started : World :=
  snd (startGameRoute production 1000 "a1" "c5f" (startReq (Some addr)) empty).

(** The world and the answer once it was claimed at time 7000. *)
Definition claimed : Outcome * World :=
  claimRoute noLimit production wallet 7000 (claimReq "a1" "1.2.3.4") started.

End Scenario.

(** ** The guard chain of the Session Verifier, as the design states it

    The six checks in their stated order. What each check tests is taken
    from the source; the order and the short circuit are the design's. *)

Inductive Check :=
| Presence
| Existence
| CsrfMatch
| DwellTime
| IpMatch
| OriginMatch.

Definition guardOrder : list Check :=
  [Presence; Existence; CsrfMatch; DwellTime; IpMatch; OriginMatch].

Section Guards.

Variables (env : Env) (now : Z) (req : Request) (w : World).

Definition presentedToken : string := default "" (cookie_token req).

Definition storedRecord : option RedisVal := peek now w (sessionKey presentedToken).

Definition csrf_ok (s : Session) : bool :=
  negb (isProduction env)
  || (Js.truthy (header_csrf req) && Js.truthy (Some (csrfToken s))
      && Js.strict_eq (header_csrf req) (csrfToken s)).

Definition dwell_ok (s : Session) : bool :=
  negb (Js.lt (Some (now - startedAt s)) (envInt (MIN_SESSION_TIME_MS env) "5000")).

Definition ip_ok (s : Session) : bool := String.eqb (ip s) (clientIP req).

Definition origin_ok (s : Session) : bool :=
  if isProduction env
  then Js.truthy (origin s) && Js.truthy (header_origin req)
       && opt_eqb (header_origin req) (origin s)
  else negb (Js.truthy (origin s) && Js.truthy (header_origin req)
             && negb (opt_eqb (header_origin req) (origin s))).

(** A check on the session has nothing to refuse when no session was
    read; the chain has stopped at [Existence] by then, or stops after
    the checks on a record that is no session. *)
Definition passes (c : Check) : bool :=
  match c with
  | Presence => Js.truthy (cookie_token req)
  | Existence => from_option val_truthy false storedRecord
  | CsrfMatch => from_option csrf_ok true (storedRecord ≫= JSON_parse)
  | DwellTime => from_option dwell_ok true (storedRecord ≫= JSON_parse)
  | IpMatch => from_option ip_ok true (storedRecord ≫= JSON_parse)
  | OriginMatch => from_option origin_ok true (storedRecord ≫= JSON_parse)
  end.

Definition firstFailure : option Check :=
  List.find (fun c => negb (passes c)) guardOrder.

Definition originLog (s : option Session) : list (string * option string) :=
  let o := s ≫= origin in
  [("IP", Some (clientIP req)); ("PATH", Some (originalUrl req));
   ("REASON", Some "Origin Mismatch");
   ("SESSION_ORIGIN", if isProduction env then Some (Js.or_default o "missing") else o);
   ("REQUEST_ORIGIN", if isProduction env
                      then Some (Js.or_default (header_origin req) "missing")
                      else header_origin req)].

(** The answer to a request that fails check [c], and the world after. *)
Definition rejection (c : Check) : Response * World :=
  match c with
  | Presence => (reject 401 "Missing session token", w)
  | Existence => (reject 403 "Invalid or expired session token", w)
  | CsrfMatch =>
      (reject 403 "Invalid request",
       logSecurityEvent "ABUSE"
         [("IP", Some (clientIP req)); ("PATH", Some (originalUrl req));
          ("REASON", Some "CSRF")] w)
  | DwellTime => (reject 400 "Session completed too quickly", w)
  | IpMatch => (reject 403 "IP mismatch", w)
  | OriginMatch =>
      (reject 403 "Invalid request",
       logSecurityEvent "ABUSE" (originLog (storedRecord ≫= JSON_parse)) w)
  end.

Definition guardChain : Step SessionCtx * World :=
  match firstFailure with
  | Some c => (Respond (fst (rejection c)), snd (rejection c))
  | None =>
      match storedRecord ≫= JSON_parse with
      | Some s => (Next {| sessionToken := presentedToken; sessionData := s |}, w)
      | None => (Respond (reject 500 "Invalid session data"), w)
      end
  end.

End Guards.

(** The answer the design states for a request that fails the CSRF, IP or
    origin check: one generic message, with the detail in the abuse log. *)
Definition genericAndLogged (env : Env) (now : Z) (req : Request) (w : World) : Prop :=
  exists fields,
    verifySessionToken env now req w =
    (Respond (reject 403 "Invalid request"), logSecurityEvent "ABUSE" fields w).

(** ** The order of effects in a trace *)

Definition isDisbursement (e : Effect) : bool :=
  match e with ESend _ _ => true | _ => false end.

Definition isSessionDeletion (e : Effect) : bool :=
  match e with EDel key => String.prefix "session:" key | _ => false end.

Definition isCooldownCommit (e : Effect) : bool :=
  match e with ESetEx key _ _ => String.prefix "cooldown:" key | _ => false end.

(** Every effect in [p] comes before every effect in [q]. *)
Fixpoint allBefore (p q : Effect -> bool) (tr : list Effect) : bool :=
  match tr with
  | [] => true
  | e :: rest => (negb (q e) || forallb (fun x => negb (p x)) rest) && allBefore p q rest
  end.

(** The world after the cooldown commit, whether or not it went through. *)
Definition committed (env : Env) (now : Z) (req : Request) (w : World) : World :=
  snd (run (commitCooldown env now req) (fun _ => tt) w).

(** The order of effects the design states for a paid claim, and the order
    the route has. *)
Definition statedOrder (tr : list Effect) : bool :=
  allBefore isDisbursement isCooldownCommit tr
  && allBefore isCooldownCommit isSessionDeletion tr.

Definition routeOrder (tr : list Effect) : bool :=
  allBefore isDisbursement isSessionDeletion tr
  && allBefore isSessionDeletion isCooldownCommit tr.

(** The two validations of the claim handler. *)
Definition addressMatches (req : Request) (ctx : SessionCtx) : bool :=
  Js.truthy (body_address req)
  && Js.strict_eq (body_address req) (address (sessionData ctx)).

Definition scoreSuffices (env : Env) (req : Request) : bool :=
  match scoreRejected (body_score req) (envInt (MIN_SCORE env) "1000") with
  | Some false => true
  | _ => false
  end.

(** The world once the wallet was asked to pay [addr]. *)
Definition asked (env : Env) (addr : string) (w : World) : World :=
  emit (ESend addr (envInt (FAUCET_AMOUNT env) "1123456")) w.

(** A rate limiter that answers does so with a rejection. *)
Definition onlyRejects (claimLimiter : Request -> Middleware unit) : Prop :=
  forall req w r w', claimLimiter req w = (Respond r, w') -> isSuccess r = false.

(** ** One live token per address *)

(** The text of [crypto.randomBytes(32).toString("hex")]: 64 characters
    among [0-9a-f]. *)
Definition isHexDigit (c : ascii) : bool :=
  let n := nat_of_ascii c in
  ((48 <=? n) && (n <=? 57) || (97 <=? n) && (n <=? 102))%nat.

Fixpoint allHex (s : string) : bool :=
  match s with
  | String c r => isHexDigit c && allHex r
  | EmptyString => true
  end.

Definition isHexToken (t : string) : bool :=
  (String.length t =? 64)%nat && allHex t.

(** What the index needs of a token: it is not empty, and its session key
    is not the index key of any address. *)
Definition tokenLike (t : string) : Prop :=
  t <> "" /\ String.prefix "addr:" t = false.

(** Every live session record is the one its address is indexed to, with
    the same expiry; and the index holds tokens. *)
Definition indexConsistent (now : Z) (w : World) : Prop :=
  (forall t s e,
     kv w !! sessionKey t = Some {| val := VSession s; expiresAt := e |} -> now < e ->
     tokenLike t /\
     kv w !! addressKey (address s) = Some {| val := VStr t; expiresAt := e |}) /\
  (forall a o e,
     kv w !! addressKey a = Some {| val := VStr o; expiresAt := e |} -> now < e ->
     tokenLike o).

(** The worlds a single worker reaches: it starts sessions with fresh
    random tokens, consumes verified sessions, commits cooldowns and writes
    to the log, while time goes by. *)
Inductive reachable : Z -> World -> Prop :=
| reach_init now tr :
    reachable now {| kv := ∅; connected := true; trace := tr |}
| reach_later now now' w :
    reachable now w -> now <= now' -> reachable now' w
| reach_create now w env token csrfToken ip address origin w' :
    reachable now w -> tokenLike token ->
    createSession env now token csrfToken ip address origin w = Ok (token, csrfToken) w' ->
    reachable now w'
| reach_create_failed now w env token csrfToken ip address origin e w' :
    reachable now w ->
    createSession env now token csrfToken ip address origin w = Throw e w' ->
    reachable now w'
| reach_consume now w token s w' :
    reachable now w ->
    peek now w (sessionKey token) = Some (VSession s) ->
    deleteSession now token w = Ok tt w' ->
    reachable now w'
| reach_commit now w env req :
    reachable now w -> reachable now (committed env now req w)
| reach_emit now w e :
    reachable now w -> reachable now (emit e w).

(** The address check of [GET /start-game], as the design states it. *)
Definition invalidAddress (a : option string) : Prop :=
  match a with
  | None => True
  | Some s => String.prefix "ccx7" s = false \/ String.length s <> 98%nat
  end.

(** ** assert.js: the configuration check at startup *)

(** The variables [assertEnv] reads besides those of [Env]. *)
Record StartupEnv := {
  base : Env;
  DAEMON_HOST : option string;
  WALLET_HOST : option string;
  DAEMON_RPC_PORT : option string;
  WALLET_RPC_PORT : option string
}.

(** [l.join(sep)] *)
Fixpoint join (sep : string) (l : list string) : string :=
  match l with
  | [] => ""
  | [x] => x
  | x :: rest => x +:+ sep +:+ join sep rest
  end.

(** [isNaN(n) || n <= 0] *)
Definition notPositive (n : option Z) : bool :=
  match n with
  | Some n => n <=? 0
  | None => true
  end.

(** [isNaN(port) || port <= 0 || port > 65535] *)
Definition badPort (port : option Z) : bool :=
  match port with
  | Some port => (port <=? 0) || (65535 <? port)
  | None => true
  end.

Definition quoted (s : string) : string := Json.chr 34 +:+ s +:+ Json.chr 34.

(** The errors for [FAUCET_ADDRESS]. *)
Definition faucetAddressErrors (faucetAddress : option string) : list string :=
  if negb (Js.truthy faucetAddress) then ["FAUCET_ADDRESS is required"] else
  let faucetAddress := default "" faucetAddress in
  (if negb (Js.startsWith faucetAddress "ccx7")
   then ["FAUCET_ADDRESS must start with " +:+ quoted "ccx7" +:+ " (got: "
         +:+ String.substring 0 10 faucetAddress +:+ "...)"]
   else []) ++
  (if negb (Z.of_nat (String.length faucetAddress) =? 98)
   then ["FAUCET_ADDRESS must be 98 characters long (got: "
         +:+ Js.toString (Z.of_nat (String.length faucetAddress)) +:+ ")"]
   else []).

(** The errors for [FAUCET_AMOUNT]. *)
Definition faucetAmountErrors (faucetAmount : option string) : list string :=
  if negb (Js.truthy faucetAmount) then ["FAUCET_AMOUNT is required"] else
  let amount := Js.parseInt (default "" faucetAmount) in
  if notPositive amount
  then ["FAUCET_AMOUNT must be a positive integer (got: " +:+ default "" faucetAmount +:+ ")"]
  else [].

(** The error for a host that must be set. *)
Definition requiredErrors (name : string) (v : option string) : list string :=
  if negb (Js.truthy v) then [name +:+ " is required"] else [].

(** The errors for [DAEMON_RPC_PORT] and for [WALLET_RPC_PORT]: the two
    blocks of the source differ by the name alone. *)
Definition portErrors (name : string) (v : option string) : list string :=
  if negb (Js.truthy v) then [name +:+ " is required"] else
  let port := Js.parseInt (default "" v) in
  if badPort port
  then [name +:+ " must be a valid port number (1-65535, got: " +:+ default "" v +:+ ")"]
  else [].

Section Startup.

(** Whether [new URL(domain)] returns; the URL parser is the platform's. *)
Variable validURL : string -> bool.

(** The errors of one entry of [FRONTEND_DOMAIN]. *)
Definition domainErrors (index : nat) (domain : string) : list string :=
  (if negb (Js.startsWith domain "https://")
   then ["FRONTEND_DOMAIN[" +:+ Js.toString (Z.of_nat index) +:+ "] must start with "
         +:+ quoted "https://" +:+ " (got: " +:+ domain +:+ ")"]
   else []) ++
  (if negb (validURL domain)
   then ["FRONTEND_DOMAIN[" +:+ Js.toString (Z.of_nat index)
         +:+ "] must be a valid URL (got: " +:+ domain +:+ ")"]
   else []).

(** The errors for [FRONTEND_DOMAIN]. *)
Definition frontendDomainErrors (frontendDomain : option string) : list string :=
  if negb (Js.truthy frontendDomain) then ["FRONTEND_DOMAIN is required"] else
  let domains := filter (fun d => (0 < Z.of_nat (String.length d))%Z)
                   (map Js.trim (Js.split "," (default "" frontendDomain))) in
  (if (Z.of_nat (length domains) =? 0)%Z
   then ["FRONTEND_DOMAIN must contain at least one valid domain"]
   else []) ++
  mjoin (imap domainErrors domains).

(** The list [errors] at the end of [assertEnv], in production. *)
Definition configErrors (se : StartupEnv) : list string :=
  faucetAddressErrors (FAUCET_ADDRESS (base se)) ++
  faucetAmountErrors (FAUCET_AMOUNT (base se)) ++
  requiredErrors "DAEMON_HOST" (DAEMON_HOST se) ++
  requiredErrors "WALLET_HOST" (WALLET_HOST se) ++
  portErrors "DAEMON_RPC_PORT" (DAEMON_RPC_PORT se) ++
  portErrors "WALLET_RPC_PORT" (WALLET_RPC_PORT se) ++
  frontendDomainErrors (FRONTEND_DOMAIN (base se)).

(** The message of the error [assertEnv] throws. *)
Definition errorMsg (errors : list string) : string :=
  "Configuration validation failed:" +:+ Json.chr 10 +:+
  join (Json.chr 10)
    (imap (fun i e => "  " +:+ Js.toString (Z.of_nat i + 1) +:+ ". " +:+ e) errors).

(** [assertEnv()]: [None] when it returns, [Some message] when it throws
    an error with that message. What it prints is left out. *)
Definition assertEnv (se : StartupEnv) : option string :=
  if negb (isProduction (base se)) then None else
  let errors := configErrors se in
  if (0 <? Z.of_nat (length errors))%Z then Some (errorMsg errors) else None.

End Startup.

(** ** server.js: the origins CORS allows *)

Definition getCorsOrigins (env : Env) : list string :=
  match FRONTEND_DOMAIN env with
  | None => ["http://localhost:3000"]
  | Some frontendDomain =>
      if String.eqb frontendDomain "" then ["http://localhost:3000"]
      else filter (fun domain => (0 < Z.of_nat (String.length domain))%Z)
             (map Js.trim (Js.split "," frontendDomain))
  end.

(** What [corsOptions.origin] passes to its callback. *)
Inductive CorsDecision :=
| CorsAllowed
| CorsError (message : string).

Definition corsOrigin (env : Env) (origin : option string) : CorsDecision :=
  let allowedOrigins := getCorsOrigins env in
  if negb (Js.truthy origin) then CorsAllowed else
  if Js.includes allowedOrigins (default "" origin) then CorsAllowed
  else CorsError "Not allowed by CORS".

(** ** routes/faucet.js: the health route *)

Inductive HealthBody :=
| HealthOk (available : bool) (balance : Z)
| HealthError (error : string).

Record HealthResponse := {
  healthStatus : Z;
  healthBody : HealthBody
}.

(** [a >= b] on numbers: false as soon as one side is [NaN]. *)
Definition numGe (a b : option Z) : bool :=
  match a, b with
  | Some x, Some y => y <=? x
  | _, _ => false
  end.

(** The handler of [GET /health]. The two errors its [try] block can throw
    are the one it makes itself and the wallet's; [e.message] is all the
    [catch] block uses of them. *)
Definition healthHandler (env : Env) (ccx : Wallet) : HealthResponse :=
  let address := FAUCET_ADDRESS env in
  if negb (Js.truthy address)
  then {| healthStatus := 500;
          healthBody := HealthError
                          (Js.or_default (Some "FAUCET_ADDRESS not configured")
                             "Wallet unavailable") |}
  else
  match getBalance ccx address with
  | inl message =>
      {| healthStatus := 500;
         healthBody := HealthError (Js.or_default message "Wallet unavailable") |}
  | inr availableBalance =>
      let needed := envInt (FAUCET_AMOUNT env) "100000" in
      let minBalance := envInt (FAUCET_MIN_BALANCE env) "0" in
      if Js.lt (Some availableBalance) minBalance
      then {| healthStatus := 503;
              healthBody := HealthError "Not enough funds in Faucet" |}
      else {| healthStatus := 200;
              healthBody := HealthOk (numGe (Some availableBalance) needed)
                              availableBalance |}
  end.

(** ** Further observations *)

(** Whether the origin guard enforces the allow-list on a request. *)
Definition originEnforced (env : Env) (req : Request) : bool :=
  isProduction env || negb (Js.includes ["GET"; "HEAD"; "OPTIONS"] (method req)).

(** Whether a character occurs in a string. *)
Fixpoint occurs (c : ascii) (s : string) : bool :=
  match s with
  | String d r => Ascii.eqb d c || occurs c r
  | EmptyString => false
  end.

(** The number of transfers the wallet was asked for. *)
Definition transfersIn (tr : list Effect) : nat :=
  length (List.filter isDisbursement tr).

(** A rate limiter that asks the wallet for nothing. *)
Definition neverPays (claimLimiter : Request -> Middleware unit) : Prop :=
  forall req w st w', claimLimiter req w = (st, w') ->
    transfersIn (trace w') = transfersIn (trace w).

(** What a production configuration must satisfy for [assertEnv] to
    return. *)
Definition validConfig (validURL : string -> bool) (se : StartupEnv) : Prop :=
  (exists a, FAUCET_ADDRESS (base se) = Some a /\
             String.prefix "ccx7" a = true /\ String.length a = 98%nat) /\
  (exists s amount, FAUCET_AMOUNT (base se) = Some s /\ s <> "" /\
                    Js.parseInt s = Some amount /\ 0 < amount) /\
  Js.truthy (DAEMON_HOST se) = true /\
  Js.truthy (WALLET_HOST se) = true /\
  (exists s port, DAEMON_RPC_PORT se = Some s /\ s <> "" /\
                  Js.parseInt s = Some port /\ 1 <= port <= 65535) /\
  (exists s port, WALLET_RPC_PORT se = Some s /\ s <> "" /\
                  Js.parseInt s = Some port /\ 1 <= port <= 65535) /\
  allowedOrigins (base se) <> [] /\
  Forall (fun domain => String.prefix "https://" domain = true /\ validURL domain = true)
    (allowedOrigins (base se)).

(** ** A production deployment, for the examples *)

Module Deployment.

Definition production : Env :=
  {| NODE_ENV := Some "production";
     FRONTEND_DOMAIN := Some "https://f.example, https://g.example";
     SESSION_TTL_MS := None; MIN_SESSION_TIME_MS := None; MIN_SCORE := None;
     FAUCET_AMOUNT := Some "1123456"; FAUCET_ADDRESS := Some Scenario.faucet;
     FAUCET_MIN_BALANCE := Some "10000000"; COOLDOWN_SECONDS := None |}.

Definition startup : StartupEnv :=
  {| base := production;
     DAEMON_HOST := Some "127.0.0.1"; WALLET_HOST := Some "127.0.0.1";
     DAEMON_RPC_PORT := Some "16000"; WALLET_RPC_PORT := Some "3333" |}.

(** A URL parser that accepts every text. *)
Definition anyURL : string -> bool := fun _ => true.

(** The scenario's configuration with a session TTL of half a second. *)
Definition shortTtl : Env :=
  {| NODE_ENV := Some "production"; FRONTEND_DOMAIN := Some "https://f.example";
     SESSION_TTL_MS := Some "500"; MIN_SESSION_TIME_MS := None; MIN_SCORE := None;
     FAUCET_AMOUNT := None; FAUCET_ADDRESS := Some Scenario.faucet;
     FAUCET_MIN_BALANCE := None; COOLDOWN_SECONDS := None |}.

(** [GET /start-game?address=ccx7&address=x] outside production: the
    query parser makes an array of a parameter that comes twice. *)
Definition repeatedAddress : Request :=
  {| method := "GET"; originalUrl := "/api/start-game?address=ccx7&address=x";
     cookie_token := None; header_origin := None;
     header_csrf := None;
     query_address := Some (QArray [QString "ccx7"; QString "x"]);
     body_address := None; body_score := None; clientIP := "1.2.3.4" |}.

(** The claim of the scenario with another score in its body. *)
Definition claimWith (score : option JsonValue) : Request :=
  {| method := "POST"; originalUrl := "/api/claim";
     cookie_token := Some "a1"; header_origin := Some "https://f.example";
     header_csrf := Some "c5f"; query_address := None;
     body_address := Some Scenario.addr; body_score := score; clientIP := "1.2.3.4" |}.

(** The world of the started session once the store is out of reach. *)
Definition down : World :=
  {| kv := kv Scenario.started; connected := false; trace := [] |}.

End Deployment.

(** * Properties *)

(** ** The store *)

Lemma sessionKey_inj a b : sessionKey a = sessionKey b -> a = b.
Proof. unfold sessionKey. intros H. by simplify_eq. Qed.

Lemma addressKey_inj a b : addressKey a = addressKey b -> a = b.
Proof. unfold addressKey. intros H. by simplify_eq. Qed.

Lemma cooldownIpKey_not_session ip k : String.prefix "session:" k = true -> cooldownIpKey ip <> k.
Proof. intros H <-. vm_compute in H. discriminate H. Qed.

Lemma cooldownAddrKey_not_session a k : String.prefix "session:" k = true -> cooldownAddrKey a <> k.
Proof. intros H <-. vm_compute in H. discriminate H. Qed.

Lemma sessionKey_prefix t : String.prefix "session:" (sessionKey t) = true.
Proof. vm_compute. by destruct t. Qed.

Lemma addressKey_prefix a : String.prefix "session:" (addressKey a) = true.
Proof. vm_compute. reflexivity. Qed.

Lemma redis_get_connected now key w :
  connected w = true -> redis_get now key w = Ok (peek now w key) w.
Proof. unfold redis_get, peek. by intros ->. Qed.

Lemma redis_del_connected key w :
  connected w = true -> redis_del key w = Ok tt (deleted key w).
Proof. unfold redis_del. by intros ->. Qed.

Lemma redis_setEx_connected now key ttl v w :
  connected w = true -> 0 < ttl ->
  redis_setEx now key (Some ttl) v w = Ok tt (stored now key ttl v w).
Proof.
  unfold redis_setEx. intros -> Httl.
  by rewrite (proj2 (Z.ltb_lt 0 ttl) Httl).
Qed.

Lemma peek_deleted now w key : peek now (deleted key w) key = None.
Proof. unfold peek. cbn. by rewrite lookup_delete_eq. Qed.

Lemma peek_deleted_ne now w key key' :
  key <> key' -> peek now (deleted key w) key' = peek now w key'.
Proof. intros Hne. unfold peek. cbn. by rewrite lookup_delete_ne. Qed.

Lemma peek_stored now now' w key ttl v :
  peek now' (stored now key ttl v w) key = if now' <? now + 1000 * ttl then Some v else None.
Proof. unfold peek. cbn. by rewrite lookup_insert_eq. Qed.

Lemma peek_stored_ne now now' w key key' ttl v :
  key <> key' -> peek now' (stored now key ttl v w) key' = peek now' w key'.
Proof. intros Hne. unfold peek. cbn. by rewrite lookup_insert_ne. Qed.

(** Deleting another key never brings a key back. *)
Lemma peek_deleted_None now w key key' :
  peek now w key' = None -> peek now (deleted key w) key' = None.
Proof.
  intros H. destruct (decide (key = key')) as [->|Hne].
  - apply peek_deleted.
  - by rewrite peek_deleted_ne.
Qed.

(** A key that reads as absent stays absent at any later time. *)
Lemma peek_None_later now now' w key :
  now <= now' -> peek now w key = None -> peek now' w key = None.
Proof.
  unfold peek, live. intros Hle. destruct (kv w !! key) as [e|]; [|done].
  destruct (Z.ltb_spec now (expiresAt e)); [done|].
  intros _. destruct (Z.ltb_spec now' (expiresAt e)); [lia|done].
Qed.

(** What a key holds later, it held before. *)
Lemma peek_Some_earlier now now' w key v :
  now <= now' -> peek now' w key = Some v -> peek now w key = Some v.
Proof.
  unfold peek, live. intros Hle. destruct (kv w !! key) as [e|]; [|done].
  destruct (Z.ltb_spec now' (expiresAt e)); [|done].
  intros [= <-]. destruct (Z.ltb_spec now (expiresAt e)); [done|lia].
Qed.

Lemma session_truthy s : val_truthy (VSession s) = true.
Proof. reflexivity. Qed.

(** ** [deleteSession] *)

Lemma deleteSession_absent now token w :
  connected w = true ->
  peek now w (sessionKey token) = None ->
  deleteSession now token w = Ok tt w.
Proof.
  intros Hc Hp. unfold deleteSession, bind.
  by rewrite (redis_get_connected _ _ _ Hc), Hp.
Qed.

Lemma deleteSession_falsy now token w raw :
  connected w = true ->
  peek now w (sessionKey token) = Some raw -> val_truthy raw = false ->
  deleteSession now token w = Ok tt w.
Proof.
  intros Hc Hp Hf. unfold deleteSession, bind.
  by rewrite (redis_get_connected _ _ _ Hc), Hp, Hf.
Qed.

Lemma deleteSession_session now token w s :
  connected w = true ->
  peek now w (sessionKey token) = Some (VSession s) ->
  deleteSession now token w =
  Ok tt (deleted (addressKey (address s)) (deleted (sessionKey token) w)).
Proof.
  intros Hc Hp. unfold deleteSession, bind.
  rewrite (redis_get_connected _ _ _ Hc), Hp, session_truthy.
  unfold try_catch, Promise_all2, bind. cbn [JSON_parse].
  rewrite (redis_del_connected _ _ Hc).
  by rewrite redis_del_connected.
Qed.

Lemma deleteSession_unparsed now token w raw :
  connected w = true ->
  peek now w (sessionKey token) = Some raw -> val_truthy raw = true ->
  JSON_parse raw = None ->
  deleteSession now token w = Ok tt (deleted (sessionKey token) w).
Proof.
  intros Hc Hp Ht Hj. unfold deleteSession, bind.
  rewrite (redis_get_connected _ _ _ Hc), Hp, Ht, Hj.
  unfold try_catch, throw. by rewrite redis_del_connected.
Qed.

(** The four ways a [deleteSession] on a reachable store ends. *)
Lemma deleteSession_cases now token w :
  connected w = true ->
  (peek now w (sessionKey token) = None /\ deleteSession now token w = Ok tt w) \/
  (exists raw, peek now w (sessionKey token) = Some raw /\ val_truthy raw = false /\
               deleteSession now token w = Ok tt w) \/
  (exists s, peek now w (sessionKey token) = Some (VSession s) /\
             deleteSession now token w =
             Ok tt (deleted (addressKey (address s)) (deleted (sessionKey token) w))) \/
  (exists raw, peek now w (sessionKey token) = Some raw /\ JSON_parse raw = None /\
               deleteSession now token w = Ok tt (deleted (sessionKey token) w)).
Proof.
  intros Hc. destruct (peek now w (sessionKey token)) as [raw|] eqn:Hp.
  - destruct (val_truthy raw) eqn:Ht.
    + destruct raw as [s|str].
      * right; right; left. exists s. split; [done|]. by apply deleteSession_session.
      * right; right; right. exists (VStr str). split; [done|]. split; [done|].
        by apply (deleteSession_unparsed _ _ _ (VStr str)).
    + right; left. exists raw. split; [done|]. split; [done|]. by eapply deleteSession_falsy.
  - left. split; [done|]. by apply deleteSession_absent.
Qed.

Lemma deleteSession_connected now token w w1 :
  deleteSession now token w = Ok tt w1 -> connected w = true /\ connected w1 = true.
Proof.
  intros Hd.
  assert (Hc : connected w = true).
  { unfold deleteSession, bind, redis_get in Hd. by destruct (connected w). }
  split; [done|].
  destruct (deleteSession_cases now token w Hc)
    as [[_ E]|[(raw & _ & _ & E)|[(s & _ & E)|(raw & _ & _ & E)]]];
    rewrite E in Hd; by injection Hd as <-.
Qed.

(** After a [deleteSession] that did not throw, the token reads as absent
    or as an empty string, then and later, and a second [deleteSession]
    changes nothing. *)
Lemma deleteSession_then now now' token w w1 :
  now <= now' ->
  deleteSession now token w = Ok tt w1 ->
  from_option val_truthy false (peek now' w1 (sessionKey token)) = false /\
  deleteSession now' token w1 = Ok tt w1.
Proof.
  intros Hle Hd.
  destruct (deleteSession_connected _ _ _ _ Hd) as [Hc Hc1].
  destruct (deleteSession_cases now token w Hc)
    as [[Hp E]|[(raw & Hp & Hf & E)|[(s & Hp & E)|(raw & Hp & Hj & E)]]];
    rewrite E in Hd; injection Hd as <-.
  - rewrite (peek_None_later _ _ _ _ Hle Hp). split; [done|].
    apply deleteSession_absent; [done|]. by apply (peek_None_later now).
  - destruct (peek now' w (sessionKey token)) as [raw'|] eqn:Hp'.
    + rewrite (peek_Some_earlier _ _ _ _ _ Hle Hp') in Hp. injection Hp as ->.
      split; [done|]. by eapply deleteSession_falsy.
    + split; [done|]. by apply deleteSession_absent.
  - assert (Hgone : peek now' (deleted (addressKey (address s)) (deleted (sessionKey token) w))
                      (sessionKey token) = None)
      by apply peek_deleted_None, peek_deleted.
    rewrite Hgone. split; [done|]. by apply deleteSession_absent.
  - rewrite peek_deleted. split; [done|]. apply deleteSession_absent; [done|].
    apply peek_deleted.
Qed.

(** C9. [deleteSession(token)] is idempotent. When a session record exists
    for the token, it deletes the session record and the address-index entry
    of the address stored in that session, and both read as absent
    afterwards. When no record exists, it changes nothing and does not
    throw. In every case a second [deleteSession] of the same token, then or
    later, changes nothing and does not throw either. *)
Theorem deleteSession_idempotent now now' token w :
  connected w = true -> now <= now' ->
  (forall s, peek now w (sessionKey token) = Some (VSession s) ->
     let w1 := deleted (addressKey (address s)) (deleted (sessionKey token) w) in
     deleteSession now token w = Ok tt w1 /\
     peek now w1 (sessionKey token) = None /\
     peek now w1 (addressKey (address s)) = None) /\
  (peek now w (sessionKey token) = None -> deleteSession now token w = Ok tt w) /\
  (exists w1, deleteSession now token w = Ok tt w1 /\
              deleteSession now' token w1 = Ok tt w1).
Proof.
  intros Hc Hle. split; [|split].
  - intros s Hp w1. split; [by apply deleteSession_session|]. split.
    + apply peek_deleted_None, peek_deleted.
    + apply peek_deleted.
  - by apply deleteSession_absent.
  - destruct (deleteSession_cases now token w Hc)
      as [[_ E]|[(raw & _ & _ & E)|[(s & _ & E)|(raw & _ & _ & E)]]];
      (eexists; split; [exact E|]);
      by destruct (deleteSession_then _ _ _ _ _ Hle E).
Qed.

(** ** [createSession] *)

Lemma deleteSessionsForAddress_connected now address w :
  connected w = true ->
  deleteSessionsForAddress now address w = Ok tt (superseded now address w).
Proof.
  intros Hc. unfold deleteSessionsForAddress, superseded, bind.
  rewrite (redis_get_connected _ _ _ Hc).
  destruct (peek now w (addressKey address)) as [old|]; [|done].
  destruct (val_truthy old); [|done].
  unfold Promise_all2, bind. rewrite (redis_del_connected _ _ Hc).
  by rewrite redis_del_connected.
Qed.

Lemma connected_superseded now address w :
  connected (superseded now address w) = connected w.
Proof.
  unfold superseded. destruct (peek now w (addressKey address)) as [old|]; [|done].
  by destruct (val_truthy old).
Qed.

Lemma trace_superseded now address w :
  trace (superseded now address w) =
  (trace w ++
   match peek now w (addressKey address) with
   | Some old =>
       if val_truthy old
       then [EDel (sessionKey (text old)); EDel (addressKey address)]
       else []
   | None => []
   end)%list.
Proof.
  unfold superseded. destruct (peek now w (addressKey address)) as [old|].
  - destruct (val_truthy old); cbn.
    + by rewrite <- app_assoc.
    + by rewrite app_nil_r.
  - by rewrite app_nil_r.
Qed.

Lemma createSession_connected env now token csrfToken ip address origin w ttl :
  connected w = true ->
  Js.floorDiv (envInt (SESSION_TTL_MS env) "600000") 1000 = Some ttl -> 0 < ttl ->
  createSession env now token csrfToken ip address origin w =
  Ok (token, csrfToken)
     (stored now (addressKey address) ttl (VStr token)
        (stored now (sessionKey token) ttl
           (VSession {| ip := ip; address := address; origin := origin;
                        startedAt := now; csrfToken := csrfToken |})
           (superseded now address w))).
Proof.
  intros Hc Httl Hpos. unfold createSession, bind.
  rewrite (deleteSessionsForAddress_connected _ _ _ Hc), Httl.
  unfold Promise_all2, bind.
  rewrite redis_setEx_connected; [|by rewrite connected_superseded|done].
  rewrite redis_setEx_connected; [done| |done].
  change (connected (superseded now address w) = true).
  by rewrite connected_superseded.
Qed.

(** The token the index held for the address resolves to no session once
    the new session is written. *)
Lemma superseded_token_gone now now' address token old ttl data w :
  peek now w (addressKey address) = Some (VStr old) ->
  old <> "" -> old <> token ->
  getSession now'
    (stored now (addressKey address) ttl (VStr token)
       (stored now (sessionKey token) ttl data (superseded now address w))) old = None.
Proof.
  intros Hidx Hne Hfresh. unfold getSession.
  destruct (decide (addressKey address = sessionKey old)) as [E|Hk].
  - rewrite <- E, peek_stored. by destruct (now' <? now + 1000 * ttl).
  - rewrite peek_stored_ne by done.
    rewrite peek_stored_ne by (intros E; by apply sessionKey_inj in E).
    unfold superseded. rewrite Hidx.
    assert (Ht : val_truthy (VStr old) = true).
    { unfold val_truthy. cbn. by rewrite (proj2 (String.eqb_neq old "") Hne). }
    rewrite Ht. cbn [text].
    by rewrite peek_deleted_None by apply peek_deleted.
Qed.

Lemma deleteSession_idempotent_witness :
  connected Scenario.started = true /\
  exists w1, deleteSession 7000 "a1" Scenario.started = Ok tt w1 /\
             deleteSession 8000 "a1" w1 = Ok tt w1.
Proof.
  assert (Hc : connected Scenario.started = true) by (vm_compute; reflexivity).
  assert (Hle : 7000 <= 8000) by lia.
  split; [exact Hc|].
  exact (proj2 (proj2 (deleteSession_idempotent 7000 8000 "a1" Scenario.started Hc Hle))).
Defined.

(** ** The Session Verifier *)

Lemma find_first {A} (p : A -> bool) (l : list A) (x : A) :
  List.find p l = Some x ->
  exists l1 l2, l = (l1 ++ x :: l2)%list /\ p x = true /\ Forall (fun y => p y = false) l1.
Proof.
  induction l as [|a l IH]; [done|]. cbn.
  destruct (p a) eqn:Hp.
  - intros [= ->]. by exists [], l.
  - intros Hf. destruct (IH Hf) as (l1 & l2 & -> & Hx & Hall).
    exists (a :: l1), l2. split; [done|]. split; [done|]. by constructor.
Qed.

Lemma find_nowhere {A} (p : A -> bool) (l : list A) :
  List.find p l = None -> Forall (fun y => p y = false) l.
Proof.
  induction l as [|a l IH]; [by constructor|]. cbn.
  destruct (p a) eqn:Hp; [done|]. intros Hf. constructor; [done|by apply IH].
Qed.

(** On a reachable store the verifier is the guard chain. *)
Lemma verifySessionToken_as_chain env now req w :
  connected w = true ->
  verifySessionToken env now req w = guardChain env now req w.
Proof.
  intros Hc.
  unfold verifySessionToken, run, verifySessionToken_body, guardChain, firstFailure, guardOrder.
  cbn [List.find passes].
  destruct (Js.truthy (cookie_token req)) eqn:Htok; cbn [negb]; [|done].
  unfold bind. rewrite (redis_get_connected _ _ _ Hc).
  fold (presentedToken req). fold (storedRecord now req w).
  unfold rejection, originLog.
  destruct (storedRecord now req w) as [raw|] eqn:Hraw;
    cbn [from_option negb mbind option_bind]; [|done].
  destruct (val_truthy raw) eqn:Ht; cbn [negb]; [|done].
  destruct (JSON_parse raw) as [s|] eqn:Hj;
    cbn [from_option negb mbind option_bind]; [|done].
  unfold csrf_ok, dwell_ok, ip_ok, origin_ok, ret.
  destruct (isProduction env);
    (destruct (Js.truthy (header_csrf req)); cbn [negb andb orb fst snd];
     try reflexivity);
    (destruct (Js.truthy (Some (csrfToken s))); cbn [negb andb orb fst snd];
     try reflexivity);
    (destruct (Js.strict_eq (header_csrf req) (csrfToken s)); cbn [negb andb orb fst snd];
     try reflexivity);
    (destruct (Js.lt (Some (now - startedAt s)) (envInt (MIN_SESSION_TIME_MS env) "5000"));
     cbn [negb andb orb fst snd]; try reflexivity);
    (destruct (String.eqb (ip s) (clientIP req)); cbn [negb andb orb fst snd];
     try reflexivity);
    (destruct (Js.truthy (origin s)); cbn [negb andb orb fst snd]; try reflexivity);
    (destruct (Js.truthy (header_origin req)); cbn [negb andb orb fst snd];
     try reflexivity);
    (destruct (opt_eqb (header_origin req) (origin s)); cbn [negb andb orb fst snd];
     reflexivity).
Qed.

(** With the store out of reach, a request that presents a token gets the
    transient-unavailability answer and nothing else happens. *)
Lemma verifySessionToken_disconnected env now req w :
  connected w = false -> Js.truthy (cookie_token req) = true ->
  verifySessionToken env now req w =
  (Respond (reject 503 "Service temporarily unavailable"), w).
Proof.
  intros Hc Ht. unfold verifySessionToken, run, verifySessionToken_body.
  rewrite Ht. cbn [negb]. unfold bind, redis_get. by rewrite Hc.
Qed.

(** C3. The Session Verifier evaluates its checks in the order presence,
    existence, CSRF match (enforced in production only), dwell time, IP
    match, origin match. It answers with the rejection of the first check
    that fails, which is reached only when every check before it passed;
    when all pass it attaches the token and the session to the request and
    calls the next handler, leaving the world as it was. (The source has one
    more exit, which is no check of the chain: a record that is found but is
    no session is answered with 500 "Invalid session data".) *)
Theorem verifier_check_order env now req w :
  connected w = true ->
  verifySessionToken env now req w = guardChain env now req w /\
  match firstFailure env now req w with
  | Some c =>
      exists before after,
        guardOrder = (before ++ c :: after)%list /\
        passes env now req w c = false /\
        Forall (fun c' => passes env now req w c' = true) before /\
        verifySessionToken env now req w =
          (Respond (fst (rejection env now req w c)), snd (rejection env now req w c))
  | None =>
      Forall (fun c => passes env now req w c = true) guardOrder /\
      forall s, getSession now w (presentedToken req) = Some s ->
        verifySessionToken env now req w =
          (Next {| sessionToken := presentedToken req; sessionData := s |}, w)
  end.
Proof.
  intros Hc. pose proof (verifySessionToken_as_chain env now req w Hc) as Hv.
  split; [done|]. rewrite Hv. unfold guardChain.
  destruct (firstFailure env now req w) as [c|] eqn:Hf.
  - destruct (find_first _ _ _ Hf) as (l1 & l2 & Hl & Hc' & Hall).
    exists l1, l2. split; [done|]. split; [by destruct (passes env now req w c)|].
    split; [|done].
    eapply Forall_impl; [exact Hall|]. intros c' Hn. cbn in Hn.
    by destruct (passes env now req w c').
  - split.
    + eapply Forall_impl; [exact (find_nowhere _ _ Hf)|]. intros c' Hn. cbn in Hn.
      by destruct (passes env now req w c').
    + intros s Hs. unfold getSession in Hs. unfold storedRecord. by rewrite Hs.
Qed.

Lemma verifier_check_order_witness :
  connected Scenario.started = true /\
  verifySessionToken Scenario.production 7000 (Scenario.claimReq "a1" "1.2.3.4")
    Scenario.started =
  guardChain Scenario.production 7000 (Scenario.claimReq "a1" "1.2.3.4") Scenario.started.
Proof.
  assert (Hc : connected Scenario.started = true) by (vm_compute; reflexivity).
  split; [exact Hc|].
  exact (proj1 (verifier_check_order Scenario.production 7000
                  (Scenario.claimReq "a1" "1.2.3.4") Scenario.started Hc)).
Defined.

(** A claim of the session [a1] from another network than the one that
    started it is told so, and nothing is logged. *)
Lemma ip_mismatch_is_told :
  ~ (forall env now req w c,
       connected w = true ->
       firstFailure env now req w = Some c ->
       c = CsrfMatch \/ c = IpMatch \/ c = OriginMatch ->
       genericAndLogged env now req w).
Proof.
  intros H.
  destruct (H Scenario.production 7000 (Scenario.claimReq "a1" "5.6.7.8") Scenario.started
              IpMatch) as [fields Hf].
  - vm_compute; reflexivity.
  - vm_compute; reflexivity.
  - right; left; reflexivity.
  - assert (Hrun : fst (verifySessionToken Scenario.production 7000
                          (Scenario.claimReq "a1" "5.6.7.8") Scenario.started) =
                   Respond (reject 403 "IP mismatch"))
      by (vm_compute; reflexivity).
    rewrite Hf in Hrun. discriminate Hrun.
Qed.

(** C5. A claim that fails the CSRF check or the origin check gets the
    same generic answer, 403 "Invalid request", and the reason goes to the
    abuse log. A claim that fails the IP check gets the answer 403 "IP
    mismatch" and nothing is logged. *)
Theorem verifier_rejection_messages env now req w c :
  connected w = true ->
  firstFailure env now req w = Some c ->
  (c = CsrfMatch ->
   verifySessionToken env now req w =
   (Respond (reject 403 "Invalid request"),
    logSecurityEvent "ABUSE"
      [("IP", Some (clientIP req)); ("PATH", Some (originalUrl req));
       ("REASON", Some "CSRF")] w)) /\
  (c = OriginMatch ->
   exists detail,
     verifySessionToken env now req w =
     (Respond (reject 403 "Invalid request"),
      logSecurityEvent "ABUSE"
        ([("IP", Some (clientIP req)); ("PATH", Some (originalUrl req));
          ("REASON", Some "Origin Mismatch")] ++ detail)%list w)) /\
  (c = IpMatch ->
   verifySessionToken env now req w = (Respond (reject 403 "IP mismatch"), w)).
Proof.
  intros Hc Hf. rewrite (verifySessionToken_as_chain _ _ _ _ Hc).
  unfold guardChain. rewrite Hf.
  split; [|split]; intros ->; cbn [rejection fst snd]; [done| |done].
  unfold originLog. by eexists [_; _].
Qed.

Lemma verifier_rejection_messages_witness :
  connected Scenario.started = true /\
  verifySessionToken Scenario.production 7000 (Scenario.claimReq "a1" "5.6.7.8")
    Scenario.started = (Respond (reject 403 "IP mismatch"), Scenario.started).
Proof.
  assert (Hc : connected Scenario.started = true) by (vm_compute; reflexivity).
  assert (Hf : firstFailure Scenario.production 7000 (Scenario.claimReq "a1" "5.6.7.8")
                 Scenario.started = Some IpMatch) by (vm_compute; reflexivity).
  split; [exact Hc|].
  exact (proj2 (proj2 (verifier_rejection_messages Scenario.production 7000
                         (Scenario.claimReq "a1" "5.6.7.8") Scenario.started IpMatch Hc Hf))
           eq_refl).
Defined.

(** C6. A claim that reaches the dwell-time check (token presented,
    session found, CSRF check passed) with a configured minimum [m]: when
    the time since the session started is below [m], it is rejected with
    400 "Session completed too quickly"; when it is [m] or more, the check
    passes, and the answer is that of the IP and origin checks. *)
Theorem dwell_time_boundary env now req w s m :
  connected w = true ->
  Js.truthy (cookie_token req) = true ->
  storedRecord now req w = Some (VSession s) ->
  csrf_ok env req s = true ->
  envInt (MIN_SESSION_TIME_MS env) "5000" = Some m ->
  (now - startedAt s < m ->
   verifySessionToken env now req w =
   (Respond (reject 400 "Session completed too quickly"), w)) /\
  (m <= now - startedAt s ->
   passes env now req w DwellTime = true /\
   firstFailure env now req w <> Some DwellTime /\
   fst (verifySessionToken env now req w)
     <> Respond (reject 400 "Session completed too quickly") /\
   (ip_ok req s = true -> origin_ok env req s = true ->
    verifySessionToken env now req w =
    (Next {| sessionToken := presentedToken req; sessionData := s |}, w))).
Proof.
  intros Hc Htok Hrec Hcsrf Hm.
  rewrite (verifySessionToken_as_chain _ _ _ _ Hc).
  unfold guardChain, firstFailure, guardOrder. cbn [List.find passes].
  rewrite Htok, Hrec. cbn [from_option mbind option_bind JSON_parse negb].
  rewrite session_truthy, Hcsrf. cbn [negb].
  unfold dwell_ok. rewrite Hm. cbn [Js.lt].
  split.
  - intros Hlt. by rewrite (proj2 (Z.ltb_lt _ _) Hlt).
  - intros Hge. rewrite (proj2 (Z.ltb_ge _ _) Hge). cbn [negb].
    split; [done|].
    destruct (ip_ok req s); cbn [negb]; [|done].
    destruct (origin_ok env req s); cbn [negb fst snd rejection]; [|done].
    done.
Qed.

Lemma dwell_time_boundary_witness :
  connected Scenario.started = true /\
  verifySessionToken Scenario.production 5999 (Scenario.claimReq "a1" "1.2.3.4")
    Scenario.started =
  (Respond (reject 400 "Session completed too quickly"), Scenario.started) /\
  verifySessionToken Scenario.production 6000 (Scenario.claimReq "a1" "1.2.3.4")
    Scenario.started =
  (Next Scenario.verified, Scenario.started).
Proof.
  assert (Hc : connected Scenario.started = true) by (vm_compute; reflexivity).
  assert (Htok : Js.truthy (cookie_token (Scenario.claimReq "a1" "1.2.3.4")) = true)
    by reflexivity.
  assert (Hm : envInt (MIN_SESSION_TIME_MS Scenario.production) "5000" = Some 5000)
    by (vm_compute; reflexivity).
  split; [exact Hc|]. split.
  - refine (proj1 (dwell_time_boundary Scenario.production 5999
                     (Scenario.claimReq "a1" "1.2.3.4") Scenario.started _ 5000
                     Hc Htok _ _ Hm) _);
      [vm_compute; reflexivity|vm_compute; reflexivity|vm_compute; reflexivity].
  - refine (proj2 (proj2 (proj2 (proj2 (dwell_time_boundary Scenario.production 6000
                     (Scenario.claimReq "a1" "1.2.3.4") Scenario.started _ 5000
                     Hc Htok _ _ Hm) _))) _ _);
      [vm_compute; reflexivity|vm_compute; reflexivity|vm_compute; discriminate
      |vm_compute; reflexivity|vm_compute; reflexivity].
Defined.

(** ** The Origin Guard *)

Lemma filter_nil_Forall {A} (P : A -> Prop) `{forall x, Decision (P x)} (l : list A) :
  filter P l = [] <-> Forall (fun x => ~ P x) l.
Proof.
  induction l as [|a l IH]; [by split; [constructor|]|].
  rewrite filter_cons. destruct (decide (P a)) as [Hp|Hp].
  - split; [done|]. intros HF. by inversion HF.
  - rewrite IH. split; [by constructor|]. intros HF. by inversion HF.
Qed.

Lemma length_zero_empty (s : string) : ~ (0 < Z.of_nat (String.length s)) <-> s = "".
Proof. destruct s; cbn; split; (done || lia). Qed.

(** The allow-list is empty exactly when [FRONTEND_DOMAIN] is unset or
    every comma-separated entry of it is blank. *)
Lemma allowedOrigins_empty env :
  allowedOrigins env = [] <->
  match FRONTEND_DOMAIN env with
  | None => True
  | Some d => Forall (fun entry => Js.trim entry = "") (Js.split "," d)
  end.
Proof.
  unfold allowedOrigins, getAllowedOrigins.
  destruct (FRONTEND_DOMAIN env) as [d|]; [|done].
  destruct (String.eqb_spec d "") as [->|Hd].
  - split; [|done]. intros _. cbn. by constructor.
  - rewrite filter_nil_Forall, Forall_map.
    apply Forall_iff. intros entry. cbn. apply length_zero_empty.
Qed.

Lemma requireTrustedOrigin_empty env req w :
  allowedOrigins env = [] ->
  isProduction env = true \/ Js.includes ["GET"; "HEAD"; "OPTIONS"] (method req) = false ->
  requireTrustedOrigin env req w =
  (Respond (reject 500 "Service temporarily unavailable"), w).
Proof.
  intros Hempty Henforced. unfold requireTrustedOrigin. rewrite Hempty. cbn [length].
  destruct Henforced as [-> | ->]; cbn [negb andb]; [done|].
  by rewrite andb_false_r.
Qed.

(** Outside production a session is started with no origin configured at
    all: the guard lets the GET request through to the handler. *)
Lemma start_game_bypasses_empty_allowlist :
  ~ (forall env req w,
       allowedOrigins env = [] ->
       exists w', requireTrustedOrigin env req w =
                  (Respond (reject 500 "Service temporarily unavailable"), w')).
Proof.
  intros H.
  destruct (H Scenario.development (Scenario.startReq (Some Scenario.addr)) Scenario.empty)
    as [w' Hw']; [reflexivity|].
  discriminate Hw'.
Qed.

(** C10. With an empty origin allow-list ([FRONTEND_DOMAIN] unset or with
    blank entries only) the Origin Guard rejects every request it enforces,
    with 500 "Service temporarily unavailable", whatever the Origin header
    is and without touching the world. It enforces all requests in
    production and the state-changing ones otherwise: so no claim request
    reaches the rate limiter, the verifier or the handler, and in production
    no session-start request reaches its handler. Outside production a GET
    request, such as a session start, is let through unexamined. *)
Theorem empty_allowlist_fails_closed env req w :
  match FRONTEND_DOMAIN env with
  | None => True
  | Some d => Forall (fun entry => Js.trim entry = "") (Js.split "," d)
  end ->
  let unavailable := reject 500 "Service temporarily unavailable" in
  (isProduction env = true \/ Js.includes ["GET"; "HEAD"; "OPTIONS"] (method req) = false ->
   requireTrustedOrigin env req w = (Respond unavailable, w)) /\
  (method req = "POST" ->
   forall claimLimiter ccx now,
     claimRoute claimLimiter env ccx now req w = (Answered unavailable, w)) /\
  (isProduction env = true ->
   forall now token csrfToken,
     startGameRoute env now token csrfToken req w = (Answered unavailable, w)) /\
  (isProduction env = false -> method req = "GET" ->
   requireTrustedOrigin env req w = (Next tt, w)).
Proof.
  intros Hblank unavailable. apply allowedOrigins_empty in Hblank.
  split; [|split; [|split]].
  - by apply requireTrustedOrigin_empty.
  - intros Hpost lim ccx now. unfold claimRoute.
    rewrite requireTrustedOrigin_empty; [done|done|]. right. by rewrite Hpost.
  - intros Hprod now token csrfToken. unfold startGameRoute.
    rewrite requireTrustedOrigin_empty; [done|done|]. by left.
  - intros Hdev Hget. unfold requireTrustedOrigin. by rewrite Hdev, Hget.
Qed.

Lemma empty_allowlist_fails_closed_witness :
  Forall (fun entry => Js.trim entry = "") (Js.split "," " , ,, ") /\
  claimRoute Scenario.noLimit (Scenario.env "production" (Some " , ,, ")) Scenario.wallet
    7000 (Scenario.claimReq "a1" "1.2.3.4") Scenario.started =
  (Answered (reject 500 "Service temporarily unavailable"), Scenario.started).
Proof.
  assert (Hblank : Forall (fun entry => Js.trim entry = "") (Js.split "," " , ,, "))
    by (repeat constructor).
  split; [exact Hblank|].
  exact (proj1 (proj2 (empty_allowlist_fails_closed
                         (Scenario.env "production" (Some " , ,, "))
                         (Scenario.claimReq "a1" "1.2.3.4") Scenario.started Hblank))
           eq_refl Scenario.noLimit Scenario.wallet 7000).
Defined.

(** ** [GET /start-game] *)

Lemma invalidAddress_rejected env now token csrfToken req w a :
  query_address req = QString <$> a -> invalidAddress a ->
  startGameHandler env now token csrfToken req w =
  (Answered (reject 400 "Invalid CCX address"), w).
Proof.
  unfold invalidAddress, startGameHandler, Js.startsWith. intros ->.
  destruct a as [a|]; cbn [fmap option_fmap option_map queryTruthy negb]; [|done].
  destruct (String.eqb a ""); cbn [negb]; [done|].
  intros [Hp|Hl].
  - by rewrite Hp.
  - destruct (String.prefix "ccx7" a); cbn [negb]; [|done].
    destruct (Z.eqb_spec (Z.of_nat (String.length a)) 98); [lia|done].
Qed.

Lemma requireTrustedOrigin_kv env req w :
  kv (snd (requireTrustedOrigin env req w)) = kv w.
Proof.
  unfold requireTrustedOrigin.
  repeat (match goal with |- context [if ?b then _ else _] => destruct b end); done.
Qed.

(** The handler once the address is a string of the right format: the
    session is created, then the cookie is set, and a failure of either is
    answered with the 500 of the [catch] block. *)
Lemma startGameHandler_valid env now token csrf req w a :
  query_address req = Some (QString a) ->
  String.prefix "ccx7" a = true -> String.length a = 98%nat ->
  startGameHandler env now token csrf req w =
  run (session <- createSession env now token csrf (clientIP req) a
                    (Js.or_else (header_origin req) None) ;;
       cookie <- res_cookie now "faucet-token" (fst session)
                   (envInt (SESSION_TTL_MS env) "600000") ;;
       ret (Answered {| status := 200;
                        body := JSessionStarted (snd session);
                        cookies := [cookie] |}))
      (fun _ => Answered (reject 500 "Failed to create session")) w.
Proof.
  intros Ha Hp Hl. unfold startGameHandler, Js.startsWith. rewrite Ha.
  cbn [queryTruthy]. destruct a as [|c a]; [discriminate Hl|].
  cbn [String.eqb negb]. rewrite Hp, Hl.
  by change (negb (Z.of_nat 98 =? 98)) with false.
Qed.

(** An address that is an array or an object: the handler throws at
    [address.startsWith], outside the [try], and answers nothing. *)
Lemma startGameHandler_not_a_string env now token csrfToken req w :
  (forall items, query_address req = Some (QArray items) ->
   startGameHandler env now token csrfToken req w = (Uncaught TypeError, w)) /\
  (forall fields, query_address req = Some (QObject fields) ->
   startGameHandler env now token csrfToken req w = (Uncaught TypeError, w)).
Proof. split; intros ? Ha; unfold startGameHandler; by rewrite Ha. Qed.

(** C8. An address of the query that is no string is not rejected with an
    invalid-address error. For [GET /start-game?address=ccx7&address=x] the
    address is the array of the two strings, which neither starts with
    "ccx7" nor has 98 characters; the handler answers no 400 "Invalid CCX
    address": it throws a TypeError at [address.startsWith], before its
    [try] block, and sends nothing. No session is created and the world is
    as it was. Every array and every object is treated so. *)
Theorem startGame_repeated_address :
  query_address Deployment.repeatedAddress = Some (QArray [QString "ccx7"; QString "x"]) /\
  startGameRoute Scenario.development 1000 "a1" "c5f" Deployment.repeatedAddress
    Scenario.empty = (Uncaught TypeError, Scenario.empty) /\
  fst (startGameRoute Scenario.development 1000 "a1" "c5f" Deployment.repeatedAddress
         Scenario.empty) <> Answered (reject 400 "Invalid CCX address") /\
  forall env now token csrfToken req w,
    (forall items, query_address req = Some (QArray items) ->
     startGameHandler env now token csrfToken req w = (Uncaught TypeError, w)) /\
    (forall fields, query_address req = Some (QObject fields) ->
     startGameHandler env now token csrfToken req w = (Uncaught TypeError, w)).
Proof.
  split; [reflexivity|]. split; [reflexivity|]. split; [discriminate|].
  intros env now token csrfToken req w. apply startGameHandler_not_a_string.
Qed.

(** X19. At session start an address that is absent, or is a string that
    is empty, does not start with "ccx7" or is not 98 characters long, is
    rejected with 400 "Invalid CCX address"; the handler leaves the world
    untouched, and the route as a whole sends no command to the store. A
    string that passes both checks goes on to [createSession] for the client
    IP and the request origin; on a reachable store with a valid TTL the
    session is stored, and the answer carries the CSRF token and sets the
    session cookie, unless the cookie's expiry is beyond the range of a
    date: then the answer is 500 "Failed to create session", with the
    session stored all the same. *)
Theorem startGame_address_validation env now token csrfToken req w :
  (forall a, query_address req = QString <$> a -> invalidAddress a ->
   startGameHandler env now token csrfToken req w =
     (Answered (reject 400 "Invalid CCX address"), w) /\
   kv (snd (startGameRoute env now token csrfToken req w)) = kv w) /\
  (forall a ttl ms,
     query_address req = Some (QString a) ->
     String.prefix "ccx7" a = true -> String.length a = 98%nat ->
     connected w = true ->
     envInt (SESSION_TTL_MS env) "600000" = Some ms ->
     Js.floorDiv (Some ms) 1000 = Some ttl -> 0 < ttl ->
     exists w',
       createSession env now token csrfToken (clientIP req) a
         (Js.or_else (header_origin req) None) w = Ok (token, csrfToken) w' /\
       startGameHandler env now token csrfToken req w =
       (if Z.abs (now + ms) <=? maxTime
        then Answered {| status := 200;
                         body := JSessionStarted csrfToken;
                         cookies := [SetCookie "faucet-token" token (Some ms)] |}
        else Answered (reject 500 "Failed to create session"), w')).
Proof.
  split.
  - intros a Ha Hbad. split; [by apply (invalidAddress_rejected _ _ _ _ _ _ a)|].
    unfold startGameRoute.
    pose proof (requireTrustedOrigin_kv env req w) as Hkv.
    destruct (requireTrustedOrigin env req w) as [[r|[]] w1]; [done|].
    cbn [snd] in Hkv. by rewrite (invalidAddress_rejected _ _ _ _ _ _ a).
  - intros a ttl ms Ha Hp Hl Hc Hms Httl Hpos.
    assert (Httl' : Js.floorDiv (envInt (SESSION_TTL_MS env) "600000") 1000 = Some ttl)
      by (by rewrite Hms).
    eexists. split; [by apply createSession_connected|].
    rewrite (startGameHandler_valid _ _ _ _ _ _ _ Ha Hp Hl).
    unfold run, bind.
    rewrite (createSession_connected _ _ _ _ _ _ _ _ _ Hc Httl' Hpos).
    cbn [fst snd]. rewrite Hms. unfold res_cookie.
    by destruct (Z.abs (now + ms) <=? maxTime).
Qed.

Lemma startGame_address_validation_witness :
  invalidAddress (Some "ccx7short") /\
  startGameHandler Scenario.production 1000 "a1" "c5f" (Scenario.startReq (Some "ccx7short"))
    Scenario.empty = (Answered (reject 400 "Invalid CCX address"), Scenario.empty).
Proof.
  assert (Hbad : invalidAddress (Some "ccx7short")) by (right; discriminate).
  split; [exact Hbad|].
  exact (proj1 (proj1 (startGame_address_validation Scenario.production 1000 "a1" "c5f"
                         (Scenario.startReq (Some "ccx7short")) Scenario.empty)
                  (Some "ccx7short") eq_refl Hbad)).
Defined.

(** ** [POST /claim] *)

Lemma deleteSession_throws now token w e w' :
  deleteSession now token w = Throw e w' -> w' = w /\ connected w = false.
Proof.
  intros Hd. destruct (connected w) eqn:Hc.
  - destruct (deleteSession_cases now token w Hc)
      as [[_ E]|[(raw & _ & _ & E)|[(s & _ & E)|(raw & _ & _ & E)]]];
      rewrite E in Hd; discriminate Hd.
  - unfold deleteSession, bind, redis_get in Hd. rewrite Hc in Hd.
    by injection Hd as _ <-.
Qed.

Lemma validations_pass env req ctx :
  addressMatches req ctx = true -> scoreSuffices env req = true ->
  exists addr, body_address req = Some addr /\ addr = address (sessionData ctx) /\
  (negb (Js.truthy (body_address req))
   || negb (Js.strict_eq (body_address req) (address (sessionData ctx)))) = false /\
  scoreRejected (body_score req) (envInt (MIN_SCORE env) "1000") = Some false.
Proof.
  unfold addressMatches, scoreSuffices. intros Ha Hs.
  apply andb_prop in Ha as [Ht Heq].
  destruct (body_address req) as [addr|]; [|done].
  exists addr. cbn in Heq. apply String.eqb_eq in Heq.
  split; [done|]. split; [done|].
  rewrite Ht. cbn [negb orb]. subst addr.
  split.
  - cbn. by rewrite String.eqb_refl.
  - by destruct (scoreRejected (body_score req) (envInt (MIN_SCORE env) "1000")) as [[]|].
Qed.

Lemma claimHandler_asked env ccx now req ctx w addr bal :
  addressMatches req ctx = true -> scoreSuffices env req = true ->
  body_address req = Some addr ->
  getBalance ccx (FAUCET_ADDRESS env) = inr bal ->
  Js.lt (Some bal) (envInt (FAUCET_MIN_BALANCE env) "0") = false ->
  claimHandler env ccx now req ctx w =
  match sendTransaction ccx (claimOpts env addr) with
  | inr h =>
      match deleteSession now (sessionToken ctx) (asked env addr w) with
      | Ok _ w' => (Answered (claimedResponse env h), w')
      | Throw e w' => (Answered (paymentFailed e), w')
      end
  | inl message => (Answered (paymentFailed (WalletError message)), asked env addr w)
  end.
Proof.
  intros Ha Hs Haddr Hbal Hmin.
  destruct (validations_pass env req ctx Ha Hs) as (addr' & Haddr' & _ & Hv1 & Hv2).
  unfold claimHandler. rewrite Hv1, Hv2.
  unfold run, bind, ccx_getBalance. rewrite Hbal, Hmin.
  unfold ccx_sendTransaction. rewrite Haddr. cbn [default from_option id claimOpts transfers fold_left fst snd].
  fold (claimOpts env addr). fold (asked env addr w).
  destruct (sendTransaction ccx (claimOpts env addr)) as [m|h]; [done|].
  by destruct (deleteSession now (sessionToken ctx) (asked env addr w)).
Qed.

(** A handler that answers with a success was let through both
    validations, had the wallet pay, and deleted the session. *)
Lemma claimHandler_success_inv env ccx now req ctx w r w' :
  claimHandler env ccx now req ctx w = (r, w') -> isSuccess r = true ->
  exists addr h,
    body_address req = Some addr /\ addr = address (sessionData ctx) /\
    sendTransaction ccx (claimOpts env addr) = inr h /\
    r = claimedResponse env h /\
    deleteSession now (sessionToken ctx) (asked env addr w) = Ok tt w'.
Proof.
  intros Hrun Hs.
  destruct (addressMatches req ctx) eqn:Ha.
  2:{ unfold claimHandler in Hrun. unfold addressMatches in Ha.
      destruct (Js.truthy (body_address req)),
        (Js.strict_eq (body_address req) (address (sessionData ctx)));
        try discriminate Ha; cbn [negb orb] in Hrun;
        injection Hrun as <- _; discriminate Hs. }
  destruct (scoreSuffices env req) eqn:Hsc.
  2:{ unfold claimHandler in Hrun.
      apply andb_prop in Ha as [Ht Heq]. rewrite Ht, Heq in Hrun.
      cbn [negb orb] in Hrun. unfold scoreSuffices in Hsc.
      destruct (scoreRejected (body_score req) (envInt (MIN_SCORE env) "1000")) as [[]|];
        try discriminate Hsc; injection Hrun as <- _; discriminate Hs. }
  destruct (validations_pass env req ctx Ha Hsc) as (addr & Haddr & Heq & Hv1 & Hv2).
  exists addr.
  destruct (getBalance ccx (FAUCET_ADDRESS env)) as [m|bal] eqn:Hbal.
  { unfold claimHandler in Hrun. rewrite Hv1, Hv2 in Hrun.
    unfold run, bind, ccx_getBalance in Hrun. rewrite Hbal in Hrun.
    injection Hrun as <- _. discriminate Hs. }
  destruct (Js.lt (Some bal) (envInt (FAUCET_MIN_BALANCE env) "0")) eqn:Hmin.
  { unfold claimHandler in Hrun. rewrite Hv1, Hv2 in Hrun.
    unfold run, bind, ccx_getBalance in Hrun. rewrite Hbal, Hmin in Hrun.
    injection Hrun as <- _. discriminate Hs. }
  rewrite (claimHandler_asked _ _ _ _ _ _ _ _ Ha Hsc Haddr Hbal Hmin) in Hrun.
  destruct (sendTransaction ccx (claimOpts env addr)) as [m|h].
  { injection Hrun as <- _. discriminate Hs. }
  exists h.
  destruct (deleteSession now (sessionToken ctx) (asked env addr w)) as [[] w1|e w1].
  - injection Hrun as <- <-. done.
  - injection Hrun as <- _. discriminate Hs.
Qed.

(** A handler that does not answer with a success has sent no command to
    the store. *)
Lemma claimHandler_failure_kv env ccx now req ctx w :
  isSuccess (fst (claimHandler env ccx now req ctx w)) = false ->
  kv (snd (claimHandler env ccx now req ctx w)) = kv w.
Proof.
  intros Hs. unfold claimHandler in *.
  destruct (negb (Js.truthy (body_address req))
            || negb (Js.strict_eq (body_address req) (address (sessionData ctx)))); [done|].
  destruct (scoreRejected (body_score req) (envInt (MIN_SCORE env) "1000")) as [[]|];
    [done| |done].
  unfold run, bind, ccx_getBalance, ccx_sendTransaction in *.
  destruct (getBalance ccx (FAUCET_ADDRESS env)) as [m|bal]; [done|].
  destruct (Js.lt (Some bal) (envInt (FAUCET_MIN_BALANCE env) "0")); [done|].
  destruct (sendTransaction ccx _) as [m|h]; [done|].
  cbn [transfers claimOpts fold_left fst snd] in *.
  destruct (deleteSession now (sessionToken ctx) _) as [[] w1|e w1] eqn:Hd.
  - discriminate Hs.
  - by destruct (deleteSession_throws _ _ _ _ _ Hd) as [-> _].
Qed.

(** *** The cooldown commit leaves the session keys alone *)

Lemma committed_cases env now req w :
  committed env now req w = w \/
  exists ttl,
    envInt (COOLDOWN_SECONDS env) "86400" = Some ttl /\ 0 < ttl /\ connected w = true /\
    committed env now req w =
    stored now (cooldownAddrKey (interpolate (body_address req))) ttl (VStr (Js.toString now))
      (stored now (cooldownIpKey (clientIP req)) ttl (VStr (Js.toString now)) w).
Proof.
  unfold committed, run, commitCooldown, Promise_all2, bind, redis_setEx.
  destruct (envInt (COOLDOWN_SECONDS env) "86400") as [ttl|]; [|by left].
  destruct (connected w) eqn:Hc; [|by left].
  destruct (Z.ltb_spec 0 ttl); [|by left].
  cbn [andb connected stored emit with_kv]. rewrite Hc. cbn [andb].
  destruct (Z.ltb_spec 0 ttl); [|lia].
  right. by exists ttl.
Qed.

Lemma peek_committed env now now' req w key :
  String.prefix "session:" key = true ->
  peek now' (committed env now req w) key = peek now' w key.
Proof.
  intros Hk. destruct (committed_cases env now req w) as [->|(ttl & _ & _ & _ & ->)]; [done|].
  rewrite peek_stored_ne by (by apply cooldownAddrKey_not_session).
  by rewrite peek_stored_ne by (by apply cooldownIpKey_not_session).
Qed.

Lemma connected_committed env now req w :
  connected (committed env now req w) = connected w.
Proof.
  by destruct (committed_cases env now req w) as [->|(ttl & _ & _ & _ & ->)].
Qed.

Lemma setCooldownOnSuccess_unfold env now req next w :
  setCooldownOnSuccess env now req next w =
  (fst (next w),
   if isSuccess (fst (next w)) then committed env now req (snd (next w)) else snd (next w)).
Proof.
  unfold setCooldownOnSuccess, committed. destruct (next w) as [r w1]. cbn [fst snd].
  by destruct (isSuccess r).
Qed.

(** *** What a passed guard tells *)

Lemma requireTrustedOrigin_passed env req w w1 :
  requireTrustedOrigin env req w = (Next tt, w1) -> w1 = w.
Proof.
  unfold requireTrustedOrigin.
  repeat (match goal with |- context [if ?b then _ else _] => destruct b end);
    intros [= <-]; done.
Qed.

Lemma checkCooldown_passed now req w w1 :
  checkCooldown now req w = (Next tt, w1) -> w1 = w.
Proof.
  unfold checkCooldown, run, bind. destruct (connected w) eqn:Hc.
  - rewrite !(redis_get_connected _ _ _ Hc).
    destruct (orb _ _); [intros H; discriminate H|].
    by intros [= <-].
  - unfold redis_get. rewrite Hc. intros H. discriminate H.
Qed.

Lemma verifySessionToken_passed env now req w ctx w1 :
  verifySessionToken env now req w = (Next ctx, w1) ->
  w1 = w /\ connected w = true /\
  cookie_token req = Some (sessionToken ctx) /\ sessionToken ctx <> "" /\
  peek now w (sessionKey (sessionToken ctx)) = Some (VSession (sessionData ctx)).
Proof.
  intros Hv.
  destruct (Js.truthy (cookie_token req)) eqn:Htok.
  2:{ unfold verifySessionToken, run, verifySessionToken_body in Hv.
      rewrite Htok in Hv. discriminate Hv. }
  destruct (connected w) eqn:Hc.
  2:{ by rewrite (verifySessionToken_disconnected _ _ _ _ Hc Htok) in Hv. }
  rewrite (verifySessionToken_as_chain _ _ _ _ Hc) in Hv. unfold guardChain in Hv.
  destruct (firstFailure env now req w); [discriminate Hv|].
  unfold storedRecord in Hv.
  destruct (peek now w (sessionKey (presentedToken req))) as [raw|] eqn:Hp; [|discriminate Hv].
  destruct raw as [s|str]; [|discriminate Hv].
  cbn in Hv. injection Hv as <- <-. cbn [sessionToken sessionData].
  unfold presentedToken in *. destruct (cookie_token req) as [t|]; [|done].
  cbn in *. split; [done|]. split; [done|]. split; [done|]. split; [|done].
  intros ->. discriminate Htok.
Qed.

Lemma verifySessionToken_absent env now req w token :
  connected w = true ->
  cookie_token req = Some token -> token <> "" ->
  peek now w (sessionKey token) = None ->
  verifySessionToken env now req w =
  (Respond (reject 403 "Invalid or expired session token"), w).
Proof.
  intros Hc Htok Hne Hp.
  rewrite (verifySessionToken_as_chain _ _ _ _ Hc).
  unfold guardChain, firstFailure, guardOrder. cbn [List.find passes].
  unfold storedRecord, presentedToken. rewrite Htok. cbn [default from_option id].
  rewrite Hp. cbn. by rewrite (proj2 (String.eqb_neq token "") Hne).
Qed.

Lemma requireTrustedOrigin_rejects env req w r w1 :
  requireTrustedOrigin env req w = (Respond r, w1) -> isSuccess r = false.
Proof.
  unfold requireTrustedOrigin.
  repeat (match goal with |- context [if ?b then _ else _] => destruct b end);
    by intros [= <- _].
Qed.

Lemma checkCooldown_rejects now req w r w1 :
  checkCooldown now req w = (Respond r, w1) -> isSuccess r = false.
Proof.
  unfold checkCooldown, run, bind. destruct (connected w) eqn:Hc.
  - rewrite !(redis_get_connected _ _ _ Hc).
    destruct (orb _ _); [by intros [= <- _]|]. intros H. discriminate H.
  - unfold redis_get. rewrite Hc. by intros [= <- _].
Qed.

Lemma verifySessionToken_rejects env now req w r w1 :
  verifySessionToken env now req w = (Respond r, w1) -> isSuccess r = false.
Proof.
  destruct (Js.truthy (cookie_token req)) eqn:Htok.
  2:{ unfold verifySessionToken, run, verifySessionToken_body.
      rewrite Htok. by intros [= <- _]. }
  destruct (connected w) eqn:Hc.
  2:{ rewrite (verifySessionToken_disconnected _ _ _ _ Hc Htok). by intros [= <- _]. }
  rewrite (verifySessionToken_as_chain _ _ _ _ Hc). unfold guardChain.
  destruct (firstFailure env now req w) as [c|].
  - intros [= <- _]. by destruct c.
  - destruct (storedRecord now req w ≫= JSON_parse); [intros H; discriminate H|].
    by intros [= <- _].
Qed.

(** A claim route that answers with a success went through the verifier
    and the handler on one and the same world. *)
Lemma claimRoute_success_inv lim env ccx now req w r w' :
  onlyRejects lim ->
  claimRoute lim env ccx now req w = (r, w') -> isSuccess r = true ->
  exists w2 ctx w3,
    lim req w = (Next tt, w2) /\
    verifySessionToken env now req w2 = (Next ctx, w2) /\
    checkCooldown now req w2 = (Next tt, w2) /\
    claimHandler env ccx now req ctx w2 = (r, w3) /\
    w' = committed env now req w3.
Proof.
  unfold claimRoute. intros Hlim Hrun Hs.
  destruct (requireTrustedOrigin env req w) as [[r0|[]] w1] eqn:Ho.
  { apply requireTrustedOrigin_rejects in Ho. injection Hrun as <- _. congruence. }
  apply requireTrustedOrigin_passed in Ho as ->.
  destruct (lim req w) as [[r0|[]] w2] eqn:Hl.
  { apply Hlim in Hl. injection Hrun as <- _. congruence. }
  destruct (verifySessionToken env now req w2) as [[r0|ctx] w3] eqn:Hv.
  { apply verifySessionToken_rejects in Hv. injection Hrun as <- _. congruence. }
  destruct (verifySessionToken_passed _ _ _ _ _ _ Hv) as (-> & _).
  destruct (checkCooldown now req w2) as [[r0|[]] w4] eqn:Hcd.
  { apply checkCooldown_rejects in Hcd. injection Hrun as <- _. congruence. }
  apply checkCooldown_passed in Hcd as Hw4. subst w4.
  rewrite setCooldownOnSuccess_unfold in Hrun.
  destruct (claimHandler env ccx now req ctx w2) as [r1 w5] eqn:Hh.
  cbn [fst snd] in Hrun. injection Hrun as -> <-. rewrite Hs.
  by exists w2, ctx, w5.
Qed.

(** C2. A session token is single-use. When the claim route answers with a
    success, the token of the request was verified against a session
    record, and in the world the route leaves behind that record and the
    address-index entry of its address are deleted: both keys read as
    absent at any time, and the verifier rejects any request that presents
    the token again with 403 "Invalid or expired session token". *)
Theorem session_token_single_use lim env ccx now req w r w' :
  onlyRejects lim ->
  claimRoute lim env ccx now req w = (r, w') -> isSuccess r = true ->
  exists token session,
    cookie_token req = Some token /\
    body_address req = Some (address session) /\
    (exists w2, verifySessionToken env now req w2 =
                (Next {| sessionToken := token; sessionData := session |}, w2) /\
                getSession now w2 token = Some session) /\
    forall now2,
      peek now2 w' (sessionKey token) = None /\
      peek now2 w' (addressKey (address session)) = None /\
      forall env2 req2,
        cookie_token req2 = Some token ->
        verifySessionToken env2 now2 req2 w' =
        (Respond (reject 403 "Invalid or expired session token"), w').
Proof.
  intros Hlim Hrun Hs.
  destruct (claimRoute_success_inv _ _ _ _ _ _ _ _ Hlim Hrun Hs)
    as (w2 & [token session] & w3 & _ & Hv & _ & Hh & ->).
  destruct (verifySessionToken_passed _ _ _ _ _ _ Hv) as (_ & Hc & Htok & Hne & Hrec).
  cbn [sessionToken sessionData] in *.
  destruct (claimHandler_success_inv _ _ _ _ _ _ _ _ Hh Hs)
    as (addr & h & Haddr & -> & _ & _ & Hd).
  cbn [sessionToken sessionData] in *.
  rewrite (deleteSession_session _ _ _ session) in Hd; [|done|done].
  injection Hd as <-.
  exists token, session. split; [done|]. split; [done|]. split.
  { exists w2. split; [done|]. unfold getSession. by rewrite Hrec. }
  intros now2.
  assert (Hk1 : peek now2
                  (committed env now req
                     (deleted (addressKey (address session))
                        (deleted (sessionKey token) (asked env (address session) w2))))
                  (sessionKey token) = None).
  { rewrite peek_committed by apply sessionKey_prefix.
    apply peek_deleted_None, peek_deleted. }
  split; [done|]. split.
  - rewrite peek_committed by apply addressKey_prefix. apply peek_deleted.
  - intros env2 req2 Htok2. apply (verifySessionToken_absent _ _ _ _ token); try done.
    by rewrite connected_committed.
Qed.

Lemma noLimit_onlyRejects : onlyRejects Scenario.noLimit.
Proof. intros req w r w' H. discriminate H. Qed.

Lemma session_token_single_use_witness :
  onlyRejects Scenario.noLimit /\
  isSuccess (fst Scenario.claimed) = true /\
  verifySessionToken Scenario.production 9000 (Scenario.claimReq "a1" "1.2.3.4")
    (snd Scenario.claimed) =
  (Respond (reject 403 "Invalid or expired session token"), snd Scenario.claimed).
Proof.
  assert (Hrun : claimRoute Scenario.noLimit Scenario.production Scenario.wallet 7000
                   (Scenario.claimReq "a1" "1.2.3.4") Scenario.started =
                 (fst Scenario.claimed, snd Scenario.claimed))
    by apply surjective_pairing.
  assert (Hs : isSuccess (fst Scenario.claimed) = true) by (vm_compute; reflexivity).
  split; [exact noLimit_onlyRejects|]. split; [exact Hs|].
  destruct (session_token_single_use _ _ _ _ _ _ _ _ noLimit_onlyRejects Hrun Hs)
    as (token & session & Htok & _ & _ & Hafter).
  injection Htok as <-.
  destruct (Hafter 9000) as (_ & _ & Hagain).
  by apply Hagain.
Defined.

(** *** The end-to-end claim *)

Lemma verifySessionToken_passed_fst env now req w ctx :
  fst (verifySessionToken env now req w) = Next ctx ->
  verifySessionToken env now req w = (Next ctx, w).
Proof.
  destruct (verifySessionToken env now req w) as [st w1] eqn:Hv. cbn [fst].
  intros ->. by destruct (verifySessionToken_passed _ _ _ _ _ _ Hv) as (-> & _).
Qed.

Lemma requireTrustedOrigin_passed_fst env req w :
  fst (requireTrustedOrigin env req w) = Next tt ->
  requireTrustedOrigin env req w = (Next tt, w).
Proof.
  destruct (requireTrustedOrigin env req w) as [st w1] eqn:Ho. cbn [fst].
  intros ->. by rewrite (requireTrustedOrigin_passed _ _ _ _ Ho).
Qed.

Lemma checkCooldown_passed_fst now req w :
  fst (checkCooldown now req w) = Next tt ->
  checkCooldown now req w = (Next tt, w).
Proof.
  destruct (checkCooldown now req w) as [st w1] eqn:Hcd. cbn [fst].
  intros ->. by rewrite (checkCooldown_passed _ _ _ _ Hcd).
Qed.

(** C7. A claim that passes the origin guard, the rate limiter, the
    verifier and the cooldown check, names the address of its session, has
    a sufficient score, and finds the wallet funded and the transfer
    accepted, is answered with a success that carries the transaction hash
    and the configured payout amount (FAUCET_AMOUNT, given in coins, that
    is divided by 1000000). In the world the route leaves behind neither the
    session record nor the address-index entry can be read any more. *)
Theorem successful_claim_end_to_end lim env ccx now req w w2 ctx bal txHash :
  fst (requireTrustedOrigin env req w) = Next tt ->
  lim req w = (Next tt, w2) ->
  fst (verifySessionToken env now req w2) = Next ctx ->
  fst (checkCooldown now req w2) = Next tt ->
  addressMatches req ctx = true ->
  scoreSuffices env req = true ->
  getBalance ccx (FAUCET_ADDRESS env) = inr bal ->
  Js.lt (Some bal) (envInt (FAUCET_MIN_BALANCE env) "0") = false ->
  sendTransaction ccx (claimOpts env (address (sessionData ctx))) = inr txHash ->
  exists w',
    claimRoute lim env ccx now req w =
    (Answered
       {| status := 200;
          body := JClaimed txHash (Js.perMillion (envInt (FAUCET_AMOUNT env) "1123456"));
          cookies := [ClearCookie "faucet-token"] |}, w') /\
    forall now2,
      peek now2 w' (sessionKey (sessionToken ctx)) = None /\
      peek now2 w' (addressKey (address (sessionData ctx))) = None /\
      getSession now2 w' (sessionToken ctx) = None.
Proof.
  intros Ho Hl Hv Hcd Ha Hsc Hbal Hmin Hsend.
  apply requireTrustedOrigin_passed_fst in Ho.
  apply verifySessionToken_passed_fst in Hv.
  apply checkCooldown_passed_fst in Hcd.
  destruct (verifySessionToken_passed _ _ _ _ _ _ Hv) as (_ & Hc & _ & _ & Hrec).
  destruct (validations_pass env req ctx Ha Hsc) as (addr & Haddr & -> & _).
  pose proof (claimHandler_asked _ _ now _ _ w2 _ _ Ha Hsc Haddr Hbal Hmin) as Hh.
  rewrite Hsend in Hh.
  rewrite (deleteSession_session _ _ _ (sessionData ctx)) in Hh; [|done|done].
  eexists. split.
  - unfold claimRoute. rewrite Ho, Hl, Hv, Hcd, setCooldownOnSuccess_unfold, Hh.
    cbn [fst snd isSuccess claimedResponse body]. reflexivity.
  - intros now2.
    assert (Hk : peek now2
                   (committed env now req
                      (deleted (addressKey (address (sessionData ctx)))
                         (deleted (sessionKey (sessionToken ctx))
                            (asked env (address (sessionData ctx)) w2))))
                   (sessionKey (sessionToken ctx)) = None).
    { rewrite peek_committed by apply sessionKey_prefix.
      apply peek_deleted_None, peek_deleted. }
    split; [done|]. split.
    + rewrite peek_committed by apply addressKey_prefix. apply peek_deleted.
    + unfold getSession. by rewrite Hk.
Qed.

Lemma successful_claim_end_to_end_witness :
  fst (verifySessionToken Scenario.production 7000 (Scenario.claimReq "a1" "1.2.3.4")
         Scenario.started) =
    Next Scenario.verified /\
  fst Scenario.claimed =
    {| status := 200;
       body := JClaimed "9f2c" (Some (Qmake 1123456 1000000));
       cookies := [ClearCookie "faucet-token"] |} /\
  getSession 7000 (snd Scenario.claimed) "a1" = None /\
  peek 7000 (snd Scenario.claimed) (addressKey Scenario.addr) = None.
Proof.
  pose (ctx := Scenario.verified).
  assert (Hv : fst (verifySessionToken Scenario.production 7000
                      (Scenario.claimReq "a1" "1.2.3.4") Scenario.started) = Next ctx)
    by (vm_compute; reflexivity).
  split; [exact Hv|].
  assert (Ho : fst (requireTrustedOrigin Scenario.production
                      (Scenario.claimReq "a1" "1.2.3.4") Scenario.started) = Next tt)
    by (vm_compute; reflexivity).
  assert (Hl : Scenario.noLimit (Scenario.claimReq "a1" "1.2.3.4") Scenario.started =
               (Next tt, Scenario.started)) by reflexivity.
  assert (Hcd : fst (checkCooldown 7000 (Scenario.claimReq "a1" "1.2.3.4")
                       Scenario.started) = Next tt) by (vm_compute; reflexivity).
  assert (Ha : addressMatches (Scenario.claimReq "a1" "1.2.3.4") ctx = true)
    by (vm_compute; reflexivity).
  assert (Hsc : scoreSuffices Scenario.production (Scenario.claimReq "a1" "1.2.3.4") = true)
    by (vm_compute; reflexivity).
  assert (Hbal : getBalance Scenario.wallet (FAUCET_ADDRESS Scenario.production) =
                 inr 5000000) by reflexivity.
  assert (Hmin : Js.lt (Some 5000000)
                   (envInt (FAUCET_MIN_BALANCE Scenario.production) "0") = false)
    by (vm_compute; reflexivity).
  assert (Hsend : sendTransaction Scenario.wallet
                    (claimOpts Scenario.production (address (sessionData ctx))) =
                  inr "9f2c") by reflexivity.
  destruct (successful_claim_end_to_end Scenario.noLimit Scenario.production
              Scenario.wallet 7000 (Scenario.claimReq "a1" "1.2.3.4")
              Scenario.started Scenario.started ctx 5000000 "9f2c"
              Ho Hl Hv Hcd Ha Hsc Hbal Hmin Hsend)
    as (w' & Hrun & Hafter).
  unfold Scenario.claimed. rewrite Hrun. cbn [fst snd].
  destruct (Hafter 7000) as (_ & Hidx & Hsess).
  split; [reflexivity|]. split; [exact Hsess|exact Hidx].
Defined.

(** *** The order of the effects of a claim *)

Lemma committed_connected env now req w ttl :
  connected w = true ->
  envInt (COOLDOWN_SECONDS env) "86400" = Some ttl -> 0 < ttl ->
  committed env now req w =
  stored now (cooldownAddrKey (interpolate (body_address req))) ttl (VStr (Js.toString now))
    (stored now (cooldownIpKey (clientIP req)) ttl (VStr (Js.toString now)) w).
Proof.
  intros Hc Httl Hpos.
  unfold committed, run, commitCooldown, Promise_all2, bind. rewrite Httl.
  rewrite (redis_setEx_connected _ _ _ _ _ Hc Hpos).
  by rewrite redis_setEx_connected.
Qed.

Lemma cooldownIpKey_prefix ip : String.prefix "cooldown:" (cooldownIpKey ip) = true.
Proof. vm_compute. reflexivity. Qed.

Lemma cooldownAddrKey_prefix a : String.prefix "cooldown:" (cooldownAddrKey a) = true.
Proof. vm_compute. reflexivity. Qed.

(** The order of the five effects of a paid claim. *)
Lemma paid_claim_order to amount token a ip ttl v :
  let new := [ESend to amount; EDel (sessionKey token); EDel (addressKey a);
              ESetEx (cooldownIpKey ip) ttl v; ESetEx (cooldownAddrKey a) ttl v] in
  routeOrder new = true /\ statedOrder new = false.
Proof.
  unfold routeOrder, statedOrder.
  cbn [allBefore forallb isDisbursement isSessionDeletion isCooldownCommit].
  rewrite sessionKey_prefix, addressKey_prefix, cooldownIpKey_prefix, cooldownAddrKey_prefix.
  by split.
Qed.

(** The session is deleted before the cooldown is committed: in the
    end-to-end run the two [DEL] commands come right after the transfer,
    and the two cooldown records are written last. *)
Lemma cooldown_commit_comes_last :
  ~ (forall lim env ccx now req w r w' new,
       onlyRejects lim ->
       claimRoute lim env ccx now req w = (r, w') -> isSuccess r = true ->
       trace w' = (trace w ++ new)%list ->
       statedOrder new = true).
Proof.
  intros H.
  specialize (H Scenario.noLimit Scenario.production Scenario.wallet 7000
                (Scenario.claimReq "a1" "1.2.3.4") Scenario.started
                (fst Scenario.claimed) (snd Scenario.claimed)
                [ESend Scenario.addr (Some 1123456);
                 EDel (sessionKey "a1");
                 EDel (addressKey Scenario.addr);
                 ESetEx (cooldownIpKey "1.2.3.4") 86400 (VStr "7000");
                 ESetEx (cooldownAddrKey Scenario.addr) 86400 (VStr "7000")]
                noLimit_onlyRejects).
  assert (Hfalse : statedOrder
                     [ESend Scenario.addr (Some 1123456);
                      EDel (sessionKey "a1");
                      EDel (addressKey Scenario.addr);
                      ESetEx (cooldownIpKey "1.2.3.4") 86400 (VStr "7000");
                      ESetEx (cooldownAddrKey Scenario.addr) 86400 (VStr "7000")] = false)
    by (vm_compute; reflexivity).
  rewrite H in Hfalse; [discriminate Hfalse| | |].
  - apply surjective_pairing.
  - vm_compute; reflexivity.
  - vm_compute; reflexivity.
Qed.

(** C1. Once the guards let a claim through, the cooldown is committed
    only after the transfer succeeded, and the effects of a paid claim come
    in the order: transfer, deletion of the session record and of its
    address-index entry, commit of the two cooldown records. A claim that
    is not answered with a success has sent no command to the store; in
    particular, when the transfer fails, the answer is the error and the
    world differs from the one before by the attempted transfer alone: no
    cooldown record is written and the session is not deleted. *)
Theorem claim_effect_order env ccx now req ctx w :
  let stage := setCooldownOnSuccess env now req (claimHandler env ccx now req ctx) w in
  let token := sessionToken ctx in
  let addr := address (sessionData ctx) in
  (isSuccess (fst stage) = false -> kv (snd stage) = kv w) /\
  (forall bal message,
     addressMatches req ctx = true -> scoreSuffices env req = true ->
     getBalance ccx (FAUCET_ADDRESS env) = inr bal ->
     Js.lt (Some bal) (envInt (FAUCET_MIN_BALANCE env) "0") = false ->
     sendTransaction ccx (claimOpts env addr) = inl message ->
     stage = (Answered (paymentFailed (WalletError message)), asked env addr w)) /\
  (forall ttl,
     isSuccess (fst stage) = true ->
     peek now w (sessionKey token) = Some (VSession (sessionData ctx)) ->
     envInt (COOLDOWN_SECONDS env) "86400" = Some ttl -> 0 < ttl ->
     let new := [ESend addr (envInt (FAUCET_AMOUNT env) "1123456");
                 EDel (sessionKey token);
                 EDel (addressKey addr);
                 ESetEx (cooldownIpKey (clientIP req)) ttl (VStr (Js.toString now));
                 ESetEx (cooldownAddrKey addr) ttl (VStr (Js.toString now))] in
     trace (snd stage) = (trace w ++ new)%list /\
     routeOrder new = true).
Proof.
  intros stage token addr. subst stage.
  rewrite setCooldownOnSuccess_unfold. cbn [fst snd].
  split; [|split].
  - intros Hs. rewrite Hs. by apply claimHandler_failure_kv.
  - intros bal message Ha Hsc Hbal Hmin Hsend.
    destruct (validations_pass env req ctx Ha Hsc) as (addr' & Haddr & Heq & _).
    fold addr in Heq. subst addr'.
    rewrite (claimHandler_asked _ _ now _ _ w _ _ Ha Hsc Haddr Hbal Hmin), Hsend.
    reflexivity.
  - intros ttl Hs Hrec Httl Hpos.
    rewrite Hs.
    destruct (claimHandler env ccx now req ctx w) as [r w3] eqn:Hh. cbn [fst snd] in *.
    destruct (claimHandler_success_inv _ _ _ _ _ _ _ _ Hh Hs)
      as (addr' & h & Haddr & Heq & _ & _ & Hd).
    fold addr in Heq. subst addr'. fold token in Hd.
    destruct (deleteSession_connected _ _ _ _ Hd) as [Hc Hc3].
    rewrite (deleteSession_session _ _ _ (sessionData ctx)) in Hd; [|exact Hc|exact Hrec].
    injection Hd as <-. fold addr.
    rewrite (committed_connected _ _ _ _ ttl Hc3 Httl Hpos), Haddr.
    cbn [interpolate default from_option id].
    split.
    + unfold stored, deleted, asked. cbn [trace emit with_kv]. by rewrite <- !app_assoc.
    + apply paid_claim_order.
Qed.

Lemma claim_effect_order_witness :
  sendTransaction Scenario.brokenWallet (claimOpts Scenario.production Scenario.addr) =
    inl (Some "Wallet RPC timeout") /\
  setCooldownOnSuccess Scenario.production 7000 (Scenario.claimReq "a1" "1.2.3.4")
    (claimHandler Scenario.production Scenario.brokenWallet 7000
       (Scenario.claimReq "a1" "1.2.3.4") Scenario.verified) Scenario.started =
    (Answered (paymentFailed (WalletError (Some "Wallet RPC timeout"))),
     asked Scenario.production Scenario.addr Scenario.started) /\
  trace (snd (setCooldownOnSuccess Scenario.production 7000
                (Scenario.claimReq "a1" "1.2.3.4")
                (claimHandler Scenario.production Scenario.wallet 7000
                   (Scenario.claimReq "a1" "1.2.3.4") Scenario.verified)
                Scenario.started)) =
    (trace Scenario.started ++
     [ESend Scenario.addr (Some 1123456);
      EDel (sessionKey "a1");
      EDel (addressKey Scenario.addr);
      ESetEx (cooldownIpKey "1.2.3.4") 86400 (VStr "7000");
      ESetEx (cooldownAddrKey Scenario.addr) 86400 (VStr "7000")])%list.
Proof.
  pose (ctx := Scenario.verified). pose (req := Scenario.claimReq "a1" "1.2.3.4").
  assert (Ha : addressMatches req ctx = true) by (vm_compute; reflexivity).
  assert (Hsc : scoreSuffices Scenario.production req = true) by (vm_compute; reflexivity).
  assert (Hbal : getBalance Scenario.brokenWallet (FAUCET_ADDRESS Scenario.production) =
                 inr 5000000) by reflexivity.
  assert (Hmin : Js.lt (Some 5000000)
                   (envInt (FAUCET_MIN_BALANCE Scenario.production) "0") = false)
    by (vm_compute; reflexivity).
  assert (Hsend : sendTransaction Scenario.brokenWallet
                    (claimOpts Scenario.production (address (sessionData ctx))) =
                  inl (Some "Wallet RPC timeout")) by reflexivity.
  assert (Hs : isSuccess (fst (setCooldownOnSuccess Scenario.production 7000 req
                                 (claimHandler Scenario.production Scenario.wallet 7000
                                    req ctx) Scenario.started)) = true)
    by (vm_compute; reflexivity).
  assert (Hrec : peek 7000 Scenario.started (sessionKey (sessionToken ctx)) =
                 Some (VSession (sessionData ctx))) by (vm_compute; reflexivity).
  assert (Httl : envInt (COOLDOWN_SECONDS Scenario.production) "86400" = Some 86400)
    by (vm_compute; reflexivity).
  assert (Hpos : 0 < 86400) by lia.
  split; [exact Hsend|]. split.
  - exact (proj1 (proj2 (claim_effect_order Scenario.production Scenario.brokenWallet
                           7000 req ctx Scenario.started))
             5000000 (Some "Wallet RPC timeout") Ha Hsc Hbal Hmin Hsend).
  - exact (proj1 (proj2 (proj2 (claim_effect_order Scenario.production
                                  Scenario.wallet 7000 req ctx Scenario.started))
                    86400 Hs Hrec Httl Hpos)).
Defined.

(** ** One live token per address *)

Lemma hexToken_tokenLike t : isHexToken t = true -> tokenLike t.
Proof.
  unfold isHexToken. intros H. apply andb_prop in H as [Hlen Hhex]. split.
  - intros ->. discriminate Hlen.
  - destruct t as [|c1 [|c2 [|c3 [|c4 r]]]]; try discriminate Hlen.
    cbn [allHex] in Hhex.
    apply andb_prop in Hhex as [_ Hhex]. apply andb_prop in Hhex as [_ Hhex].
    apply andb_prop in Hhex as [_ Hhex]. apply andb_prop in Hhex as [H4 _].
    cbn [String.prefix].
    destruct (ascii_dec "a" c1); [|reflexivity].
    destruct (ascii_dec "d" c2); [|reflexivity].
    destruct (ascii_dec "d" c3); [|reflexivity].
    destruct (ascii_dec "r" c4) as [<-|]; [discriminate H4|reflexivity].
Qed.

Lemma sessionKey_not_addressKey t a : tokenLike t -> sessionKey t <> addressKey a.
Proof.
  intros [_ Hp] E. unfold sessionKey, addressKey in E.
  assert (Ht : t = "addr:" +:+ a) by (by simplify_eq).
  subst t. vm_compute in Hp. by destruct a.
Qed.

Lemma peek_Some_inv now w key v :
  peek now w key = Some v ->
  exists e, kv w !! key = Some {| val := v; expiresAt := e |} /\ now < e.
Proof.
  unfold peek, live. destruct (kv w !! key) as [[v' e]|]; [|done]. cbn.
  destruct (Z.ltb_spec now e); [|done]. intros [= ->]. by exists e.
Qed.

Lemma peek_live now w key v e :
  kv w !! key = Some {| val := v; expiresAt := e |} -> now < e ->
  peek now w key = Some v.
Proof.
  unfold peek, live. intros -> Hlt. cbn. by rewrite (proj2 (Z.ltb_lt _ _) Hlt).
Qed.

Lemma tokenLike_truthy t : tokenLike t -> val_truthy (VStr t) = true.
Proof.
  intros [Hne _]. unfold val_truthy. cbn [text].
  by rewrite (proj2 (String.eqb_neq t "") Hne).
Qed.

Lemma addressKey_as_sessionKey a : addressKey a = sessionKey ("addr:" +:+ a).
Proof. reflexivity. Qed.

Lemma indexConsistent_later now now' w :
  indexConsistent now w -> now <= now' -> indexConsistent now' w.
Proof.
  intros [H1 H2] Hle. split.
  - intros t s e Hk Hlt. apply H1; [done|lia].
  - intros a o e Hk Hlt. apply (H2 a o e); [done|lia].
Qed.

(** The index never holds a session record that is still alive. *)
Lemma index_holds_tokens now w a v :
  indexConsistent now w -> peek now w (addressKey a) = Some v ->
  exists o, v = VStr o /\ tokenLike o.
Proof.
  intros [H1 H2] Hp. destruct (peek_Some_inv _ _ _ _ Hp) as (e & Hk & Hlt).
  destruct v as [s|o].
  - rewrite addressKey_as_sessionKey in Hk.
    destruct (H1 _ _ _ Hk Hlt) as [[_ Hpre] _].
    vm_compute in Hpre. by destruct a.
  - exists o. split; [done|]. by apply (H2 a o e).
Qed.

Lemma indexConsistent_consumed now w token s :
  indexConsistent now w ->
  peek now w (sessionKey token) = Some (VSession s) ->
  indexConsistent now (deleted (addressKey (address s)) (deleted (sessionKey token) w)).
Proof.
  intros [H1 H2] Hp. destruct (peek_Some_inv _ _ _ _ Hp) as (e0 & Hk0 & Hlt0).
  destruct (H1 _ _ _ Hk0 Hlt0) as [Htok0 Hidx0].
  split.
  - intros t s' e Hk Hlt. cbn in Hk.
    apply lookup_delete_Some in Hk as [Hn1 Hk].
    apply lookup_delete_Some in Hk as [Hn2 Hk].
    destruct (H1 _ _ _ Hk Hlt) as [Htok Hidx]. split; [done|]. cbn.
    rewrite lookup_delete_ne.
    + rewrite lookup_delete_ne; [done|].
      intros E. by apply (sessionKey_not_addressKey token (address s')).
    + intros E. apply addressKey_inj in E. rewrite <- E in Hidx.
      rewrite Hidx0 in Hidx. injection Hidx as -> _. done.
  - intros a o e Hk Hlt. cbn in Hk.
    apply lookup_delete_Some in Hk as [_ Hk].
    apply lookup_delete_Some in Hk as [_ Hk].
    by apply (H2 a o e).
Qed.

Lemma indexConsistent_superseded now a w :
  indexConsistent now w -> indexConsistent now (superseded now a w).
Proof.
  intros Hinv. unfold superseded.
  destruct (peek now w (addressKey a)) as [old|] eqn:Hp; [|done].
  destruct (val_truthy old) eqn:Ht; [|done].
  destruct (index_holds_tokens _ _ _ _ Hinv Hp) as (o & -> & Ho).
  destruct (peek_Some_inv _ _ _ _ Hp) as (e0 & Hk0 & Hlt0).
  destruct Hinv as [H1 H2]. cbn [text]. split.
  - intros t s e Hk Hlt. cbn in Hk.
    apply lookup_delete_Some in Hk as [Hn1 Hk].
    apply lookup_delete_Some in Hk as [Hn2 Hk].
    destruct (H1 _ _ _ Hk Hlt) as [Htok Hidx]. split; [done|]. cbn.
    rewrite lookup_delete_ne.
    + rewrite lookup_delete_ne; [done|].
      intros E. by apply (sessionKey_not_addressKey o (address s)).
    + intros E. apply addressKey_inj in E. rewrite <- E in Hidx.
      rewrite Hk0 in Hidx. injection Hidx as -> _. done.
  - intros a' o' e Hk Hlt. cbn in Hk.
    apply lookup_delete_Some in Hk as [_ Hk].
    apply lookup_delete_Some in Hk as [_ Hk].
    by apply (H2 a' o' e).
Qed.

(** Once the sessions of an address are deleted, no live session record
    names that address. *)
Lemma superseded_clears_address now a w t s e :
  indexConsistent now w ->
  kv (superseded now a w) !! sessionKey t =
    Some {| val := VSession s; expiresAt := e |} ->
  now < e ->
  address s <> a.
Proof.
  intros Hinv Hk Hlt <-. unfold superseded in Hk.
  destruct (peek now w (addressKey (address s))) as [old|] eqn:Hp.
  - destruct (val_truthy old) eqn:Ht.
    + destruct (peek_Some_inv _ _ _ _ Hp) as (e0 & Hk0 & _).
      cbn in Hk.
      apply lookup_delete_Some in Hk as [_ Hk].
      apply lookup_delete_Some in Hk as [Hn Hk].
      destruct (proj1 Hinv _ _ _ Hk Hlt) as [_ Hidx].
      rewrite Hk0 in Hidx. injection Hidx as -> _. done.
    + destruct (proj1 Hinv _ _ _ Hk Hlt) as [Htok Hidx].
      rewrite (peek_live _ _ _ _ _ Hidx Hlt) in Hp. injection Hp as <-.
      by rewrite (tokenLike_truthy _ Htok) in Ht.
  - destruct (proj1 Hinv _ _ _ Hk Hlt) as [_ Hidx].
    by rewrite (peek_live _ _ _ _ _ Hidx Hlt) in Hp.
Qed.

Lemma indexConsistent_created now token ttl a data w :
  indexConsistent now w -> tokenLike token ->
  address data = a ->
  indexConsistent now
    (stored now (addressKey a) ttl (VStr token)
       (stored now (sessionKey token) ttl (VSession data) (superseded now a w))).
Proof.
  intros Hinv Htok Haddr.
  pose proof (indexConsistent_superseded now a w Hinv) as [S1 S2].
  split.
  - intros t s e Hk Hlt. cbn in Hk.
    apply lookup_insert_Some in Hk as [[_ Hk]|[Hn1 Hk]]; [discriminate Hk|].
    apply lookup_insert_Some in Hk as [[Ek Hk]|[Hn2 Hk]].
    + apply sessionKey_inj in Ek as <-. injection Hk as <- <-.
      split; [done|]. cbn. rewrite Haddr. by rewrite lookup_insert_eq.
    + destruct (S1 _ _ _ Hk Hlt) as [Ht Hidx]. split; [done|].
      pose proof (superseded_clears_address _ _ _ _ _ _ Hinv Hk Hlt) as Hother.
      cbn. rewrite lookup_insert_ne by (intros E; by apply addressKey_inj in E).
      rewrite lookup_insert_ne; [done|].
      by apply sessionKey_not_addressKey.
  - intros a' o e Hk Hlt. cbn in Hk.
    apply lookup_insert_Some in Hk as [[_ Hk]|[Hn1 Hk]]; [by injection Hk as <- _|].
    apply lookup_insert_Some in Hk as [[_ Hk]|[Hn2 Hk]]; [discriminate Hk|].
    by apply (S2 a' o e).
Qed.

Lemma indexConsistent_committed env now req w :
  indexConsistent now w -> indexConsistent now (committed env now req w).
Proof.
  intros [H1 H2].
  destruct (committed_cases env now req w) as [->|(ttl & _ & _ & _ & ->)]; [done|].
  split.
  - intros t s e Hk Hlt. cbn in Hk.
    rewrite lookup_insert_ne in Hk
      by (apply cooldownAddrKey_not_session, sessionKey_prefix).
    rewrite lookup_insert_ne in Hk
      by (apply cooldownIpKey_not_session, sessionKey_prefix).
    destruct (H1 _ _ _ Hk Hlt) as [Ht Hidx]. split; [done|]. cbn.
    rewrite lookup_insert_ne by (apply cooldownAddrKey_not_session, addressKey_prefix).
    by rewrite lookup_insert_ne by (apply cooldownIpKey_not_session, addressKey_prefix).
  - intros a o e Hk Hlt. cbn in Hk.
    rewrite lookup_insert_ne in Hk
      by (apply cooldownAddrKey_not_session, addressKey_prefix).
    rewrite lookup_insert_ne in Hk
      by (apply cooldownIpKey_not_session, addressKey_prefix).
    by apply (H2 a o e).
Qed.

Lemma createSession_inv env now token csrfToken ip a origin w res :
  createSession env now token csrfToken ip a origin w = res ->
  (exists ttl,
     res = Ok (token, csrfToken)
             (stored now (addressKey a) ttl (VStr token)
                (stored now (sessionKey token) ttl
                   (VSession {| ip := ip; address := a; origin := origin;
                                startedAt := now; csrfToken := csrfToken |})
                   (superseded now a w)))) \/
  (exists e, res = Throw e w \/ res = Throw e (superseded now a w)).
Proof.
  intros <-. unfold createSession, bind.
  destruct (connected w) eqn:Hc.
  - rewrite (deleteSessionsForAddress_connected _ _ _ Hc).
    unfold Promise_all2, bind.
    destruct (Js.floorDiv (envInt (SESSION_TTL_MS env) "600000") 1000) as [ttl|] eqn:Httl.
    + destruct (Z.ltb_spec 0 ttl) as [Hpos|Hneg].
      * left. exists ttl.
        rewrite redis_setEx_connected; [|by rewrite connected_superseded|done].
        rewrite redis_setEx_connected; [done| |done].
        change (connected (superseded now a w) = true).
        by rewrite connected_superseded.
      * right. exists RedisError. right. unfold redis_setEx.
        rewrite connected_superseded, Hc. cbn [andb].
        by destruct (Z.ltb_spec 0 ttl); [lia|].
    + right. exists RedisError. by right.
  - right. exists RedisError. left.
    unfold deleteSessionsForAddress, bind, redis_get. by rewrite Hc.
Qed.

(** Every world a single worker reaches has a consistent index: at most
    one live token per address. *)
Theorem reachable_indexConsistent now w : reachable now w -> indexConsistent now w.
Proof.
  induction 1 as [now tr|now now' w _ IH Hle|now w env token csrfToken ip a origin w' _ IH Htok Hrun
                 |now w env token csrfToken ip a origin e w' _ IH Hrun
                 |now w token s w' _ IH Hp Hd|now w env req _ IH|now w e _ IH].
  - split; intros ? ? ? Hk; cbn in Hk; by rewrite lookup_empty in Hk.
  - by apply (indexConsistent_later now).
  - destruct (createSession_inv _ _ _ _ _ _ _ _ _ Hrun) as [(ttl & E)|(e & [E|E])];
      [|discriminate E|discriminate E].
    injection E as ->. by apply indexConsistent_created.
  - destruct (createSession_inv _ _ _ _ _ _ _ _ _ Hrun) as [(ttl & E)|(e' & [E|E])];
      [discriminate E| |]; injection E as _ ->; [done|].
    by apply indexConsistent_superseded.
  - destruct (deleteSession_connected _ _ _ _ Hd) as [Hc _].
    rewrite (deleteSession_session _ _ _ _ Hc Hp) in Hd. injection Hd as <-.
    by apply indexConsistent_consumed.
  - by apply indexConsistent_committed.
  - exact IH.
Qed.

(** With a consistent index, every token that resolves to a session of the
    address is the one the index holds. *)
Lemma live_token_is_indexed now w t s :
  indexConsistent now w -> getSession now w t = Some s ->
  peek now w (addressKey (address s)) = Some (VStr t) /\ t <> "".
Proof.
  intros [H1 _] Hg. unfold getSession in Hg.
  destruct (peek now w (sessionKey t)) as [raw|] eqn:Hp; [|done].
  destruct raw as [s'|]; [|done]. cbn in Hg. injection Hg as ->.
  destruct (peek_Some_inv _ _ _ _ Hp) as (e & Hk & Hlt).
  destruct (H1 _ _ _ Hk Hlt) as [[Hne _] Hidx].
  split; [|done]. by apply (peek_live _ _ _ _ e).
Qed.

(** The scenario starts with [createSession] on the empty store. *)
Lemma Scenario_started_created :
  createSession Scenario.production 1000 "a1" "c5f" "1.2.3.4" Scenario.addr
    (Some "https://f.example") Scenario.empty = Ok ("a1", "c5f") Scenario.started.
Proof.
  assert (Hrun : startGameRoute Scenario.production 1000 "a1" "c5f"
                   (Scenario.startReq (Some Scenario.addr)) Scenario.empty =
                 run (session <- createSession Scenario.production 1000 "a1" "c5f" "1.2.3.4"
                                   Scenario.addr (Some "https://f.example") ;;
                      cookie <- res_cookie 1000 "faucet-token" (fst session)
                                  (Some 600000) ;;
                      ret (Answered {| status := 200;
                                       body := JSessionStarted (snd session);
                                       cookies := [cookie] |}))
                     (fun _ => Answered (reject 500 "Failed to create session"))
                     Scenario.empty)
    by reflexivity.
  unfold Scenario.started. rewrite Hrun. unfold run, bind.
  rewrite (createSession_connected _ _ _ _ _ _ _ _ 600); [reflexivity|reflexivity| |lia].
  vm_compute; reflexivity.
Qed.

(** C4. [createSession(ip, address, origin)] always supersedes. With the
    store reachable and a valid session TTL it succeeds whatever the store
    holds: it reads the address index, deletes the old session record and
    the old index entry when the index holds a token, then writes the new
    session record and the new index entry, both with the same TTL. The
    commands go out in that order. Afterwards the token the index held for
    the address no longer resolves to a session; and when the index is
    consistent, as it is in every world a single worker reaches, no token
    issued before for the address resolves to a session any more. *)
Theorem createSession_supersedes env now token csrfToken ip a origin w ttl :
  connected w = true ->
  Js.floorDiv (envInt (SESSION_TTL_MS env) "600000") 1000 = Some ttl -> 0 < ttl ->
  let data := VSession {| ip := ip; address := a; origin := origin;
                          startedAt := now; csrfToken := csrfToken |} in
  exists w',
    createSession env now token csrfToken ip a origin w = Ok (token, csrfToken) w' /\
    trace w' =
      (trace w ++
       match peek now w (addressKey a) with
       | Some old =>
           if val_truthy old
           then [EDel (sessionKey (text old)); EDel (addressKey a)]
           else []
       | None => []
       end ++
       [ESetEx (sessionKey token) ttl data;
        ESetEx (addressKey a) ttl (VStr token)])%list /\
    kv w' !! addressKey a =
      Some {| val := VStr token; expiresAt := now + 1000 * ttl |} /\
    (addressKey a <> sessionKey token ->
     kv w' !! sessionKey token = Some {| val := data; expiresAt := now + 1000 * ttl |}) /\
    (forall old now',
       peek now w (addressKey a) = Some (VStr old) ->
       old <> "" -> old <> token ->
       getSession now' w' old = None) /\
    (indexConsistent now w ->
     forall t s now',
       getSession now w t = Some s -> address s = a -> t <> token ->
       getSession now' w' t = None).
Proof.
  intros Hc Httl Hpos data. eexists. split; [by apply createSession_connected|].
  split; [|split; [|split; [|split]]].
  - cbn [stored emit trace with_kv]. rewrite trace_superseded.
    by rewrite <- !app_assoc.
  - cbn. by rewrite lookup_insert_eq.
  - intros Hne. cbn. rewrite lookup_insert_ne by done. by rewrite lookup_insert_eq.
  - intros old now' Hidx Hne Hfresh. by apply superseded_token_gone.
  - intros Hinv t s now' Hg <- Hfresh.
    destruct (live_token_is_indexed _ _ _ _ Hinv Hg) as [Hidx Hne].
    by apply superseded_token_gone.
Qed.

Lemma createSession_supersedes_witness :
  connected Scenario.started = true /\
  indexConsistent 2000 Scenario.started /\
  getSession 2000 Scenario.started "a1" <> None /\
  exists w',
    createSession Scenario.production 2000 "b2" "d6e" "1.2.3.4" Scenario.addr None
      Scenario.started = Ok ("b2", "d6e") w' /\
    getSession 2000 w' "a1" = None.
Proof.
  assert (Hc : connected Scenario.started = true) by (vm_compute; reflexivity).
  assert (Httl : Js.floorDiv (envInt (SESSION_TTL_MS Scenario.production) "600000") 1000
                 = Some 600) by (vm_compute; reflexivity).
  assert (Hpos : 0 < 600) by lia.
  assert (Hinv : indexConsistent 2000 Scenario.started).
  { apply reachable_indexConsistent. apply (reach_later 1000); [|lia].
    apply (reach_create 1000 Scenario.empty Scenario.production "a1" "c5f" "1.2.3.4"
             Scenario.addr (Some "https://f.example")).
    - apply reach_init.
    - split; [discriminate|reflexivity].
    - exact Scenario_started_created. }
  split; [exact Hc|]. split; [exact Hinv|]. split; [vm_compute; discriminate|].
  destruct (createSession_supersedes Scenario.production 2000 "b2" "d6e" "1.2.3.4"
              Scenario.addr None Scenario.started 600 Hc Httl Hpos)
    as (w' & Hrun & _ & _ & _ & _ & Hgone).
  exists w'. split; [exact Hrun|].
  apply (Hgone Hinv "a1" (sessionData Scenario.verified));
    [vm_compute; reflexivity|reflexivity|discriminate].
Defined.

(** ** The handler of the claim route, on its own *)

(** What the handler in routes/faucet.js does by itself when the wallet
    pays for a verified session: the transfer, then the two deletions of
    [deleteSession], and nothing between them. Whatever a middleware in
    front of the handler adds, it adds before the first or after the last of
    these effects. *)
Lemma claimHandler_paid env ccx now req ctx w bal txHash :
  connected w = true ->
  peek now w (sessionKey (sessionToken ctx)) = Some (VSession (sessionData ctx)) ->
  addressMatches req ctx = true -> scoreSuffices env req = true ->
  getBalance ccx (FAUCET_ADDRESS env) = inr bal ->
  Js.lt (Some bal) (envInt (FAUCET_MIN_BALANCE env) "0") = false ->
  sendTransaction ccx (claimOpts env (address (sessionData ctx))) = inr txHash ->
  exists w',
    claimHandler env ccx now req ctx w = (Answered (claimedResponse env txHash), w') /\
    trace w' =
      (trace w ++
       [ESend (address (sessionData ctx)) (envInt (FAUCET_AMOUNT env) "1123456");
        EDel (sessionKey (sessionToken ctx));
        EDel (addressKey (address (sessionData ctx)))])%list.
Proof.
  intros Hc Hrec Ha Hsc Hbal Hmin Hsend.
  destruct (validations_pass env req ctx Ha Hsc) as (addr & Haddr & -> & _).
  rewrite (claimHandler_asked _ _ now _ _ w _ _ Ha Hsc Haddr Hbal Hmin), Hsend.
  rewrite (deleteSession_session _ _ _ (sessionData ctx)); [|done|done].
  eexists. split; [reflexivity|].
  unfold deleted, asked. cbn [trace emit with_kv]. by rewrite <- !app_assoc.
Qed.

(** ** The primitives and the scenario, evaluated *)

Example parseInt_default : Js.parseInt "600000" = Some 600000.
Proof. reflexivity. Qed.

Example parseInt_prefix : Js.parseInt " 30000ms" = Some 30000 /\ Js.parseInt "soon" = None.
Proof. split; reflexivity. Qed.

Example split_trailing : Js.split "," "a,,b," = ["a"; ""; "b"; ""].
Proof. reflexivity. Qed.

Example trim_both : Js.trim "  https://f.example   " = "https://f.example".
Proof. vm_compute. reflexivity. Qed.

Example two_frontends :
  getAllowedOrigins (Scenario.env "production" (Some "https://a.example, https://b.example,"))
  = ["https://a.example"; "https://b.example"].
Proof. vm_compute. reflexivity. Qed.

Example address_has_98_characters : String.length Scenario.addr = 98%nat.
Proof. reflexivity. Qed.

Example session_started :
  trace Scenario.started =
  [ESetEx (sessionKey "a1") 600
     (VSession {| ip := "1.2.3.4"; address := Scenario.addr;
                  origin := Some "https://f.example";
                  startedAt := 1000; csrfToken := "c5f" |});
   ESetEx (addressKey Scenario.addr) 600 (VStr "a1")].
Proof. vm_compute. reflexivity. Qed.

Example claim_paid :
  fst Scenario.claimed =
  {| status := 200;
     body := JClaimed "9f2c" (Some (Qmake 1123456 1000000));
     cookies := [ClearCookie "faucet-token"] |}.
Proof. vm_compute. reflexivity. Qed.

Example claim_from_elsewhere :
  fst (claimRoute Scenario.noLimit Scenario.production Scenario.wallet 7000
         (Scenario.claimReq "a1" "5.6.7.8") Scenario.started) = reject 403 "IP mismatch".
Proof. vm_compute. reflexivity. Qed.

Example claim_after_expiry :
  fst (claimRoute Scenario.noLimit Scenario.production Scenario.wallet 601000
         (Scenario.claimReq "a1" "1.2.3.4") Scenario.started)
  = reject 403 "Invalid or expired session token".
Proof. vm_compute. reflexivity. Qed.

Example claim_twice :
  fst (claimRoute Scenario.noLimit Scenario.production Scenario.wallet 9000
         (Scenario.claimReq "a1" "1.2.3.4") (snd Scenario.claimed))
  = reject 403 "Invalid or expired session token".
Proof. vm_compute. reflexivity. Qed.

Example claim_with_forged_csrf :
  let answer := verifySessionToken Scenario.production 7000 Scenario.forgedReq
                  Scenario.started in
  fst answer = Respond (reject 403 "Invalid request") /\
  trace (snd answer) =
  (trace Scenario.started ++
   [ELog "ABUSE"
      [("IP", Some "1.2.3.4"); ("PATH", Some "/api/claim"); ("REASON", Some "CSRF")]])%list.
Proof. vm_compute. split; reflexivity. Qed.

Example claim_from_another_origin :
  let answer := verifySessionToken Scenario.production 7000 Scenario.crossSiteReq
                  Scenario.started in
  fst answer = Respond (reject 403 "Invalid request") /\
  trace (snd answer) =
  (trace Scenario.started ++
   [ELog "ABUSE"
      [("IP", Some "1.2.3.4"); ("PATH", Some "/api/claim");
       ("REASON", Some "Origin Mismatch");
       ("SESSION_ORIGIN", Some "https://f.example");
       ("REQUEST_ORIGIN", Some "https://evil.example")]])%list.
Proof. vm_compute. split; reflexivity. Qed.

Example failed_transfer_keeps_the_session :
  let after := snd (claimRoute Scenario.noLimit Scenario.production Scenario.brokenWallet
                      7000 (Scenario.claimReq "a1" "1.2.3.4") Scenario.started) in
  trace after = (trace Scenario.started ++ [ESend Scenario.addr (Some 1123456)])%list /\
  peek 7000 after (cooldownIpKey "1.2.3.4") = None /\
  getSession 7000 after "a1" <> None.
Proof. vm_compute. repeat split; discriminate. Qed.


(** * Further properties of the sources *)

(** ** The origin guard, as a decision *)

Lemma requireTrustedOrigin_connected env req w :
  connected (snd (requireTrustedOrigin env req w)) = connected w.
Proof.
  unfold requireTrustedOrigin.
  repeat (match goal with |- context [if ?b then _ else _] => destruct b end); done.
Qed.

Lemma includes_nonempty l x : Js.includes l x = true -> l <> [].
Proof. by destruct l. Qed.

Lemma requireTrustedOrigin_passes_iff env req w :
  fst (requireTrustedOrigin env req w) = Next tt <->
  originEnforced env req = false \/
  (Js.truthy (header_origin req) = true /\
   Js.includes (allowedOrigins env) (default "" (header_origin req)) = true).
Proof.
  unfold requireTrustedOrigin, originEnforced.
  destruct (isProduction env); cbn [negb andb orb];
    destruct (Js.includes ["GET"; "HEAD"; "OPTIONS"] (method req)); cbn [negb andb orb];
    try (split; [by left|done]);
    (destruct (allowedOrigins env) as [|o l] eqn:Hl; cbn [length Z.of_nat Z.eqb];
     [split; [done|]; intros [?|[_ ?]]; done|]);
    (destruct (Js.truthy (header_origin req)); cbn [negb];
     [|split; [done|]; intros [?|[? _]]; done]);
    (destruct (Js.includes (o :: l) (default "" (header_origin req))); cbn [negb];
     [split; [by right|done]|split; [done|]; intros [?|[_ ?]]; done]).
Qed.

(** X1. The origin guard lets a request through exactly when it does not
    enforce the allow-list on it (a GET, HEAD or OPTIONS request outside
    production), or the request has an Origin header that is in the
    allow-list. With a non-empty allow-list an enforced request without an
    Origin header is answered 400 and one with an Origin that is not listed
    403, both "Invalid request", each with one line in the abuse log. The
    guard never writes to the store. *)
Theorem origin_guard_decision env req w :
  (fst (requireTrustedOrigin env req w) = Next tt <->
   originEnforced env req = false \/
   (Js.truthy (header_origin req) = true /\
    Js.includes (allowedOrigins env) (default "" (header_origin req)) = true)) /\
  (originEnforced env req = true -> allowedOrigins env <> [] ->
   Js.truthy (header_origin req) = false ->
   requireTrustedOrigin env req w =
   (Respond (reject 400 "Invalid request"),
    logSecurityEvent "ABUSE"
      [("IP", Some (clientIP req)); ("PATH", Some (originalUrl req));
       ("REASON", Some "Missing Origin")] w)) /\
  (originEnforced env req = true -> allowedOrigins env <> [] ->
   Js.truthy (header_origin req) = true ->
   Js.includes (allowedOrigins env) (default "" (header_origin req)) = false ->
   requireTrustedOrigin env req w =
   (Respond (reject 403 "Invalid request"),
    logSecurityEvent "ABUSE"
      [("IP", Some (clientIP req)); ("ORIGIN", header_origin req);
       ("PATH", Some (originalUrl req)); ("REASON", Some "Bad Origin")] w)) /\
  kv (snd (requireTrustedOrigin env req w)) = kv w.
Proof.
  split; [|split; [|split]]; [| | |apply requireTrustedOrigin_kv].
  - apply requireTrustedOrigin_passes_iff.
  - unfold requireTrustedOrigin, originEnforced. intros He Hne Ho.
    destruct (isProduction env), (Js.includes ["GET"; "HEAD"; "OPTIONS"] (method req));
      try discriminate He; cbn [negb andb];
      (destruct (allowedOrigins env); [done|]); cbn; by rewrite Ho.
  - unfold requireTrustedOrigin, originEnforced. intros He Hne Ho Hi.
    destruct (isProduction env), (Js.includes ["GET"; "HEAD"; "OPTIONS"] (method req));
      try discriminate He; cbn [negb andb];
      (destruct (allowedOrigins env) as [|o l]; [done|]);
      cbn [length Z.of_nat Z.eqb]; rewrite Ho; cbn [negb]; by rewrite Hi.
Qed.


(** ** The entries of the allow-list *)

Lemma trimStart_head s :
  match Js.trimStart s with
  | String c _ => Js.is_space c = false
  | EmptyString => True
  end.
Proof.
  induction s as [|c r IH]; [done|]. cbn [Js.trimStart].
  destruct (Js.is_space c) eqn:Hc; [exact IH|by rewrite Hc].
Qed.

Lemma trimStart_fixed s :
  match s with
  | String c _ => Js.is_space c = false
  | EmptyString => True
  end -> Js.trimStart s = s.
Proof. destruct s as [|c r]; [done|]. cbn [Js.trimStart]. by intros ->. Qed.

Lemma trimEnd_idem s : Js.trimEnd (Js.trimEnd s) = Js.trimEnd s.
Proof.
  induction s as [|c r IH]; [done|]. cbn [Js.trimEnd].
  destruct (Js.is_space c && String.eqb (Js.trimEnd r) "") eqn:Hc; [done|].
  cbn [Js.trimEnd]. by rewrite IH, Hc.
Qed.

Lemma trimEnd_head c r :
  Js.trimEnd (String c r) = "" \/ exists r', Js.trimEnd (String c r) = String c r'.
Proof.
  cbn [Js.trimEnd]. destruct (Js.is_space c && String.eqb (Js.trimEnd r) "");
    [by left|right; by eexists].
Qed.

Lemma trim_idem s : Js.trim (Js.trim s) = Js.trim s.
Proof.
  unfold Js.trim. pose proof (trimStart_head s) as Hh.
  destruct (Js.trimStart s) as [|c r] eqn:Hs; [done|].
  destruct (trimEnd_head c r) as [->|[r' Hr']]; [done|].
  rewrite Hr', trimStart_fixed by done. by rewrite <- Hr', trimEnd_idem.
Qed.

Lemma occurs_trimStart c s : occurs c s = false -> occurs c (Js.trimStart s) = false.
Proof.
  induction s as [|d r IH]; [done|]. cbn [Js.trimStart occurs]. intros H.
  apply orb_false_elim in H as [Hd Hr].
  destruct (Js.is_space d); [by apply IH|]. cbn [occurs]. by rewrite Hd, Hr.
Qed.

Lemma occurs_trimEnd c s : occurs c s = false -> occurs c (Js.trimEnd s) = false.
Proof.
  induction s as [|d r IH]; [done|]. cbn [Js.trimEnd occurs]. intros H.
  apply orb_false_elim in H as [Hd Hr].
  destruct (Js.is_space d && String.eqb (Js.trimEnd r) ""); [done|].
  cbn [occurs]. by rewrite Hd, IH.
Qed.

Lemma split_nonempty sep s : Js.split sep s <> [].
Proof.
  destruct s as [|c r]; [done|]. cbn [Js.split].
  destruct (Ascii.eqb c sep); [done|]. by destruct (Js.split sep r).
Qed.

Lemma split_no_separator sep s piece :
  In piece (Js.split sep s) -> occurs sep piece = false.
Proof.
  revert piece. induction s as [|c r IH]; intros piece.
  - cbn. intros [<-|[]]. done.
  - cbn [Js.split]. destruct (Ascii.eqb c sep) eqn:Hc.
    + intros [<-|Hin]; [done|by apply IH].
    + pose proof (split_nonempty sep r) as Hne.
      destruct (Js.split sep r) as [|h t]; [done|].
      intros [<-|Hin].
      * cbn [occurs]. rewrite Hc. cbn [orb]. apply IH. by left.
      * apply IH. by right.
Qed.

Lemma includes_In l x : Js.includes l x = true <-> In x l.
Proof.
  unfold Js.includes. rewrite existsb_exists. split.
  - intros (y & Hy & Heq). apply String.eqb_eq in Heq. by subst.
  - intros Hx. exists x. split; [done|]. apply String.eqb_refl.
Qed.

Lemma allowedOrigins_In env o :
  In o (allowedOrigins env) <->
  o <> "" /\
  exists d piece, FRONTEND_DOMAIN env = Some d /\ In piece (Js.split "," d) /\ Js.trim piece = o.
Proof.
  unfold allowedOrigins, getAllowedOrigins.
  destruct (FRONTEND_DOMAIN env) as [d|]; [|split; [done|by intros (_ & ? & ? & ? & _)]].
  destruct (String.eqb_spec d "") as [->|Hd].
  - split; [done|]. intros (Hne & d & piece & [= <-] & Hin & Ht).
    cbn in Hin. destruct Hin as [<-|[]]. by cbn in Ht.
  - rewrite <- list_elem_of_In, list_elem_of_filter, list_elem_of_fmap. split.
    + intros [Hlen (piece & -> & Hin)]. split.
      * intros E. rewrite E in Hlen. cbn in Hlen. lia.
      * exists d, piece. by rewrite <- list_elem_of_In.
    + intros (Hne & d' & piece & [= <-] & Hin & <-). split.
      * destruct (Js.trim piece); [done|]. cbn. lia.
      * exists piece. by rewrite list_elem_of_In.
Qed.

(** X2. An origin is in the allow-list exactly when it is the trimmed,
    non-empty text of one comma-separated entry of [FRONTEND_DOMAIN]. So an
    allowed origin is never empty, has no white space at either end and
    holds no comma; a request is let through by the allow-list only for an
    Origin header that equals such an entry character by character. *)
Theorem allowed_origins_entries env o :
  (Js.includes (allowedOrigins env) o = true <->
   o <> "" /\
   exists d piece,
     FRONTEND_DOMAIN env = Some d /\ In piece (Js.split "," d) /\ Js.trim piece = o) /\
  (Js.includes (allowedOrigins env) o = true ->
   Js.trim o = o /\ occurs "," o = false /\ Js.truthy (Some o) = true).
Proof.
  rewrite includes_In. split; [apply allowedOrigins_In|].
  intros (Hne & d & piece & _ & Hin & <-)%allowedOrigins_In.
  split; [apply trim_idem|]. split.
  - unfold Js.trim. apply occurs_trimEnd, occurs_trimStart.
    by apply (split_no_separator "," d).
  - cbn. by rewrite (proj2 (String.eqb_neq _ "") Hne).
Qed.

(** ** The verifier reads and logs, and nothing else *)

(** The world the verifier leaves: the one it found, or that with one more
    line in the abuse log. *)
Lemma verifySessionToken_world env now req w :
  snd (verifySessionToken env now req w) = w \/
  exists fields,
    snd (verifySessionToken env now req w) = logSecurityEvent "ABUSE" fields w /\
    fst (verifySessionToken env now req w) = Respond (reject 403 "Invalid request").
Proof.
  destruct (Js.truthy (cookie_token req)) eqn:Htok.
  2:{ left. unfold verifySessionToken, run, verifySessionToken_body. by rewrite Htok. }
  destruct (connected w) eqn:Hc.
  2:{ left. by rewrite (verifySessionToken_disconnected _ _ _ _ Hc Htok). }
  rewrite (verifySessionToken_as_chain _ _ _ _ Hc). unfold guardChain.
  destruct (firstFailure env now req w) as [c|].
  - destruct c; cbn [rejection fst snd]; try (by left); right; by eexists.
  - left. by destruct (storedRecord now req w ≫= JSON_parse).
Qed.

(** X3. Whatever it answers, the Session Verifier sends no command that
    changes the store: the keys and their values are as before. It adds
    nothing to the trace, or one line of the abuse log when it rejects for
    the CSRF or the origin check; when it lets the request through the
    world is untouched. *)
Theorem verifier_is_read_only env now req w :
  kv (snd (verifySessionToken env now req w)) = kv w /\
  connected (snd (verifySessionToken env now req w)) = connected w /\
  (trace (snd (verifySessionToken env now req w)) = trace w \/
   exists fields,
     trace (snd (verifySessionToken env now req w)) =
     (trace w ++ [ELog "ABUSE" fields])%list /\
     fst (verifySessionToken env now req w) = Respond (reject 403 "Invalid request")) /\
  (forall ctx, fst (verifySessionToken env now req w) = Next ctx ->
   snd (verifySessionToken env now req w) = w).
Proof.
  destruct (verifySessionToken_world env now req w) as [E|(fields & E & Hr)].
  - rewrite E. split; [done|]. split; [done|]. split; [by left|done].
  - rewrite E. split; [done|]. split; [done|]. split.
    + right. exists fields. by split.
    + intros ctx Hn. rewrite Hr in Hn. discriminate Hn.
Qed.


(** ** A session from start to expiry *)

Lemma truthy_Some s : s <> "" -> Js.truthy (Some s) = true.
Proof. intros H. cbn. by rewrite (proj2 (String.eqb_neq s "") H). Qed.

Lemma peek_created_session now now' token ttl a data w :
  tokenLike token ->
  peek now' (stored now (addressKey a) ttl (VStr token)
               (stored now (sessionKey token) ttl data w)) (sessionKey token) =
  if now' <? now + 1000 * ttl then Some data else None.
Proof.
  intros Htok. rewrite peek_stored_ne, peek_stored; [done|].
  intros E. by apply (sessionKey_not_addressKey token a).
Qed.

(** X4. A session that was just created is accepted back: a claim that
    presents the token and the CSRF value [createSession] returned, from
    the IP and with the Origin header the session was created for, no
    sooner than the minimum dwell time and before the TTL runs out, passes
    the verifier, which attaches exactly the session that was stored. *)
Theorem created_session_verifies env now now' token csrf ipAddr a o w ttl m req :
  connected w = true ->
  Js.floorDiv (envInt (SESSION_TTL_MS env) "600000") 1000 = Some ttl -> 0 < ttl ->
  tokenLike token -> csrf <> "" -> o <> "" ->
  envInt (MIN_SESSION_TIME_MS env) "5000" = Some m ->
  cookie_token req = Some token -> header_csrf req = Some csrf ->
  clientIP req = ipAddr -> header_origin req = Some o ->
  now + m <= now' -> now' < now + 1000 * ttl ->
  exists w',
    createSession env now token csrf ipAddr a (Some o) w = Ok (token, csrf) w' /\
    verifySessionToken env now' req w' =
    (Next {| sessionToken := token;
             sessionData := {| ip := ipAddr; address := a; origin := Some o;
                               startedAt := now; csrfToken := csrf |} |}, w').
Proof.
  intros Hc Httl Hpos Htok Hcsrf Ho Hm Hcookie Hhdr Hip Horigin Hdwell Hlive.
  eexists. split; [by apply createSession_connected|].
  match goal with |- verifySessionToken _ _ _ ?W = _ => set (w' := W) end.
  assert (Hc' : connected w' = true).
  { subst w'. cbn [connected stored emit with_kv]. by rewrite connected_superseded. }
  rewrite (verifySessionToken_as_chain _ _ _ _ Hc').
  unfold guardChain, firstFailure, guardOrder. cbn [List.find passes].
  unfold storedRecord, presentedToken. rewrite Hcookie.
  cbn [default from_option id]. rewrite (truthy_Some token) by apply Htok.
  subst w'. rewrite (peek_created_session _ _ _ _ _ _ _ Htok).
  rewrite (proj2 (Z.ltb_lt _ _) Hlive).
  cbn [from_option mbind option_bind JSON_parse negb]. rewrite session_truthy. cbn [negb].
  unfold csrf_ok, dwell_ok, ip_ok, origin_ok. cbn [csrfToken startedAt ip origin].
  rewrite Hhdr, Hm, Hip, Horigin. cbn [Js.strict_eq Js.lt opt_eqb].
  rewrite !String.eqb_refl, !(truthy_Some _ Hcsrf), !(truthy_Some _ Ho).
  assert (Hnot : (now' - now <? m) = false) by (apply Z.ltb_ge; lia).
  rewrite Hnot. cbn [negb andb orb].
  by destruct (isProduction env).
Qed.

Lemma created_session_verifies_witness :
  exists w',
    createSession Scenario.production 1000 "a1" "c5f" "1.2.3.4" Scenario.addr
      (Some "https://f.example") Scenario.empty = Ok ("a1", "c5f") w' /\
    verifySessionToken Scenario.production 6000 (Scenario.claimReq "a1" "1.2.3.4") w' =
    (Next Scenario.verified, w').
Proof.
  apply (created_session_verifies Scenario.production 1000 6000 "a1" "c5f" "1.2.3.4"
           Scenario.addr "https://f.example" Scenario.empty 600 5000
           (Scenario.claimReq "a1" "1.2.3.4"));
    first [reflexivity | lia | discriminate | split; [discriminate|reflexivity]].
Defined.

(** X5. The session record and its address-index entry expire together:
    at any time one can be read exactly when the other can, and neither
    once [ttlSeconds] seconds have passed since the session was created.
    From then on a claim that presents the token is answered 403 "Invalid or
    expired session token", whatever else it carries. *)
Theorem session_expires_with_its_index env now now' token csrf ipAddr a o w ttl req :
  connected w = true ->
  Js.floorDiv (envInt (SESSION_TTL_MS env) "600000") 1000 = Some ttl -> 0 < ttl ->
  tokenLike token ->
  cookie_token req = Some token ->
  exists w',
    createSession env now token csrf ipAddr a o w = Ok (token, csrf) w' /\
    (is_Some (peek now' w' (sessionKey token)) <-> is_Some (peek now' w' (addressKey a))) /\
    (is_Some (peek now' w' (sessionKey token)) <-> now' < now + 1000 * ttl) /\
    (now + 1000 * ttl <= now' ->
     verifySessionToken env now' req w' =
     (Respond (reject 403 "Invalid or expired session token"), w')).
Proof.
  intros Hc Httl Hpos Htok Hcookie.
  eexists. split; [by apply createSession_connected|].
  rewrite (peek_created_session _ _ _ _ _ _ _ Htok), peek_stored.
  assert (Hiff : forall A (x : A), is_Some (if now' <? now + 1000 * ttl then Some x else None)
                            <-> now' < now + 1000 * ttl).
  { intros A x. destruct (Z.ltb_spec now' (now + 1000 * ttl)).
    - split; [done|by eexists].
    - split; [by intros [? ?]|lia]. }
  split; [by rewrite !Hiff|]. split; [apply Hiff|].
  intros Hexp. apply (verifySessionToken_absent _ _ _ _ token); [|done|apply Htok|].
  - cbn [connected stored emit with_kv]. by rewrite connected_superseded.
  - rewrite (peek_created_session _ _ _ _ _ _ _ Htok).
    by rewrite (proj2 (Z.ltb_ge _ _) Hexp).
Qed.

Lemma session_expires_with_its_index_witness :
  exists w',
    createSession Scenario.production 1000 "a1" "c5f" "1.2.3.4" Scenario.addr
      (Some "https://f.example") Scenario.empty = Ok ("a1", "c5f") w' /\
    (is_Some (peek 601000 w' (sessionKey "a1")) <->
     is_Some (peek 601000 w' (addressKey Scenario.addr))) /\
    (is_Some (peek 601000 w' (sessionKey "a1")) <-> 601000 < 1000 + 1000 * 600) /\
    (1000 + 1000 * 600 <= 601000 ->
     verifySessionToken Scenario.production 601000 (Scenario.claimReq "a1" "1.2.3.4") w' =
     (Respond (reject 403 "Invalid or expired session token"), w')).
Proof.
  apply (session_expires_with_its_index Scenario.production 1000 601000 "a1" "c5f"
           "1.2.3.4" Scenario.addr (Some "https://f.example") Scenario.empty 600
           (Scenario.claimReq "a1" "1.2.3.4"));
    first [reflexivity | lia | split; [discriminate|reflexivity]].
Defined.

(** X6. Creating a session and deleting it again leaves the store as it
    was: when the store held nothing under the token and nothing for the
    address, [deleteSession] of the token [createSession] returned, called
    before the session expires, removes both keys that were written. *)
Theorem create_then_delete_restores env now now' token csrf ipAddr a o w ttl :
  connected w = true ->
  Js.floorDiv (envInt (SESSION_TTL_MS env) "600000") 1000 = Some ttl -> 0 < ttl ->
  tokenLike token ->
  kv w !! sessionKey token = None -> kv w !! addressKey a = None ->
  now' < now + 1000 * ttl ->
  exists w1 w2,
    createSession env now token csrf ipAddr a o w = Ok (token, csrf) w1 /\
    deleteSession now' token w1 = Ok tt w2 /\
    kv w2 = kv w.
Proof.
  intros Hc Httl Hpos Htok Hs Ha Hlive.
  assert (Hsup : superseded now a w = w).
  { unfold superseded, peek. by rewrite Ha. }
  eexists. eexists. split; [by apply createSession_connected|]. rewrite Hsup.
  split.
  - apply deleteSession_session; [done|].
    rewrite (peek_created_session _ _ _ _ _ _ _ Htok).
    by rewrite (proj2 (Z.ltb_lt _ _) Hlive).
  - cbn [kv deleted stored emit with_kv address].
    assert (Hne : sessionKey token <> addressKey a)
      by (by apply sessionKey_not_addressKey).
    rewrite (delete_insert_ne _ _ _ _ Hne).
    rewrite (delete_insert_id _ _ _ Hs).
    by rewrite (delete_insert_id _ _ _ Ha).
Qed.

Lemma create_then_delete_restores_witness :
  exists w1 w2,
    createSession Scenario.production 1000 "a1" "c5f" "1.2.3.4" Scenario.addr
      (Some "https://f.example") Scenario.empty = Ok ("a1", "c5f") w1 /\
    deleteSession 7000 "a1" w1 = Ok tt w2 /\
    kv w2 = kv Scenario.empty.
Proof.
  apply (create_then_delete_restores Scenario.production 1000 7000 "a1" "c5f" "1.2.3.4"
           Scenario.addr (Some "https://f.example") Scenario.empty 600);
    first [reflexivity | lia | split; [discriminate|reflexivity]].
Defined.

(** X7. At most one live token per address: in every world a single
    worker reaches, two tokens that resolve to sessions of one address are
    the same token, and the address index holds it. *)
Theorem one_live_token_per_address now w t1 t2 s1 s2 :
  reachable now w ->
  getSession now w t1 = Some s1 -> getSession now w t2 = Some s2 ->
  address s1 = address s2 ->
  t1 = t2 /\ s1 = s2 /\ peek now w (addressKey (address s1)) = Some (VStr t1).
Proof.
  intros Hr H1 H2 Ha. apply reachable_indexConsistent in Hr.
  destruct (live_token_is_indexed _ _ _ _ Hr H1) as [I1 _].
  destruct (live_token_is_indexed _ _ _ _ Hr H2) as [I2 _].
  rewrite <- Ha, I1 in I2. injection I2 as <-.
  split; [done|]. split; [|done]. congruence.
Qed.

Lemma one_live_token_per_address_witness :
  reachable 2000 Scenario.started /\
  getSession 2000 Scenario.started "a1" = Some (sessionData Scenario.verified) /\
  peek 2000 Scenario.started (addressKey Scenario.addr) = Some (VStr "a1").
Proof.
  assert (Hr : reachable 2000 Scenario.started).
  { apply (reach_later 1000); [|lia].
    apply (reach_create 1000 Scenario.empty Scenario.production "a1" "c5f" "1.2.3.4"
             Scenario.addr (Some "https://f.example")).
    - apply reach_init.
    - split; [discriminate|reflexivity].
    - exact Scenario_started_created. }
  assert (Hs : getSession 2000 Scenario.started "a1" = Some (sessionData Scenario.verified))
    by (vm_compute; reflexivity).
  split; [exact Hr|]. split; [exact Hs|].
  exact (proj2 (proj2 (one_live_token_per_address 2000 Scenario.started "a1" "a1"
                         (sessionData Scenario.verified) (sessionData Scenario.verified)
                         Hr Hs Hs eq_refl))).
Defined.

(** ** Starting a session *)

(** [createSession] in closed form: what the configured TTL and the
    connection make of it. *)
Lemma createSession_cases env now token csrf ip a o w :
  createSession env now token csrf ip a o w =
  if connected w then
    match Js.floorDiv (envInt (SESSION_TTL_MS env) "600000") 1000 with
    | Some ttl =>
        if 0 <? ttl
        then Ok (token, csrf)
               (stored now (addressKey a) ttl (VStr token)
                  (stored now (sessionKey token) ttl
                     (VSession {| ip := ip; address := a; origin := o;
                                  startedAt := now; csrfToken := csrf |})
                     (superseded now a w)))
        else Throw RedisError (superseded now a w)
    | None => Throw RedisError (superseded now a w)
    end
  else Throw RedisError w.
Proof.
  unfold createSession, bind. destruct (connected w) eqn:Hc.
  - rewrite (deleteSessionsForAddress_connected _ _ _ Hc).
    unfold Promise_all2, bind.
    destruct (Js.floorDiv (envInt (SESSION_TTL_MS env) "600000") 1000) as [ttl|]; [|done].
    destruct (Z.ltb_spec 0 ttl) as [Hpos|Hneg].
    + rewrite redis_setEx_connected; [|by rewrite connected_superseded|done].
      rewrite redis_setEx_connected; [done| |done].
      change (connected (superseded now a w) = true).
      by rewrite connected_superseded.
    + unfold redis_setEx. rewrite connected_superseded, Hc. cbn [andb].
      by destruct (Z.ltb_spec 0 ttl); [lia|].
  - unfold deleteSessionsForAddress, bind, redis_get. by rewrite Hc.
Qed.

Lemma invalidAddress_dec a :
  invalidAddress a \/
  exists s, a = Some s /\ String.prefix "ccx7" s = true /\ String.length s = 98%nat.
Proof.
  destruct a as [s|]; [|by left]. cbn.
  destruct (String.prefix "ccx7" s) eqn:Hp; [|by left; left].
  destruct (decide (String.length s = 98%nat)) as [Hl|Hl]; [|by left; right].
  right. by exists s.
Qed.

(** X8. Every session the start-game route creates is for an address of
    the right format, carries the client IP and the start time, and is bound
    to the Origin header of the request (to none when the header is absent
    or empty). In production that origin is one of the allow-list. The
    cookie's max-age is the configured TTL in milliseconds, the store's TTL
    that TTL in whole seconds: the cookie never expires before the session
    record, and outlives it by less than a second. *)
Theorem started_session_is_bound env now token csrf req w r w' :
  startGameRoute env now token csrf req w = (r, w') -> isSuccess r = true ->
  exists a ttl ms,
    query_address req = Some (QString a) /\
    String.prefix "ccx7" a = true /\ String.length a = 98%nat /\
    envInt (SESSION_TTL_MS env) "600000" = Some ms /\
    0 < ttl /\ 1000 * ttl <= ms < 1000 * ttl + 1000 /\
    r = {| status := 200; body := JSessionStarted csrf;
           cookies := [SetCookie "faucet-token" token (Some ms)] |} /\
    w' = stored now (addressKey a) ttl (VStr token)
           (stored now (sessionKey token) ttl
              (VSession {| ip := clientIP req; address := a;
                           origin := Js.or_else (header_origin req) None;
                           startedAt := now; csrfToken := csrf |})
              (superseded now a w)) /\
    (isProduction env = true ->
     exists o, header_origin req = Some o /\
               Js.or_else (header_origin req) None = Some o /\
               Js.includes (allowedOrigins env) o = true).
Proof.
  unfold startGameRoute. intros Hrun Hs.
  destruct (requireTrustedOrigin env req w) as [[r0|[]] w1] eqn:Ho.
  { apply requireTrustedOrigin_rejects in Ho. injection Hrun as <- _. congruence. }
  pose proof Ho as Hw1. apply requireTrustedOrigin_passed in Hw1 as ->.
  destruct (query_address req) as [[s|items|fields]|] eqn:Hq.
  2:{ rewrite (proj1 (startGameHandler_not_a_string _ _ _ _ _ _) items Hq) in Hrun.
      injection Hrun as <- _. discriminate Hs. }
  2:{ rewrite (proj2 (startGameHandler_not_a_string _ _ _ _ _ _) fields Hq) in Hrun.
      injection Hrun as <- _. discriminate Hs. }
  2:{ rewrite (invalidAddress_rejected _ _ _ _ _ _ None Hq I) in Hrun.
      injection Hrun as <- _. discriminate Hs. }
  destruct (invalidAddress_dec (Some s)) as [Hbad|(a & [= <-] & Hp & Hl)].
  { rewrite (invalidAddress_rejected _ _ _ _ _ _ (Some s) Hq Hbad) in Hrun.
    injection Hrun as <- _. discriminate Hs. }
  rewrite (startGameHandler_valid _ _ _ _ _ _ _ Hq Hp Hl) in Hrun.
  unfold run, bind in Hrun. rewrite createSession_cases in Hrun.
  destruct (connected w); [|injection Hrun as <- _; discriminate Hs].
  destruct (envInt (SESSION_TTL_MS env) "600000") as [ms|] eqn:Hms;
    [|injection Hrun as <- _; discriminate Hs].
  cbn [Js.floorDiv fmap option_fmap option_map] in Hrun.
  destruct (Z.ltb_spec 0 (ms / 1000)) as [Hpos|Hneg];
    [|injection Hrun as <- _; discriminate Hs].
  cbn [fst snd] in Hrun. unfold res_cookie in Hrun.
  destruct (Z.abs (now + ms) <=? maxTime);
    [|injection Hrun as <- _; discriminate Hs].
  cbn [ret fst snd] in Hrun. injection Hrun as <- <-.
  exists s, (ms / 1000), ms. repeat (split; [done|]).
  split; [|split; [done|split; [done|]]].
  - split.
    + apply Z.mul_div_le. lia.
    + pose proof (Z.mod_pos_bound ms 1000). pose proof (Z.div_mod ms 1000). lia.
  - intros Hprod.
    destruct (proj1 (requireTrustedOrigin_passes_iff env req w) ltac:(by rewrite Ho))
      as [He|[Ht Hi]].
    + unfold originEnforced in He. by rewrite Hprod in He.
    + destruct (header_origin req) as [o|]; [|done]. exists o.
      split; [done|]. split; [|done]. unfold Js.or_else. by rewrite Ht.
Qed.

Lemma started_session_is_bound_witness :
  isSuccess (fst (startGameRoute Scenario.production 1000 "a1" "c5f"
                    (Scenario.startReq (Some Scenario.addr)) Scenario.empty)) = true /\
  exists a ttl ms,
    query_address (Scenario.startReq (Some Scenario.addr)) = Some (QString a) /\
    envInt (SESSION_TTL_MS Scenario.production) "600000" = Some ms /\
    0 < ttl /\ 1000 * ttl <= ms < 1000 * ttl + 1000 /\
    Js.includes (allowedOrigins Scenario.production) "https://f.example" = true.
Proof.
  assert (Hs : isSuccess (fst (startGameRoute Scenario.production 1000 "a1" "c5f"
                                 (Scenario.startReq (Some Scenario.addr)) Scenario.empty))
               = true) by (vm_compute; reflexivity).
  split; [exact Hs|].
  destruct (started_session_is_bound Scenario.production 1000 "a1" "c5f"
              (Scenario.startReq (Some Scenario.addr)) Scenario.empty _ _
              (surjective_pairing _) Hs)
    as (a & ttl & ms & Ha & _ & _ & Hms & Hpos & Hb & _ & _ & _).
  exists a, ttl, ms. split; [exact Ha|]. split; [exact Hms|].
  split; [exact Hpos|]. split; [exact Hb|]. reflexivity.
Defined.

(** X9. A TTL setting the store refuses (not a number, or less than a
    second) makes every well-formed start-game request fail with the 500 of
    the handler, after the address's earlier session was deleted: the old
    session is lost and none replaces it. *)
Theorem start_game_with_bad_ttl env now token csrf req w a :
  connected w = true ->
  fst (requireTrustedOrigin env req w) = Next tt ->
  query_address req = Some (QString a) ->
  String.prefix "ccx7" a = true -> String.length a = 98%nat ->
  match envInt (SESSION_TTL_MS env) "600000" with
  | Some ms => ms < 1000
  | None => True
  end ->
  startGameRoute env now token csrf req w =
    (Answered (reject 500 "Failed to create session"), superseded now a w) /\
  forall old, peek now w (addressKey a) = Some old -> val_truthy old = true ->
              peek now (superseded now a w) (addressKey a) = None /\
              peek now (superseded now a w) (sessionKey (text old)) = None.
Proof.
  intros Hc Ho Ha Hp Hl Httl. split.
  - unfold startGameRoute.
    destruct (requireTrustedOrigin env req w) as [[r0|[]] w1] eqn:Hg; [done|].
    apply requireTrustedOrigin_passed in Hg as ->.
    rewrite (startGameHandler_valid _ _ _ _ _ _ _ Ha Hp Hl).
    unfold run, bind. rewrite createSession_cases, Hc.
    destruct (envInt (SESSION_TTL_MS env) "600000") as [ms|]; [|done].
    cbn [Js.floorDiv fmap option_fmap option_map].
    destruct (Z.ltb_spec 0 (ms / 1000)) as [Hpos|Hneg]; [|done].
    exfalso. assert (ms / 1000 <= 0); [|lia].
    destruct (Z.le_gt_cases 0 ms); [rewrite Z.div_small by lia; lia|].
    apply Z.div_le_upper_bound; lia.
  - intros old Hk Hv. unfold superseded. rewrite Hk, Hv. split.
    + apply peek_deleted.
    + destruct (decide (addressKey a = sessionKey (text old))) as [<-|Hne].
      * apply peek_deleted.
      * rewrite peek_deleted_ne by done. apply peek_deleted.
Qed.

Lemma start_game_with_bad_ttl_witness :
  envInt (SESSION_TTL_MS Deployment.shortTtl) "600000" = Some 500 /\
  startGameRoute Deployment.shortTtl 2000 "b2" "d6e"
    (Scenario.startReq (Some Scenario.addr)) Scenario.started =
  (Answered (reject 500 "Failed to create session"),
   superseded 2000 Scenario.addr Scenario.started) /\
  peek 2000 (superseded 2000 Scenario.addr Scenario.started) (sessionKey "a1") = None.
Proof.
  assert (Hc : connected Scenario.started = true) by (vm_compute; reflexivity).
  assert (Ho : fst (requireTrustedOrigin Deployment.shortTtl
                      (Scenario.startReq (Some Scenario.addr)) Scenario.started) = Next tt)
    by (vm_compute; reflexivity).
  assert (Hp : String.prefix "ccx7" Scenario.addr = true) by reflexivity.
  assert (Hl : String.length Scenario.addr = 98%nat) by reflexivity.
  assert (Httl : match envInt (SESSION_TTL_MS Deployment.shortTtl) "600000" with
                 | Some ms => ms < 1000
                 | None => True
                 end) by (vm_compute; reflexivity).
  assert (Hk : peek 2000 Scenario.started (addressKey Scenario.addr) = Some (VStr "a1"))
    by (vm_compute; reflexivity).
  split; [vm_compute; reflexivity|].
  destruct (start_game_with_bad_ttl Deployment.shortTtl 2000 "b2" "d6e"
              (Scenario.startReq (Some Scenario.addr)) Scenario.started Scenario.addr
              Hc Ho eq_refl Hp Hl Httl) as [Hrun Hgone].
  split; [exact Hrun|].
  exact (proj2 (Hgone (VStr "a1") Hk eq_refl)).
Defined.

(** ** The claim handler *)

Lemma addressMatches_false req ctx :
  addressMatches req ctx = false <->
  body_address req <> Some (address (sessionData ctx)) \/
  address (sessionData ctx) = "".
Proof.
  unfold addressMatches, Js.truthy, Js.strict_eq.
  destruct (body_address req) as [a|].
  2:{ split; [by left|done]. }
  destruct (String.eqb_spec a (address (sessionData ctx))) as [->|Hne].
  2:{ rewrite andb_false_r. split; [left; congruence|done]. }
  destruct (String.eqb_spec (address (sessionData ctx)) "") as [He|Hne].
  { split; [by right|done]. }
  split; [done|]. by intros [?|?].
Qed.

(** The falsy values of a JSON body: an absent one, [null], [false], a
    zero and the empty text. *)
Lemma ToBoolean_false score :
  ToBoolean score = false <->
  score = None \/ score = Some JsonNull \/ score = Some (JsonBool false) \/
  score = Some (JsonString "") \/
  exists q, score = Some (JsonNumber (Finite q)) /\ Qnum q = 0.
Proof.
  destruct score as [[|[]|[q|negative]|s|items|fields]|]; cbn.
  - split; [by right; left|done].
  - split; [done|]. intros [?|[?|[?|[?|(? & ? & _)]]]]; done.
  - split; [by right; right; left|done].
  - destruct (Z.eqb_spec (Qnum q) 0) as [Hz|Hz]; cbn [negb].
    + split; [|done]. intros _. right; right; right; right. by exists q.
    + split; [done|]. intros [?|[?|[?|[?|(? & [= <-] & ?)]]]]; done.
  - split; [done|]. intros [?|[?|[?|[?|(? & ? & _)]]]]; done.
  - destruct (String.eqb_spec s "") as [->|Hs]; cbn [negb].
    + split; [|done]. intros _. by right; right; right; left.
    + split; [done|]. intros [?|[?|[?|[?|(? & ? & _)]]]]; try done. congruence.
  - split; [done|]. intros [?|[?|[?|[?|(? & ? & _)]]]]; done.
  - split; [done|]. intros [?|[?|[?|[?|(? & ? & _)]]]]; done.
  - split; [by left|done].
Qed.

Lemma lessThan_true v n :
  lessThan v n = Some true <->
  exists x m, ToNumber v = Num x /\ n = Some m /\ numberLt x m = true.
Proof.
  unfold lessThan. destruct (ToNumber v) as [| |x].
  - split; [done|]. by intros (? & ? & ? & _).
  - split; [done|]. by intros (? & ? & ? & _).
  - destruct n as [m|].
    + split.
      * intros [= H]. by exists x, m.
      * intros (? & ? & [= <-] & [= <-] & ->). done.
    + split; [done|]. by intros (? & ? & _ & ? & _).
Qed.

Lemma scoreRejected_true score n :
  scoreRejected score n = Some true <->
  ToBoolean score = false \/
  exists x m, ToNumber (default JsonNull score) = Num x /\ n = Some m /\
              numberLt x m = true.
Proof.
  unfold scoreRejected. destruct (ToBoolean score); cbn [negb].
  - rewrite lessThan_true. split; [by right|]. by intros [?|?].
  - split; [by left|done].
Qed.

Lemma scoreRejected_throws score n :
  scoreRejected score n = None <->
  ToBoolean score = true /\ ToNumber (default JsonNull score) = Throws.
Proof.
  unfold scoreRejected, lessThan. destruct (ToBoolean score); cbn [negb].
  - destruct (ToNumber (default JsonNull score)); split; (done || by intros [_ ?]).
  - split; [done|]. by intros [? _].
Qed.

Lemma scoreSuffices_true env req :
  scoreSuffices env req = true <->
  ToBoolean (body_score req) = true /\
  lessThan (default JsonNull (body_score req)) (envInt (MIN_SCORE env) "1000") = Some false.
Proof.
  unfold scoreSuffices, scoreRejected.
  destruct (ToBoolean (body_score req)); cbn [negb]; [|by split; [|intros [? _]]].
  destruct (lessThan _ _) as [[]|]; split; (done || by intros [_ ?]).
Qed.

Lemma claimHandler_invalid env ccx now req ctx w :
  addressMatches req ctx = false \/
  scoreRejected (body_score req) (envInt (MIN_SCORE env) "1000") = Some true ->
  claimHandler env ccx now req ctx w =
  (Answered (reject 400 "Invalid request"),
   logSecurityEvent "ABUSE"
     [("IP", Some (clientIP req)); ("ADDR", body_address req);
      ("REASON", Some "Validation")] w).
Proof.
  unfold addressMatches, claimHandler. intros H.
  destruct (Js.truthy (body_address req)); [|done].
  destruct (Js.strict_eq (body_address req) (address (sessionData ctx))); [|done].
  cbn [negb orb andb] in *. destruct H as [H|H]; [done|]. by rewrite H.
Qed.

Lemma claimHandler_throws env ccx now req ctx w :
  addressMatches req ctx = true ->
  scoreRejected (body_score req) (envInt (MIN_SCORE env) "1000") = None ->
  claimHandler env ccx now req ctx w = (Uncaught TypeError, w).
Proof.
  unfold addressMatches, claimHandler. intros Ha H.
  apply andb_prop in Ha as [-> ->]. cbn [negb orb]. by rewrite H.
Qed.

(** The handler once the request is valid: what the wallet says decides. *)
Lemma claimHandler_valid env ccx now req ctx w :
  addressMatches req ctx = true -> scoreSuffices env req = true ->
  claimHandler env ccx now req ctx w =
  match getBalance ccx (FAUCET_ADDRESS env) with
  | inl message => (Answered (paymentFailed (WalletError message)), w)
  | inr bal =>
      if Js.lt (Some bal) (envInt (FAUCET_MIN_BALANCE env) "0")
      then (Answered (reject 503 "Not enough funds in Faucet"), w)
      else
        match sendTransaction ccx (claimOpts env (address (sessionData ctx))) with
        | inr h =>
            match deleteSession now (sessionToken ctx)
                    (asked env (address (sessionData ctx)) w) with
            | Ok _ w' => (Answered (claimedResponse env h), w')
            | Throw e w' => (Answered (paymentFailed e), w')
            end
        | inl message =>
            (Answered (paymentFailed (WalletError message)),
             asked env (address (sessionData ctx)) w)
        end
  end.
Proof.
  intros Ha Hs.
  destruct (validations_pass _ _ _ Ha Hs) as (addr & Hb & -> & _ & _).
  destruct (getBalance ccx (FAUCET_ADDRESS env)) as [m|bal] eqn:Hbal.
  - destruct (validations_pass _ _ _ Ha Hs) as (? & _ & _ & H1 & H2).
    unfold claimHandler. rewrite H1, H2.
    unfold run, bind, ccx_getBalance. by rewrite Hbal.
  - destruct (Js.lt (Some bal) (envInt (FAUCET_MIN_BALANCE env) "0")) eqn:Hlt.
    + destruct (validations_pass _ _ _ Ha Hs) as (? & _ & _ & H1 & H2).
      unfold claimHandler. rewrite H1, H2.
      unfold run, bind, ccx_getBalance. by rewrite Hbal, Hlt.
    + apply (claimHandler_asked _ _ _ _ _ _ _ _ Ha Hs Hb Hbal Hlt).
Qed.

(** X10. The claim handler answers 400 "Invalid request" exactly when the
    request does not name the address of its session (or that address is
    empty), or the score is falsy (absent, [null], [false], a zero or the
    empty text), or the number the score converts to is below a MIN_SCORE
    that parses. The answer and the log line are the same whichever test
    failed, the world is otherwise as before, and the wallet is not
    consulted. A score that converts to no number passes the test: a text
    that is no number, and an object without a [toString] of its own; and
    no truthy score is rejected when MIN_SCORE does not parse. When the
    address matches and converting a truthy score throws (an object or an
    array item with a [toString] of its own), the handler throws outside
    its [try] block and answers nothing, leaving the world as it was. *)
Theorem claim_validation_answer env ccx now req ctx w :
  let score := body_score req in
  let minScore := envInt (MIN_SCORE env) "1000" in
  (fst (claimHandler env ccx now req ctx w) = Answered (reject 400 "Invalid request") <->
   body_address req <> Some (address (sessionData ctx)) \/
   address (sessionData ctx) = "" \/
   ToBoolean score = false \/
   (exists x m, ToNumber (default JsonNull score) = Num x /\ minScore = Some m /\
                numberLt x m = true)) /\
  (fst (claimHandler env ccx now req ctx w) = Answered (reject 400 "Invalid request") ->
   claimHandler env ccx now req ctx w =
   (Answered (reject 400 "Invalid request"),
    logSecurityEvent "ABUSE"
      [("IP", Some (clientIP req)); ("ADDR", body_address req);
       ("REASON", Some "Validation")] w)) /\
  (ToBoolean score = false <->
   score = None \/ score = Some JsonNull \/ score = Some (JsonBool false) \/
   score = Some (JsonString "") \/
   exists q, score = Some (JsonNumber (Finite q)) /\ Qnum q = 0) /\
  (forall s, s <> "" -> StringToNumber s = None ->
             scoreRejected (Some (JsonString s)) minScore = Some false) /\
  (forall fields, hasOwn "toString" fields = false ->
                  scoreRejected (Some (JsonObject fields)) minScore = Some false) /\
  (minScore = None -> ToBoolean score = true ->
   scoreRejected score minScore <> Some true) /\
  (fst (claimHandler env ccx now req ctx w) = Uncaught TypeError <->
   addressMatches req ctx = true /\ ToBoolean score = true /\
   ToNumber (default JsonNull score) = Throws) /\
  (fst (claimHandler env ccx now req ctx w) = Uncaught TypeError ->
   snd (claimHandler env ccx now req ctx w) = w).
Proof.
  intros score minScore.
  assert (Hvalid : addressMatches req ctx = true ->
                   scoreRejected score minScore = Some false ->
                   exists r, fst (claimHandler env ccx now req ctx w) = Answered r /\
                             r <> reject 400 "Invalid request").
  { intros Ha Hs.
    assert (Hs' : scoreSuffices env req = true).
    { unfold scoreSuffices. fold score minScore. by rewrite Hs. }
    rewrite (claimHandler_valid _ _ _ _ _ _ Ha Hs').
    destruct (getBalance ccx (FAUCET_ADDRESS env)) as [m|bal]; [by eexists|].
    destruct (Js.lt (Some bal) (envInt (FAUCET_MIN_BALANCE env) "0")); [by eexists|].
    destruct (sendTransaction ccx _) as [m|h]; [by eexists|].
    destruct (deleteSession now _ _); by eexists. }
  assert (H400 : fst (claimHandler env ccx now req ctx w) =
                   Answered (reject 400 "Invalid request") <->
                 addressMatches req ctx = false \/
                 scoreRejected score minScore = Some true).
  { split.
    - intros Hr. destruct (addressMatches req ctx) eqn:Ha; [|by left].
      destruct (scoreRejected score minScore) as [[]|] eqn:Hs; [by right| |].
      + destruct (Hvalid eq_refl eq_refl) as (r & Er & Hne).
        rewrite Er in Hr. by injection Hr as ->.
      + by rewrite (claimHandler_throws _ _ _ _ _ _ Ha Hs) in Hr.
    - intros H. by rewrite (claimHandler_invalid _ _ _ _ _ _ H). }
  assert (Hthrow : fst (claimHandler env ccx now req ctx w) = Uncaught TypeError <->
                   addressMatches req ctx = true /\ scoreRejected score minScore = None).
  { split.
    - intros Hr. destruct (addressMatches req ctx) eqn:Ha.
      + split; [done|].
        destruct (scoreRejected score minScore) as [[]|] eqn:Hs; [| |done].
        * by rewrite (claimHandler_invalid _ _ _ _ _ _ (or_intror Hs)) in Hr.
        * destruct (Hvalid eq_refl eq_refl) as (r & Er & _). by rewrite Er in Hr.
      + by rewrite (claimHandler_invalid _ _ _ _ _ _ (or_introl Ha)) in Hr.
    - intros [Ha Hs]. by rewrite (claimHandler_throws _ _ _ _ _ _ Ha Hs). }
  split; [|split; [|split; [|split; [|split; [|split; [|split]]]]]].
  - rewrite H400, addressMatches_false, scoreRejected_true. tauto.
  - intros Hr. apply claimHandler_invalid. by apply H400.
  - apply ToBoolean_false.
  - intros s Hs Hn. unfold scoreRejected, lessThan. cbn.
    destruct (String.eqb_spec s "") as [|_]; [done|]. cbn [negb]. by rewrite Hn.
  - intros fields Hf. unfold scoreRejected, lessThan. cbn. by rewrite Hf.
  - intros Hm Ht. rewrite scoreRejected_true. intros [Hf|(x & m & _ & Hm' & _)]; congruence.
  - rewrite Hthrow, scoreRejected_throws. tauto.
  - intros Hr. apply Hthrow in Hr as [Ha Hs].
    by rewrite (claimHandler_throws _ _ _ _ _ _ Ha Hs).
Qed.

(** The scores [abc] and [{ n: 1 }] pay; [0x10] and [[500]] are
    compared as 16 and 500; [{ toString: 1 }] makes the handler throw. *)
Example claim_with_a_text_for_score :
  fst (claimHandler Scenario.production Scenario.wallet 7000
         (Deployment.claimWith (Some (JsonString "abc"))) Scenario.verified
         Scenario.started) = Answered (claimedResponse Scenario.production "9f2c") /\
  fst (claimHandler Scenario.production Scenario.wallet 7000
         (Deployment.claimWith (Some (JsonObject [("n", JsonInt 1)]))) Scenario.verified
         Scenario.started) = Answered (claimedResponse Scenario.production "9f2c").
Proof. split; vm_compute; reflexivity. Qed.

Example claim_with_a_converted_score :
  fst (claimHandler Scenario.production Scenario.wallet 7000
         (Deployment.claimWith (Some (JsonString "0x10"))) Scenario.verified
         Scenario.started) = Answered (reject 400 "Invalid request") /\
  fst (claimHandler Scenario.production Scenario.wallet 7000
         (Deployment.claimWith (Some (JsonArray [JsonInt 500]))) Scenario.verified
         Scenario.started) = Answered (reject 400 "Invalid request") /\
  fst (claimHandler Scenario.production Scenario.wallet 7000
         (Deployment.claimWith (Some (JsonString " 1.5e3 "))) Scenario.verified
         Scenario.started) = Answered (claimedResponse Scenario.production "9f2c") /\
  fst (claimHandler Scenario.production Scenario.wallet 7000
         (Deployment.claimWith (Some (JsonBool true))) Scenario.verified
         Scenario.started) = Answered (reject 400 "Invalid request").
Proof. repeat split; vm_compute; reflexivity. Qed.

Example claim_with_an_unconvertible_score :
  claimHandler Scenario.production Scenario.wallet 7000
    (Deployment.claimWith (Some (JsonObject [("toString", JsonInt 1)]))) Scenario.verified
    Scenario.started = (Uncaught TypeError, Scenario.started).
Proof. reflexivity. Qed.

(** ** Transfers asked of the wallet *)

Lemma transfersIn_log kind fields w :
  transfersIn (trace (logSecurityEvent kind fields w)) = transfersIn (trace w).
Proof.
  unfold transfersIn, logSecurityEvent. cbn [trace emit].
  rewrite List.filter_app, length_app. cbn. lia.
Qed.

Lemma transfersIn_asked env a w :
  transfersIn (trace (asked env a w)) = S (transfersIn (trace w)).
Proof.
  unfold transfersIn, asked. cbn [trace emit].
  rewrite List.filter_app, length_app. cbn. lia.
Qed.

Lemma transfersIn_stored now key ttl v w :
  transfersIn (trace (stored now key ttl v w)) = transfersIn (trace w).
Proof.
  unfold transfersIn, stored. cbn [trace emit with_kv].
  rewrite List.filter_app, length_app. cbn. lia.
Qed.

Lemma transfersIn_deleted key w :
  transfersIn (trace (deleted key w)) = transfersIn (trace w).
Proof.
  unfold transfersIn, deleted. cbn [trace emit with_kv].
  rewrite List.filter_app, length_app. cbn. lia.
Qed.

Lemma transfersIn_requireTrustedOrigin env req w :
  transfersIn (trace (snd (requireTrustedOrigin env req w))) = transfersIn (trace w).
Proof.
  unfold requireTrustedOrigin.
  repeat (match goal with |- context [if ?b then _ else _] => destruct b end);
    cbn [snd]; by rewrite ?transfersIn_log.
Qed.

Lemma transfersIn_verifySessionToken env now req w :
  transfersIn (trace (snd (verifySessionToken env now req w))) = transfersIn (trace w).
Proof.
  destruct (verifySessionToken_world env now req w) as [->|(fields & -> & _)]; [done|].
  apply transfersIn_log.
Qed.

Lemma transfersIn_checkCooldown now req w :
  transfersIn (trace (snd (checkCooldown now req w))) = transfersIn (trace w).
Proof.
  unfold checkCooldown, run, bind. destruct (connected w) eqn:Hc.
  - rewrite !(redis_get_connected _ _ _ Hc).
    destruct (orb _ _); cbn [snd]; by rewrite ?transfersIn_log.
  - unfold redis_get. by rewrite Hc.
Qed.

Lemma transfersIn_committed env now req w :
  transfersIn (trace (committed env now req w)) = transfersIn (trace w).
Proof.
  destruct (committed_cases env now req w) as [->|(ttl & _ & _ & _ & ->)]; [done|].
  by rewrite !transfersIn_stored.
Qed.

Lemma transfersIn_deleteSession now token w w1 :
  deleteSession now token w = Ok tt w1 -> transfersIn (trace w1) = transfersIn (trace w).
Proof.
  intros Hd.
  assert (Hc : connected w = true) by (by apply deleteSession_connected in Hd as [? _]).
  destruct (deleteSession_cases now token w Hc)
    as [[_ E]|[(raw & _ & _ & E)|[(s & _ & E)|(raw & _ & _ & E)]]];
    rewrite E in Hd; injection Hd as <-; by rewrite ?transfersIn_deleted.
Qed.

(** What the handler does once the balance is found sufficient, as
    [claimHandler_valid] has it: one transfer is asked for, whatever comes
    of it and of the deletion of the session. *)
Lemma transfersIn_attempted env ccx now ctx w :
  transfersIn (trace (snd
    match sendTransaction ccx (claimOpts env (address (sessionData ctx))) with
    | inr h =>
        match deleteSession now (sessionToken ctx)
                (asked env (address (sessionData ctx)) w) with
        | Ok _ w' => (Answered (claimedResponse env h), w')
        | Throw e w' => (Answered (paymentFailed e), w')
        end
    | inl message =>
        (Answered (paymentFailed (WalletError message)),
         asked env (address (sessionData ctx)) w)
    end)) = S (transfersIn (trace w)).
Proof.
  destruct (sendTransaction ccx _) as [m|h]; [apply transfersIn_asked|].
  destruct (deleteSession now (sessionToken ctx) (asked env (address (sessionData ctx)) w))
    as [[] w1|e w1] eqn:Hd.
  - cbn [snd]. rewrite (transfersIn_deleteSession _ _ _ _ Hd). apply transfersIn_asked.
  - apply deleteSession_throws in Hd as [-> _]. apply transfersIn_asked.
Qed.

(** X11. A valid claim the wallet cannot or should not serve costs nothing:
    when the balance cannot be read the answer is a 500 with the wallet's
    message, and when the balance is below a FAUCET_MIN_BALANCE that parses
    it is 503 "Not enough funds in Faucet"; in both cases no transfer is
    attempted, and the world, with the session in it, is as before. When
    FAUCET_MIN_BALANCE does not parse, or the balance reaches it, the
    transfer is attempted, whatever the amount. *)
Theorem claim_without_funds env ccx now req ctx w :
  addressMatches req ctx = true -> scoreSuffices env req = true ->
  match getBalance ccx (FAUCET_ADDRESS env) with
  | inl message =>
      claimHandler env ccx now req ctx w =
      (Answered (paymentFailed (WalletError message)), w)
  | inr bal =>
      match envInt (FAUCET_MIN_BALANCE env) "0" with
      | Some minBalance =>
          if bal <? minBalance
          then claimHandler env ccx now req ctx w =
               (Answered (reject 503 "Not enough funds in Faucet"), w)
          else transfersIn (trace (snd (claimHandler env ccx now req ctx w))) =
               S (transfersIn (trace w))
      | None => transfersIn (trace (snd (claimHandler env ccx now req ctx w))) =
                S (transfersIn (trace w))
      end
  end.
Proof.
  intros Ha Hs. rewrite (claimHandler_valid _ _ _ _ _ _ Ha Hs).
  pose proof (transfersIn_attempted env ccx now ctx w) as Hpaid.
  destruct (getBalance ccx (FAUCET_ADDRESS env)) as [m|bal]; [done|].
  unfold Js.lt. destruct (envInt (FAUCET_MIN_BALANCE env) "0") as [mb|]; [|done].
  by destruct (bal <? mb).
Qed.

Lemma claim_without_funds_witness :
  claimHandler Deployment.production Scenario.wallet 7000 (Scenario.claimReq "a1" "1.2.3.4")
    Scenario.verified Scenario.started =
  (Answered (reject 503 "Not enough funds in Faucet"), Scenario.started).
Proof.
  apply (claim_without_funds Deployment.production Scenario.wallet 7000
           (Scenario.claimReq "a1" "1.2.3.4") Scenario.verified Scenario.started);
    vm_compute; reflexivity.
Defined.

(** X12. When the store is out of reach as the handler runs, a valid claim
    on a funded wallet is paid all the same: the transfer is sent, then the
    deletion of the session fails, the answer is a 500, and the session
    record stays in the store. *)
Theorem paid_claim_with_store_down env ccx now req ctx w bal txHash :
  connected w = false ->
  addressMatches req ctx = true -> scoreSuffices env req = true ->
  getBalance ccx (FAUCET_ADDRESS env) = inr bal ->
  Js.lt (Some bal) (envInt (FAUCET_MIN_BALANCE env) "0") = false ->
  sendTransaction ccx (claimOpts env (address (sessionData ctx))) = inr txHash ->
  claimHandler env ccx now req ctx w =
    (Answered (paymentFailed RedisError), asked env (address (sessionData ctx)) w) /\
  isSuccess (paymentFailed RedisError) = false /\
  trace (asked env (address (sessionData ctx)) w) =
    (trace w ++ [ESend (address (sessionData ctx))
                   (envInt (FAUCET_AMOUNT env) "1123456")])%list /\
  kv (asked env (address (sessionData ctx)) w) = kv w.
Proof.
  intros Hc Ha Hs Hbal Hlt Hsend.
  rewrite (claimHandler_valid _ _ _ _ _ _ Ha Hs), Hbal, Hlt, Hsend.
  split; [|done].
  unfold deleteSession, bind, redis_get. cbn [connected asked emit]. by rewrite Hc.
Qed.

Lemma paid_claim_with_store_down_witness :
  connected Deployment.down = false /\
  claimHandler Scenario.production Scenario.wallet 7000 (Scenario.claimReq "a1" "1.2.3.4")
    Scenario.verified Deployment.down =
  (Answered (paymentFailed RedisError),
   asked Scenario.production Scenario.addr Deployment.down) /\
  getSession 7000 (asked Scenario.production Scenario.addr Deployment.down) "a1" =
    Some (sessionData Scenario.verified).
Proof.
  split; [reflexivity|]. split; [|vm_compute; reflexivity].
  apply (paid_claim_with_store_down Scenario.production Scenario.wallet 7000
           (Scenario.claimReq "a1" "1.2.3.4") Scenario.verified Deployment.down
           5000000 "9f2c"); vm_compute; reflexivity.
Defined.

(** ** Transfers along the claim route *)

(** The transfers of one run of the handler: none for a request that is
    not valid or a wallet that is short, one otherwise. *)
Lemma transfersIn_claimHandler env ccx now req ctx w :
  transfersIn (trace (snd (claimHandler env ccx now req ctx w))) = transfersIn (trace w) \/
  (addressMatches req ctx = true /\ scoreSuffices env req = true /\
   (exists bal, getBalance ccx (FAUCET_ADDRESS env) = inr bal /\
                Js.lt (Some bal) (envInt (FAUCET_MIN_BALANCE env) "0") = false) /\
   transfersIn (trace (snd (claimHandler env ccx now req ctx w))) =
     S (transfersIn (trace w)) /\
   exists tr, trace (snd (claimHandler env ccx now req ctx w)) =
     (trace w ++ ESend (address (sessionData ctx))
                   (envInt (FAUCET_AMOUNT env) "1123456") :: tr)%list /\
     transfersIn tr = 0%nat).
Proof.
  destruct (addressMatches req ctx) eqn:Ha.
  2:{ left. rewrite (claimHandler_invalid _ _ _ _ _ _ (or_introl Ha)).
      apply transfersIn_log. }
  destruct (scoreRejected (body_score req) (envInt (MIN_SCORE env) "1000"))
    as [[]|] eqn:Hr.
  { left. rewrite (claimHandler_invalid _ _ _ _ _ _ (or_intror Hr)).
    apply transfersIn_log. }
  2:{ left. by rewrite (claimHandler_throws _ _ _ _ _ _ Ha Hr). }
  assert (Hs : scoreSuffices env req = true) by (unfold scoreSuffices; by rewrite Hr).
  rewrite (claimHandler_valid _ _ _ _ _ _ Ha Hs).
  destruct (getBalance ccx (FAUCET_ADDRESS env)) as [m|bal]; [by left|].
  destruct (Js.lt (Some bal) (envInt (FAUCET_MIN_BALANCE env) "0")) eqn:Hlt; [by left|].
  right. split; [done|]. split; [done|]. split; [by exists bal|].
  destruct (sendTransaction ccx _) as [m|h].
  { cbn [snd]. split; [apply transfersIn_asked|]. by exists []. }
  destruct (deleteSession now (sessionToken ctx) (asked env (address (sessionData ctx)) w))
    as [[] w1|e w1] eqn:Hd.
  - cbn [snd]. split.
    + rewrite (transfersIn_deleteSession _ _ _ _ Hd). apply transfersIn_asked.
    + assert (Hc : connected (asked env (address (sessionData ctx)) w) = true)
        by (by apply deleteSession_connected in Hd as [? _]).
      destruct (deleteSession_cases now (sessionToken ctx) _ Hc)
        as [[_ E]|[(raw & _ & _ & E)|[(s & _ & E)|(raw & _ & _ & E)]]];
        rewrite E in Hd; injection Hd as <-;
        unfold asked, deleted; cbn [trace emit with_kv];
        rewrite <- ?app_assoc; cbn [app]; by eexists.
  - apply deleteSession_throws in Hd as [-> _]. cbn [snd].
    split; [apply transfersIn_asked|]. by exists [].
Qed.

(** X13. The claim route asks the wallet for at most one transfer per
    request, and for none unless the origin guard, the rate limiter, the
    Session Verifier and the cooldown check all let the request through, the
    request names the address of the verified session, its score passes the
    test of the handler (it is truthy, converting it to a number does not
    throw, and the number, if it is one, is not below a MIN_SCORE that
    parses), and the wallet's balance was read and is not below the minimum.
    The transfer is then to the address of the session, for the configured
    amount. *)
Theorem payout_needs_verified_session lim env ccx now req w :
  neverPays lim ->
  transfersIn (trace (snd (claimRoute lim env ccx now req w))) = transfersIn (trace w) \/
  exists w2 ctx bal tr,
    requireTrustedOrigin env req w = (Next tt, w) /\
    lim req w = (Next tt, w2) /\
    verifySessionToken env now req w2 = (Next ctx, w2) /\
    getSession now w2 (sessionToken ctx) = Some (sessionData ctx) /\
    checkCooldown now req w2 = (Next tt, w2) /\
    body_address req = Some (address (sessionData ctx)) /\
    ToBoolean (body_score req) = true /\
    lessThan (default JsonNull (body_score req)) (envInt (MIN_SCORE env) "1000") =
      Some false /\
    getBalance ccx (FAUCET_ADDRESS env) = inr bal /\
    Js.lt (Some bal) (envInt (FAUCET_MIN_BALANCE env) "0") = false /\
    transfersIn (trace (snd (claimRoute lim env ccx now req w))) =
      S (transfersIn (trace w)) /\
    trace (snd (claimRoute lim env ccx now req w)) =
      (trace w2 ++ ESend (address (sessionData ctx))
                     (envInt (FAUCET_AMOUNT env) "1123456") :: tr)%list /\
    transfersIn tr = 0%nat.
Proof.
  intros Hlim. unfold claimRoute.
  pose proof (transfersIn_requireTrustedOrigin env req w) as To.
  destruct (requireTrustedOrigin env req w) as [[r0|[]] w1] eqn:Ho; [by left|].
  pose proof Ho as Hw1. apply requireTrustedOrigin_passed in Hw1 as ->. clear To.
  pose proof (Hlim req w) as Tl.
  destruct (lim req w) as [[r0|[]] w2] eqn:Hl; [left; by apply (Tl _ _ eq_refl)|].
  specialize (Tl _ _ eq_refl).
  pose proof (transfersIn_verifySessionToken env now req w2) as Tv.
  destruct (verifySessionToken env now req w2) as [[r0|ctx] w3] eqn:Hv;
    [left; cbn [snd] in *; congruence|].
  destruct (verifySessionToken_passed _ _ _ _ _ _ Hv) as (-> & Hc & Htok & Hne & Hrec).
  clear Tv.
  pose proof (transfersIn_checkCooldown now req w2) as Tc.
  destruct (checkCooldown now req w2) as [[r0|[]] w4] eqn:Hcd;
    [left; cbn [snd] in *; congruence|].
  pose proof Hcd as Hw4. apply checkCooldown_passed in Hw4 as ->. clear Tc.
  rewrite setCooldownOnSuccess_unfold. cbn [snd].
  assert (Hkeep : forall w5, transfersIn (trace
            (if isSuccess (fst (claimHandler env ccx now req ctx w2))
             then committed env now req w5 else w5)) = transfersIn (trace w5)).
  { intros w5. destruct (isSuccess _); [apply transfersIn_committed|done]. }
  destruct (transfersIn_claimHandler env ccx now req ctx w2)
    as [T|(Ha & Hs & (bal & Hbal & Hlt) & T & tr & Etr & Htr)].
  { left. rewrite Hkeep. congruence. }
  right.
  destruct (validations_pass _ _ _ Ha Hs) as (addr & Hb & -> & _ & _).
  assert (Hcommit : exists tr',
            trace (if isSuccess (fst (claimHandler env ccx now req ctx w2))
                   then committed env now req (snd (claimHandler env ccx now req ctx w2))
                   else snd (claimHandler env ccx now req ctx w2)) =
            (trace (snd (claimHandler env ccx now req ctx w2)) ++ tr')%list /\
            transfersIn tr' = 0%nat).
  { destruct (isSuccess _); [|exists []; by rewrite app_nil_r].
    destruct (committed_cases env now req (snd (claimHandler env ccx now req ctx w2)))
      as [->|(ttl & _ & _ & _ & ->)]; [exists []; by rewrite app_nil_r|].
    unfold stored. cbn [trace emit with_kv]. rewrite <- app_assoc. by eexists. }
  destruct Hcommit as (tr' & Etr' & Htr').
  apply scoreSuffices_true in Hs as [Hs1 Hs2].
  exists w2, ctx, bal, (tr ++ tr')%list.
  split; [done|]. split; [done|]. split; [done|].
  split; [by unfold getSession; rewrite Hrec|].
  split; [done|]. split; [done|]. split; [done|]. split; [done|].
  split; [done|]. split; [done|].
  split; [rewrite Hkeep; congruence|]. split.
  - rewrite Etr', Etr. by rewrite <- app_assoc.
  - unfold transfersIn in *. rewrite List.filter_app, length_app. lia.
Qed.

Lemma noLimit_neverPays : neverPays Scenario.noLimit.
Proof. intros req w st w' H. by injection H as _ <-. Qed.

Lemma payout_needs_verified_session_witness :
  neverPays Scenario.noLimit /\
  transfersIn (trace (snd (claimRoute Scenario.noLimit Scenario.production Scenario.wallet
                             7000 Scenario.forgedReq Scenario.started))) =
  transfersIn (trace Scenario.started).
Proof.
  split; [exact noLimit_neverPays|].
  destruct (payout_needs_verified_session Scenario.noLimit Scenario.production
              Scenario.wallet 7000 Scenario.forgedReq Scenario.started noLimit_neverPays)
    as [H|(w2 & ctx & bal & tr & _ & Hl & Hv & _)]; [exact H|].
  exfalso. injection Hl as <-.
  apply (f_equal fst) in Hv. vm_compute in Hv. discriminate Hv.
Defined.

(** ** Start-up validation *)

Lemma app_nil_iff {A} (l1 l2 : list A) : (l1 ++ l2)%list = [] <-> l1 = [] /\ l2 = [].
Proof. destruct l1; cbn; split; (try done); intros [? ?]; done. Qed.

Lemma mjoin_imap_nil {A B} (f : nat -> A -> list B) (ok : A -> Prop) (l : list A) :
  (forall i x, f i x = [] <-> ok x) ->
  mjoin (imap f l) = [] <-> Forall ok l.
Proof.
  revert f. induction l as [|x l IH]; intros f Hf; [by split; [constructor|]|].
  cbn. rewrite app_nil_iff, Hf, (IH (f ∘ S)) by (intros i y; apply Hf).
  split; [intros [? ?]; by constructor|]. intros HF. by inversion HF.
Qed.

Lemma truthy_iff (v : option string) :
  Js.truthy v = true <-> exists s, v = Some s /\ s <> "".
Proof.
  destruct v as [s|]; cbn.
  - destruct (String.eqb_spec s ""); split; try done.
    + intros (? & [= <-] & ?). done.
    + intros _. by exists s.
  - split; [done|]. by intros (? & ? & _).
Qed.

Lemma faucetAddressErrors_nil a :
  faucetAddressErrors a = [] <->
  exists s, a = Some s /\ String.prefix "ccx7" s = true /\ String.length s = 98%nat.
Proof.
  unfold faucetAddressErrors, Js.startsWith. destruct a as [s|]; cbn [Js.truthy negb].
  2:{ split; [done|]. by intros (? & ? & _). }
  destruct (String.eqb_spec s "") as [->|Hne]; cbn [negb].
  { split; [done|]. by intros (? & [= <-] & ? & ?). }
  cbn [default from_option id].
  destruct (String.prefix "ccx7" s) eqn:Hp; cbn [negb app].
  2:{ split; [done|]. intros (? & [= <-] & ? & _). congruence. }
  destruct (Z.eqb_spec (Z.of_nat (String.length s)) 98) as [Hl|Hl]; cbn [negb].
  - split; [|done]. intros _. exists s. split; [done|]. split; [done|]. lia.
  - split; [done|]. intros (? & [= <-] & _ & Hl'). rewrite Hl' in Hl. by exfalso.
Qed.

Lemma faucetAmountErrors_nil v :
  faucetAmountErrors v = [] <->
  exists s n, v = Some s /\ s <> "" /\ Js.parseInt s = Some n /\ 0 < n.
Proof.
  unfold faucetAmountErrors, notPositive. destruct v as [s|]; cbn [Js.truthy negb].
  2:{ split; [done|]. by intros (? & ? & ? & _). }
  destruct (String.eqb_spec s "") as [->|Hne]; cbn [negb].
  { split; [done|]. by intros (? & ? & [= <-] & ? & _). }
  cbn [default from_option id].
  destruct (Js.parseInt s) as [n|] eqn:Hn.
  - destruct (Z.leb_spec n 0).
    + split; [done|]. intros (? & n' & [= <-] & _ & Hn' & Hpos). simplify_eq. lia.
    + split; [|done]. intros _. by exists s, n.
  - split; [done|]. intros (? & n' & [= <-] & _ & Hn' & _). congruence.
Qed.

Lemma requiredErrors_nil name v : requiredErrors name v = [] <-> Js.truthy v = true.
Proof. unfold requiredErrors. by destruct (Js.truthy v). Qed.

Lemma portErrors_nil name v :
  portErrors name v = [] <->
  exists s port, v = Some s /\ s <> "" /\ Js.parseInt s = Some port /\ 1 <= port <= 65535.
Proof.
  unfold portErrors, badPort. destruct v as [s|]; cbn [Js.truthy negb].
  2:{ split; [done|]. by intros (? & ? & ? & _). }
  destruct (String.eqb_spec s "") as [->|Hne]; cbn [negb].
  { split; [done|]. by intros (? & ? & [= <-] & ? & _). }
  cbn [default from_option id].
  destruct (Js.parseInt s) as [n|] eqn:Hn.
  - destruct (Z.leb_spec n 0); cbn [orb].
    + split; [done|]. intros (? & n' & [= <-] & _ & Hn' & Hpos). simplify_eq. lia.
    + destruct (Z.ltb_spec 65535 n).
      * split; [done|]. intros (? & n' & [= <-] & _ & Hn' & Hpos). simplify_eq. lia.
      * split; [|done]. intros _. exists s, n. repeat (split; [done|]). lia.
  - split; [done|]. intros (? & n' & [= <-] & _ & Hn' & _). congruence.
Qed.

Lemma domainErrors_nil validURL index domain :
  domainErrors validURL index domain = [] <->
  String.prefix "https://" domain = true /\ validURL domain = true.
Proof.
  unfold domainErrors, Js.startsWith.
  destruct (String.prefix "https://" domain), (validURL domain); cbn;
    split; (done || by intros [? ?]).
Qed.

Lemma frontendDomainErrors_nil validURL d env :
  FRONTEND_DOMAIN env = d ->
  frontendDomainErrors validURL d = [] <->
  allowedOrigins env <> [] /\
  Forall (fun domain => String.prefix "https://" domain = true /\ validURL domain = true)
    (allowedOrigins env).
Proof.
  intros Hd. unfold frontendDomainErrors, allowedOrigins, getAllowedOrigins. rewrite Hd.
  destruct d as [s|]; cbn [Js.truthy negb]; [|by split; [|intros [? _]]].
  destruct (String.eqb_spec s "") as [->|Hne]; cbn [negb]; [by split; [|intros [? _]]|].
  cbn [default from_option id].
  set (domains := filter _ _).
  rewrite app_nil_iff, (mjoin_imap_nil _ _ _ (domainErrors_nil validURL)).
  destruct domains as [|x l]; cbn [length Z.of_nat Z.eqb]; [by split; intros [? _]|].
  change (Z.pos (Pos.of_succ_nat (length l)) =? 0) with false.
  split; intros [_ ?]; done.
Qed.

Lemma configErrors_nil validURL se :
  configErrors validURL se = [] <-> validConfig validURL se.
Proof.
  unfold configErrors, validConfig.
  rewrite !app_nil_iff, faucetAddressErrors_nil, faucetAmountErrors_nil,
    !requiredErrors_nil, !portErrors_nil, (frontendDomainErrors_nil _ _ _ eq_refl).
  tauto.
Qed.

Lemma assertEnv_production validURL se :
  isProduction (base se) = true -> assertEnv validURL se = None ->
  validConfig validURL se.
Proof.
  unfold assertEnv. intros ->. cbn [negb]. intros H. apply configErrors_nil.
  by destruct (configErrors validURL se).
Qed.

(** X14. [assertEnv] returns exactly when the server does not run in
    production, or the faucet address has the format of a CCX address, the
    amount parses to a positive integer, both hosts are set, both ports
    parse to a number from 1 to 65535, and FRONTEND_DOMAIN lists at least
    one origin, each of them an https URL. Otherwise it throws, with a
    message that lists every failed condition. *)
Theorem assertEnv_returns validURL se :
  (assertEnv validURL se = None <->
   isProduction (base se) = false \/ validConfig validURL se) /\
  (forall msg, assertEnv validURL se = Some msg ->
     msg = errorMsg (configErrors validURL se) /\
     isProduction (base se) = true /\ ~ validConfig validURL se).
Proof.
  unfold assertEnv. pose proof (configErrors_nil validURL se) as Hnil.
  destruct (isProduction (base se)); cbn [negb]; [|split; [by split; [left|]|done]].
  destruct (configErrors validURL se) as [|e l]; cbn [length Z.of_nat Z.ltb Z.compare].
  - split; [|done]. split; [intros _; right; by apply Hnil|done].
  - split.
    + split; [done|]. intros [?|Hv]; [done|]. by apply Hnil in Hv.
    + intros msg [= <-]. split; [done|]. split; [done|]. intros Hv. by apply Hnil in Hv.
Qed.

(** X15. Once [assertEnv] has returned in production, the origin guard is
    configured: the allow-list is not empty, it is the list CORS uses, each
    of its entries is an https URL, no request is answered with the 500 of
    an empty allow-list, and a request the guard lets through carries an
    Origin header that is one of these https URLs. *)
Theorem validated_config_origin_guard validURL se :
  isProduction (base se) = true -> assertEnv validURL se = None ->
  allowedOrigins (base se) <> [] /\
  getCorsOrigins (base se) = allowedOrigins (base se) /\
  (forall o, In o (allowedOrigins (base se)) ->
             String.prefix "https://" o = true /\ validURL o = true) /\
  forall req w,
    fst (requireTrustedOrigin (base se) req w) <>
      Respond (reject 500 "Service temporarily unavailable") /\
    (fst (requireTrustedOrigin (base se) req w) = Next tt ->
     exists o, header_origin req = Some o /\ In o (allowedOrigins (base se)) /\
               String.prefix "https://" o = true /\ validURL o = true).
Proof.
  intros Hprod Hret.
  destruct (assertEnv_production _ _ Hprod Hret) as (_ & _ & _ & _ & _ & _ & Hne & Hall).
  rewrite Forall_forall in Hall.
  assert (Hin : forall o, In o (allowedOrigins (base se)) ->
                          String.prefix "https://" o = true /\ validURL o = true).
  { intros o Ho. apply Hall. by apply list_elem_of_In. }
  split; [done|]. split; [|split; [done|]].
  - unfold getCorsOrigins, allowedOrigins, getAllowedOrigins in *.
    destruct (FRONTEND_DOMAIN (base se)) as [d|]; [|done].
    by destruct (String.eqb d "").
  - intros req w. split.
    + intros E. unfold requireTrustedOrigin in E. rewrite Hprod in E.
      cbn [negb andb] in E.
      destruct (allowedOrigins (base se)) as [|x l]; [done|].
      change (Z.of_nat (length (x :: l)) =? 0) with false in E. cbv beta iota in E.
      repeat (match type of E with context [if ?b then _ else _] => destruct b end);
        discriminate E.
    + intros Hpass. apply requireTrustedOrigin_passes_iff in Hpass as [He|[Ht Hi]].
      { unfold originEnforced in He. by rewrite Hprod in He. }
      destruct (header_origin req) as [o|]; [|done]. exists o. split; [done|].
      cbn [default from_option id] in Hi. apply includes_In in Hi.
      split; [done|]. by apply Hin.
Qed.

Lemma validated_config_origin_guard_witness :
  assertEnv Deployment.anyURL Deployment.startup = None /\
  allowedOrigins Deployment.production = ["https://f.example"; "https://g.example"] /\
  getCorsOrigins Deployment.production = allowedOrigins Deployment.production.
Proof.
  assert (Hret : assertEnv Deployment.anyURL Deployment.startup = None)
    by (vm_compute; reflexivity).
  split; [exact Hret|]. split; [vm_compute; reflexivity|].
  exact (proj1 (proj2 (validated_config_origin_guard Deployment.anyURL Deployment.startup
                         eq_refl Hret))).
Defined.

Lemma envInt_set v d s : v = Some s -> s <> "" -> envInt v d = Js.parseInt s.
Proof.
  intros -> Hs. unfold envInt, Js.or_default.
  by destruct (String.eqb_spec s "").
Qed.

(** X16. Once [assertEnv] has returned in production, the faucet pays a
    positive amount from an address of the format the start-game route asks
    of its callers; the defaults of the claim handler (1123456) and of the
    health route (100000) never apply, so that the [available] flag of the
    health route tells whether the balance covers the amount a claim
    transfers. *)
Theorem validated_config_amount validURL se :
  isProduction (base se) = true -> assertEnv validURL se = None ->
  exists a amount,
    FAUCET_ADDRESS (base se) = Some a /\ ~ invalidAddress (Some a) /\
    0 < amount /\
    (forall addr, claimOpts (base se) addr =
       {| transfers := [(addr, Some amount)]; addresses := [Some a];
          changeAddress := Some a; anonymity := 5; fee := 10 |}) /\
    (forall txHash, body (claimedResponse (base se) txHash) =
       JClaimed txHash (Some (Qmake amount 1000000))) /\
    (forall ccx bal, getBalance ccx (Some a) = inr bal ->
       Js.lt (Some bal) (envInt (FAUCET_MIN_BALANCE (base se)) "0") = false ->
       healthHandler (base se) ccx =
       {| healthStatus := 200; healthBody := HealthOk (amount <=? bal) bal |}).
Proof.
  intros Hprod Hret.
  destruct (assertEnv_production _ _ Hprod Hret)
    as ((a & Ha & Hp & Hl) & (s & amount & Hs & Hne & Hn & Hpos) & _).
  exists a, amount. split; [done|]. split.
  { cbn. intros [H|H]; congruence. }
  split; [done|].
  assert (E1 : envInt (FAUCET_AMOUNT (base se)) "1123456" = Some amount)
    by (by rewrite (envInt_set _ _ _ Hs Hne)).
  assert (E2 : envInt (FAUCET_AMOUNT (base se)) "100000" = Some amount)
    by (by rewrite (envInt_set _ _ _ Hs Hne)).
  split; [|split].
  - intros addr. unfold claimOpts. by rewrite E1, Ha.
  - intros txHash. unfold claimedResponse. cbn [body]. by rewrite E1.
  - intros ccx bal Hbal Hlt. unfold healthHandler. rewrite Ha.
    assert (Ht : Js.truthy (Some a) = true).
    { destruct a; [discriminate Hl|done]. }
    rewrite Ht. cbn [negb]. by rewrite Hbal, Hlt, E2.
Qed.

Lemma validated_config_amount_witness :
  assertEnv Deployment.anyURL Deployment.startup = None /\
  exists a amount,
    FAUCET_ADDRESS Deployment.production = Some a /\ 0 < amount /\
    transfers (claimOpts Deployment.production Scenario.addr) =
      [(Scenario.addr, Some amount)].
Proof.
  assert (Hret : assertEnv Deployment.anyURL Deployment.startup = None)
    by (vm_compute; reflexivity).
  split; [exact Hret|].
  destruct (validated_config_amount Deployment.anyURL Deployment.startup eq_refl Hret)
    as (a & amount & Ha & _ & Hpos & Hopts & _).
  exists a, amount. split; [exact Ha|]. split; [exact Hpos|].
  exact (f_equal transfers (Hopts Scenario.addr)).
Defined.

(** ** The health route and CORS *)

(** X17. With FAUCET_ADDRESS set, the health route predicts what the claim
    handler does with a valid request: it answers 200 exactly when the
    handler attempts the transfer, 503 when the handler answers 503 "Not
    enough funds in Faucet", and 500 when the handler answers with the
    wallet's error; in the last two cases nothing is sent. The [available]
    flag of a 200 has no counterpart in the handler, which attempts the
    transfer whether or not the balance covers the amount. *)
Theorem health_predicts_claim env ccx now req ctx w :
  Js.truthy (FAUCET_ADDRESS env) = true ->
  addressMatches req ctx = true -> scoreSuffices env req = true ->
  (healthStatus (healthHandler env ccx) = 200 \/
   healthStatus (healthHandler env ccx) = 503 \/
   healthStatus (healthHandler env ccx) = 500) /\
  (healthStatus (healthHandler env ccx) = 200 <->
   transfersIn (trace (snd (claimHandler env ccx now req ctx w))) =
     S (transfersIn (trace w))) /\
  (healthStatus (healthHandler env ccx) = 503 ->
   healthBody (healthHandler env ccx) = HealthError "Not enough funds in Faucet" /\
   claimHandler env ccx now req ctx w =
   (Answered (reject 503 "Not enough funds in Faucet"), w)) /\
  (healthStatus (healthHandler env ccx) = 500 ->
   exists message,
     healthBody (healthHandler env ccx) =
       HealthError (Js.or_default message "Wallet unavailable") /\
     claimHandler env ccx now req ctx w =
     (Answered (paymentFailed (WalletError message)), w)).
Proof.
  intros Hset Ha Hs.
  destruct (transfersIn_claimHandler env ccx now req ctx w)
    as [T|(_ & _ & (bal & Hbal & Hlt) & T & _)].
  - (* no transfer *)
    assert (Hno : transfersIn (trace (snd (claimHandler env ccx now req ctx w))) <>
                  S (transfersIn (trace w))) by lia.
    clear T. rewrite (claimHandler_valid _ _ _ _ _ _ Ha Hs) in *.
    unfold healthHandler. rewrite Hset. cbn [negb].
    destruct (getBalance ccx (FAUCET_ADDRESS env)) as [m|bal].
    + cbn [healthStatus healthBody]. split; [by right; right|].
      split; [split; [done|by intros ?]|]. split; [done|]. intros _. by exists m.
    + destruct (Js.lt (Some bal) (envInt (FAUCET_MIN_BALANCE env) "0")).
      * cbn [healthStatus healthBody]. split; [by right; left|].
        split; [split; [done|by intros ?]|]. split; done.
      * exfalso. apply Hno, transfersIn_attempted.
  - unfold healthHandler. rewrite Hset, Hbal, Hlt. cbn [negb healthStatus healthBody].
    split; [by left|]. split; [done|]. split; done.
Qed.

Lemma health_predicts_claim_witness :
  healthStatus (healthHandler Deployment.production Scenario.wallet) = 503 /\
  claimHandler Deployment.production Scenario.wallet 7000 (Scenario.claimReq "a1" "1.2.3.4")
    Scenario.verified Scenario.started =
  (Answered (reject 503 "Not enough funds in Faucet"), Scenario.started).
Proof.
  assert (H503 : healthStatus (healthHandler Deployment.production Scenario.wallet) = 503)
    by (vm_compute; reflexivity).
  split; [exact H503|].
  assert (Hset : Js.truthy (FAUCET_ADDRESS Deployment.production) = true)
    by (vm_compute; reflexivity).
  assert (Ha : addressMatches (Scenario.claimReq "a1" "1.2.3.4") Scenario.verified = true)
    by (vm_compute; reflexivity).
  assert (Hs : scoreSuffices Deployment.production (Scenario.claimReq "a1" "1.2.3.4") = true)
    by (vm_compute; reflexivity).
  exact (proj2 (proj1 (proj2 (proj2 (health_predicts_claim Deployment.production
           Scenario.wallet 7000 (Scenario.claimReq "a1" "1.2.3.4") Scenario.verified
           Scenario.started Hset Ha Hs))) H503)).
Defined.

Lemma getCorsOrigins_set env :
  Js.truthy (FRONTEND_DOMAIN env) = true -> getCorsOrigins env = allowedOrigins env.
Proof.
  unfold getCorsOrigins, allowedOrigins, getAllowedOrigins, Js.truthy.
  destruct (FRONTEND_DOMAIN env) as [d|]; [|done]. by destruct (String.eqb d "").
Qed.

Lemma allowedOrigins_unset env :
  Js.truthy (FRONTEND_DOMAIN env) = false -> allowedOrigins env = [].
Proof.
  unfold allowedOrigins, getAllowedOrigins, Js.truthy.
  destruct (FRONTEND_DOMAIN env) as [d|]; [|done]. by destruct (String.eqb d "").
Qed.

(** X18. CORS and the origin guard read the same list whenever
    FRONTEND_DOMAIN is set; when it is not, CORS allows the one origin
    http://localhost:3000 and the guard none. A request on which the guard
    enforces the allow-list and which it lets through is allowed by CORS,
    so that a request CORS refuses never passes an enforcing guard. The
    converse fails for requests without an Origin header: CORS allows them,
    an enforcing guard never does. *)
Theorem cors_and_origin_guard env req w :
  (Js.truthy (FRONTEND_DOMAIN env) = true -> getCorsOrigins env = allowedOrigins env) /\
  (Js.truthy (FRONTEND_DOMAIN env) = false ->
   getCorsOrigins env = ["http://localhost:3000"] /\ allowedOrigins env = []) /\
  (originEnforced env req = true ->
   fst (requireTrustedOrigin env req w) = Next tt ->
   corsOrigin env (header_origin req) = CorsAllowed) /\
  (Js.truthy (header_origin req) = false ->
   corsOrigin env (header_origin req) = CorsAllowed /\
   (originEnforced env req = true ->
    exists r, fst (requireTrustedOrigin env req w) = Respond r)).
Proof.
  split; [apply getCorsOrigins_set|]. split; [|split].
  - intros Hd. split; [|by apply allowedOrigins_unset].
    unfold getCorsOrigins, Js.truthy in *.
    destruct (FRONTEND_DOMAIN env) as [d|]; [|done]. by destruct (String.eqb d "").
  - intros He Hpass. apply requireTrustedOrigin_passes_iff in Hpass as [H|[Ht Hi]];
      [congruence|].
    unfold corsOrigin. rewrite Ht. cbn [negb].
    destruct (Js.truthy (FRONTEND_DOMAIN env)) eqn:Hd.
    + by rewrite (getCorsOrigins_set _ Hd), Hi.
    + by rewrite (allowedOrigins_unset _ Hd) in Hi.
  - intros Ho. split; [unfold corsOrigin; by rewrite Ho|]. intros He.
    destruct (requireTrustedOrigin env req w) as [[r|[]] w1] eqn:E; [by exists r|].
    exfalso.
    destruct (proj1 (requireTrustedOrigin_passes_iff env req w) ltac:(by rewrite E))
      as [H|[Ht _]]; congruence.
Qed.
